(** * Somunicate dimension-based audio search: the matching engine

    A shallow embedding of the numerical core of the Streamlit application
    (files [eucdisMax.py], [SomunicateDBASv2.0.py] ... [SomunicateDBASv10.0.py]):
    the projection of the rating table onto the selected dimensions, the
    Euclidean and Mahalanobis distances, the ranking by [np.argsort] /
    [np.argmin], the demographic filter fused with the top-N cut, the set-up of
    the inverse covariance matrix and the score aggregation shown next to each
    result.

    Numbers.  A float64 cell is either NaN or a finite number; finite numbers
    are idealised as rationals ([Q]), so arithmetic is exact.  Square roots are
    kept symbolically ([DSqrt q] stands for the real number [sqrt q]); their
    order is the order of the radicands, and [dist_R] gives the real value. *)

From Stdlib Require Import ZArith QArith Qround Qabs Reals Lra Lia Ascii.
From Stdlib Require PrimFloat.
From Stdlib Require Lqa.
From stdpp Require Import base option list gmap strings pretty sorting.

Local Open Scope Q_scope.

(** ** Exceptions and results *)

Inductive exn : Set :=
  | KeyError      (* a column label that the frame does not have *)
  | ValueError    (* shapes that do not broadcast / align; [list.index] miss *)
  | IndexError    (* an index outside an array *)
  | LinAlgError.  (* what [np.linalg.inv] raises *)

Inductive result (A : Type) : Type :=
  | Ok (a : A)
  | Raise (e : exn).
Arguments Ok {A} a.
Arguments Raise {A} e.

#[global] Instance result_ret : MRet result := fun A a => Ok a.
#[global] Instance result_bind : MBind result := fun A B f m =>
  match m with Ok a => f a | Raise e => Raise e end.
#[global] Instance result_fmap : FMap result := fun A B f m =>
  match m with Ok a => Ok (f a) | Raise e => Raise e end.

Definition from_option {A} (e : exn) (o : option A) : result A :=
  match o with Some a => Ok a | None => Raise e end.

(** [[f(x) for x in l]] where [f] may raise: the first exception wins. *)
Fixpoint mapR {A B} (f : A -> result B) (l : list A) : result (list B) :=
  match l with
  | [] => Ok []
  | x :: l' => y ← f x; ys ← mapR f l'; Ok (y :: ys)
  end.

(** ** Cells: float64 values with NaN *)

Inductive cell : Set :=
  | NaN
  | Num (q : Q).

Definition cell_lift2 (f : Q -> Q -> Q) (a b : cell) : cell :=
  match a, b with
  | Num x, Num y => Num (f x y)
  | _, _ => NaN
  end.

Definition cell_add := cell_lift2 Qplus.
Definition cell_sub := cell_lift2 Qminus.
Definition cell_mul := cell_lift2 Qmult.
Definition cell_sq (a : cell) : cell := cell_mul a a.

Definition is_nan (a : cell) : bool :=
  match a with NaN => true | Num _ => false end.

(** [a >= t]: every comparison with NaN is false. *)
Definition cell_ge (a : cell) (t : Q) : bool :=
  match a with NaN => false | Num x => Qle_bool t x end.

(** [a > t]. *)
Definition cell_gt (a : cell) (t : Q) : bool :=
  match a with NaN => false | Num x => negb (Qle_bool x t) end.

(** [add.reduce]: the sum of a vector, NaN as soon as one summand is. *)
Definition cell_sum (l : list cell) : cell := foldr cell_add (Num 0) l.

(** [int(x)] on a finite float: truncation towards zero. *)
Definition cell_int (q : Q) : Z := Z.quot (Qnum q) (Zpos (Qden q)).

(** ** Square roots and distances

    [DSqrt q] denotes the non-negative real [sqrt q] (for [0 <= q]); [DNaN]
    is what [np.sqrt] returns on NaN or on a negative argument. *)

Inductive dist : Set :=
  | DNaN
  | DSqrt (q : Q).

Definition np_sqrt (a : cell) : dist :=
  match a with
  | NaN => DNaN
  | Num q => if Qle_bool 0 q then DSqrt q else DNaN
  end.


(** The order [np.argsort] sorts by: numbers ascending, NaN after every
    number. *)
Definition dist_leb (a b : dist) : bool :=
  match a, b with
  | _, DNaN => true
  | DNaN, DSqrt _ => false
  | DSqrt x, DSqrt y => Qle_bool x y
  end.

Definition dist_le (a b : dist) : Prop := dist_leb a b = true.

(** ** pandas: frames and rows

    A row ([Series]) maps column labels to cells; a frame has its column
    labels and its rows in catalog order. *)

Record DataFrame : Type := {
  columns : list string;
  rows : list (gmap string cell)
}.

(** [row[label]] -- KeyError when the label is missing. *)
Definition row_get (r : gmap string cell) (label : string) : result cell :=
  from_option KeyError (r !! label).

(** [df[labels].values]: the selected columns, in the order of [labels], as a
    2-D array; KeyError when a label is not a column. *)
Definition select_values (df : DataFrame) (labels : list string)
  : result (list (list cell)) :=
  if forallb (fun d => bool_decide (d ∈ columns df)) labels
  then mapR (fun r => mapR (row_get r) labels) (rows df)
  else Raise KeyError.

(** [df.iloc[i]] *)
Definition iloc (df : DataFrame) (i : nat) : result (gmap string cell) :=
  from_option IndexError (rows df !! i).

(** [df.iloc[indices]]: the rows at the given positions, in that order. *)
Definition iloc_list (df : DataFrame) (indices : list nat)
  : result (list (gmap string cell)) :=
  mapR (iloc df) indices.

(** [str(n)] for a Python int. *)
Definition str (n : Z) : string := pretty n.

(** ** numpy *)

(** Whether two 1-D lengths broadcast against each other. *)
Definition broadcastable (k m : nat) : bool :=
  (k =? m)%nat || (k =? 1)%nat || (m =? 1)%nat.

(** [row - u] for 1-D arrays whose lengths broadcast. *)
Definition bsub (row : list cell) (u : list Q) : list cell :=
  match row, u with
  | [x], _ => map (fun y => cell_sub x (Num y)) u
  | _, [y] => map (fun x => cell_sub x (Num y)) row
  | _, _ => zip_with (fun x y => cell_sub x (Num y)) row u
  end.

(** [X - u] for a 2-D array [X] with [k] columns. *)
Definition sub_rows (k : nat) (X : list (list cell)) (u : list Q)
  : result (list (list cell)) :=
  if broadcastable k (length u) then Ok (map (fun row => bsub row u) X)
  else Raise ValueError.

(** [np.linalg.norm(v)] of one row: [sqrt(add.reduce(v * v))]. *)
Definition norm (v : list cell) : dist := np_sqrt (cell_sum (map cell_sq v)).

(** [np.linalg.norm(X, axis=1)] *)
Definition norm_axis1 (X : list (list cell)) : list dist := map norm X.

(** [np.mean(l)]: NaN for an empty list. *)
Definition np_mean (l : list cell) : cell :=
  match l with
  | [] => NaN
  | _ => cell_lift2 Qdiv (cell_sum l) (Num (inject_Z (Z.of_nat (length l))))
  end.

(** The key at position [i] of an array of distances. *)
Definition key_at (ks : list dist) (i : nat) : dist := default DNaN (ks !! i).

(** The order that the keys induce on positions, and its strict part. *)
Definition key_le (ks : list dist) (i j : nat) : Prop :=
  dist_le (key_at ks i) (key_at ks j).

Definition key_lt (ks : list dist) (i j : nat) : Prop :=
  key_le ks i j /\ ~ key_le ks j i.

(** What numpy documents of [np.argsort(ks)] with the default [kind]: the
    result is a permutation of the positions [0 .. len(ks)-1] along which the
    keys ascend, NaN last.  The default sort is not a stable one, so the order
    among equal keys is not part of the contract. *)
Definition argsort_contract (argsort : list dist -> list nat) : Prop :=
  forall ks, argsort ks ≡ₚ seq 0 (length ks)
             /\ StronglySorted dist_le (map (key_at ks) (argsort ks)).

(** A reference implementation of the contract: insertion sort of the
    positions, which happens to keep equal keys in catalog order. *)
Fixpoint insert_idx (ks : list dist) (i : nat) (l : list nat) : list nat :=
  match l with
  | [] => [i]
  | j :: l' =>
      if dist_leb (key_at ks j) (key_at ks i) then j :: insert_idx ks i l'
      else i :: j :: l'
  end.

Definition insertion_argsort (ks : list dist) : list nat :=
  foldl (fun acc i => insert_idx ks i acc) [] (seq 0 (length ks)).

(** [np.argmin(ks)]: the first NaN if there is one, else the first position
    of the minimum; ValueError on an empty array. *)
Definition argmin_better (k best : dist) : bool :=
  match best, k with
  | DNaN, _ => false
  | DSqrt _, DNaN => true
  | DSqrt b, DSqrt x => negb (Qle_bool b x)
  end.

Fixpoint argmin_from (best_i : nat) (best : dist) (i : nat) (l : list dist)
  : nat :=
  match l with
  | [] => best_i
  | k :: l' =>
      if argmin_better k best then argmin_from i k (S i) l'
      else argmin_from best_i best (S i) l'
  end.

Definition np_argmin (ks : list dist) : result nat :=
  match ks with
  | [] => Raise ValueError
  | k :: l => Ok (argmin_from 0 k 1 l)
  end.

(** [l.index(x)]: the first position of [x]; ValueError when absent. *)
Definition list_index (x : string) (l : list string) : result nat :=
  from_option ValueError (fst <$> list_find (fun y => y = x) l).

(** *** Matrices (2-D arrays as lists of rows) *)

Abbreviation matrix := (list (list cell)).

Definition ncols (M : matrix) : nat :=
  match M with [] => 0%nat | r :: _ => length r end.

(** [np.diag(v)] *)
Definition np_diag (v : list cell) : matrix :=
  imap (fun i x => <[i := x]> (replicate (length v) (Num 0))) v.

Definition dot (a b : list cell) : cell := cell_sum (zip_with cell_mul a b).

(** Column [j] of a matrix. *)
Definition column (M : matrix) (j : nat) : list cell :=
  map (fun row => default NaN (row !! j)) M.

(** [v @ M] for a 1-D [v]: ValueError unless [len(v)] is the number of rows. *)
Definition vec_mat (v : list cell) (M : matrix) : result (list cell) :=
  if decide (length v = length M)
  then Ok (map (fun j => dot v (column M j)) (seq 0 (ncols M)))
  else Raise ValueError.

(** [a @ b] for 1-D arrays. *)
Definition vec_vec (a b : list cell) : result cell :=
  if decide (length a = length b) then Ok (dot a b) else Raise ValueError.

(** [A @ B] for 2-D arrays. *)
Definition mat_mul (A B : matrix) : result matrix :=
  if decide (ncols A = length B) then mapR (fun row => vec_mat row B) A
  else Raise ValueError.

(** [M[np.ix_(rs, cs)]]: the entries at rows [rs] and columns [cs], in the
    order given. *)
Definition ix_ (M : matrix) (rs cs : list nat) : result matrix :=
  mapR (fun i => row ← from_option IndexError (M !! i);
                 mapR (fun j => from_option IndexError (row !! j)) cs) rs.

Definition sign (j : nat) : cell := Num (if Nat.even j then 1 else -1).

(** Determinant by expansion along the first row. *)
Fixpoint det_n (n : nat) (M : matrix) : cell :=
  match n, M with
  | S n', r :: rest =>
      cell_sum (imap (fun j x =>
        cell_mul (sign j) (cell_mul x (det_n n' (map (delete j) rest)))) r)
  | _, _ => Num 1
  end.

Definition det (M : matrix) : cell := det_n (length M) M.

Definition is_square (M : matrix) : bool :=
  forallb (fun r => (length r =? length M)%nat) M.

Definition cofactor (M : matrix) (i j : nat) : cell :=
  cell_mul (sign (i + j)) (det (map (delete j) (delete i M))).

Definition is_zero (a : cell) : bool :=
  match a with NaN => false | Num q => Qeq_bool q 0 end.

(** Inversion in exact arithmetic: LinAlgError when [M] is not square or its
    determinant is zero, else adjugate over determinant.  This is not
    [np.linalg.inv], which works in binary64 and raises only when its LU
    factorisation meets a pivot that is exactly zero; the two agree where the
    binary64 computation involves no rounding, as on the sample tables
    (entries 0, 1/4 and 1/2), and it is at those tables only that this
    routine is used, as an instance of the [np_linalg_inv] parameter. *)
Definition exact_inverse (M : matrix) : result matrix :=
  if negb (is_square M) then Raise LinAlgError
  else if is_zero (det M) then Raise LinAlgError
  else
    let n := length M in
    Ok (map (fun i => map (fun j => cell_lift2 Qdiv (cofactor M j i) (det M))
                          (seq 0 n)) (seq 0 n)).

(** ** Reading the reference tables *)

(** A cell as [pd.read_csv] hands it over: a number, a text that is not a
    number, or an empty field. *)
Inductive raw_cell : Set :=
  | RNum (q : Q)
  | RText (s : string)
  | RMissing.

(** [pd.to_numeric(_, errors='coerce')] *)
Definition to_numeric (c : raw_cell) : cell :=
  match c with RNum q => Num q | _ => NaN end.

Record RawFrame : Type := {
  raw_columns : list string;
  raw_rows : list (gmap string raw_cell)
}.

(** [load_median_data]: the rating columns are [data.columns[4:23]] and are
    coerced to numbers.  The model keeps the rating columns only (the leading
    four, among them the sound name, take no part in any computation). *)
Definition load_median_data (raw : RawFrame) : DataFrame * list string :=
  let rating_columns := take 19 (drop 4 (raw_columns raw)) in
  ({| columns := rating_columns;
      rows := map (fun r => to_numeric <$>
                     filter (fun kv => kv.1 ∈ rating_columns) r)
                  (raw_rows raw) |},
   rating_columns).

(** [load_correlation_data]: every cell coerced to a number. *)
Definition load_correlation_data (raw : list (list raw_cell)) : matrix :=
  map (map to_numeric) raw.

(** [corr_matrix_setup]: drop the first (label) column, [.iloc[:, 1:]], then
    rescale each coefficient from the [0,1] scale with [(c * 2) - 1]. *)
Definition corr_rescale (c : cell) : cell :=
  cell_sub (cell_mul c (Num 2)) (Num 1).

Definition corr_matrix_setup (raw : list (list raw_cell)) : matrix :=
  map (fun row => map corr_rescale (drop 1 row)) (load_correlation_data raw).

(** The same rescaling on a binary64 float. *)
Module Binary64.
Import PrimFloat.
Definition corr_rescale_float (c : float) : float := ((c * 2) - 1)%float.
Definition three_quarters : float := 0.75%float.
Definition one_half : float := 0.5%float.
(** [abs(x - y) <= 1e-9] (the binary64 value nearest to 1e-9) *)
Definition within_tolerance (x y : float) : bool :=
  (abs (x - y) <=? 0x1.12e0be826d695p-30)%float.
End Binary64.

(** [std_matrix_setup]: the diagonal matrix of the per-column standard
    deviations [data[rate_cols].std()], which pandas computes; [pd_std] is
    that computation. *)
Definition std_matrix_setup (pd_std : DataFrame -> list string -> list cell)
    (data : DataFrame) (rate_cols : list string) : matrix :=
  np_diag (pd_std data rate_cols).

(** ** The search functions *)

(** The [for i in range(len(specified_dimensions))] loop of the Mahalanobis
    search: [diff = row - user_ratings], then
    [np.sqrt(diff.T @ selected_inv_cov_matrix @ diff)]. *)
Definition mahalanobis_row (selected_inv_cov_matrix : matrix)
    (user_ratings : list Q) (row : list cell) : result dist :=
  diff ← (if broadcastable (length row) (length user_ratings)
          then Ok (bsub row user_ratings) else Raise ValueError);
  t ← vec_mat diff selected_inv_cov_matrix;
  q ← vec_vec t diff;
  Ok (np_sqrt q).

Definition mahalanobis_loop (selected_inv_cov_matrix : matrix)
    (user_ratings : list Q) (specified_dimensions : list (list cell))
  : result (list dist) :=
  mapR (mahalanobis_row selected_inv_cov_matrix user_ratings)
       specified_dimensions.

(** The loop that filters the ranked positions and stops at [top_n] kept
    ones.  The length test comes after the append, in every iteration (the
    second disjunct of the source's test, [index == ''], compares a position
    with a string and never holds). *)
Fixpoint filter_loop (pass : nat -> result bool) (top_n : Z)
    (top_indices filtered_indices : list nat) : result (list nat) :=
  match top_indices with
  | [] => Ok filtered_indices
  | index :: rest =>
      keep ← pass index;
      let filtered_indices :=
        if (keep : bool) then filtered_indices ++ [index] else filtered_indices in
      if (top_n <=? Z.of_nat (length filtered_indices))%Z
      then Ok filtered_indices
      else filter_loop pass top_n rest filtered_indices
  end.

(** Whether the test of a candidate returned without exception and holds. *)
Definition passed (pass : nat -> result bool) (index : nat) : bool :=
  match pass index with Ok true => true | _ => false end.

(** [l[:n]] for a Python int [n]. *)
Definition py_prefix {A} (n : Z) (l : list A) : list A :=
  if (n <? 0)%Z then take (length l - Z.to_nat (- n)) l
  else take (Z.to_nat n) l.

(** *** eucdisMax.py (and "Somunicate Dimension-Based Audio Search.py") *)
Module EucdisMax.

Definition distances (user_ratings : list Q) (dimensions : list string)
    (data : DataFrame) : result (list dist) :=
  filtered_data ← select_values data dimensions;
  diffs ← sub_rows (length dimensions) filtered_data user_ratings;
  Ok (norm_axis1 diffs).

(** [find_closest_sound]: the position [closest_index]. *)
Definition closest_index (user_ratings : list Q) (dimensions : list string)
    (data : DataFrame) : result nat :=
  ds ← distances user_ratings dimensions data;
  np_argmin ds.

Definition find_closest_sound (user_ratings : list Q)
    (dimensions : list string) (data : DataFrame)
  : result (gmap string cell) :=
  i ← closest_index user_ratings dimensions data;
  iloc data i.

End EucdisMax.

(** *** SomunicateDBASv2.0.py / v3.0: Mahalanobis with [rating_columns.get_loc] *)
Module V2.

(** [rating_columns.get_loc(dim)] *)
Definition get_loc (rating_columns : list string) (dim : string) : result nat :=
  from_option KeyError (fst <$> list_find (fun y => y = dim) rating_columns).

Definition selected_indices (rating_columns dimensions : list string)
  : result (list nat) :=
  mapR (get_loc rating_columns) dimensions.

Definition selected_inv_cov_matrix (rating_columns dimensions : list string)
    (inv_cov_matrix : matrix) : result matrix :=
  idx ← selected_indices rating_columns dimensions;
  ix_ inv_cov_matrix idx idx.

Definition mahalanobis_distances (rating_columns : list string)
    (user_ratings : list Q) (dimensions : list string) (data : DataFrame)
    (inv_cov_matrix : matrix) : result (list dist) :=
  specified_dimensions ← select_values data dimensions;
  sel ← selected_inv_cov_matrix rating_columns dimensions inv_cov_matrix;
  mahalanobis_loop sel user_ratings specified_dimensions.

Definition find_closest_sound_mahalanobis (rating_columns : list string)
    (user_ratings : list Q) (dimensions : list string) (data : DataFrame)
    (inv_cov_matrix : matrix) : result (gmap string cell) :=
  ds ← mahalanobis_distances rating_columns user_ratings dimensions data
         inv_cov_matrix;
  closest_index ← np_argmin ds;
  iloc data closest_index.

End V2.

(** *** SomunicateDBASv5.0.py *)
Module V5.

Definition NUM_DEMOGRAPHIC_GROUPS : nat := 12.

(** [any(data.iloc[index][str(group_id)] > 50 for group_id in user_group_ids)]:
    the generator stops at the first group that qualifies. *)
Fixpoint any_liking_above_50 (data : DataFrame) (user_group_ids : list Z)
    (index : nat) : result bool :=
  match user_group_ids with
  | [] => Ok false
  | group_id :: rest =>
      r ← iloc data index;
      x ← row_get r (str group_id);
      if cell_gt x 50 then Ok true
      else any_liking_above_50 data rest index
  end.

(** The part of both search functions after [np.argsort]. *)
Definition filter_top_n (data : DataFrame) (user_group_ids : list Z)
    (top_n : Z) (top_indices : list nat) : result (list nat) :=
  if (length user_group_ids <? NUM_DEMOGRAPHIC_GROUPS)%nat
  then filter_loop (any_liking_above_50 data user_group_ids) top_n
                   top_indices []
  else Ok (py_prefix top_n top_indices).

Definition euclidean_distances (user_ratings : list Q)
    (dimensions : list string) (data : DataFrame) : result (list dist) :=
  specified_dimensions ← select_values data dimensions;
  diffs ← sub_rows (length dimensions) specified_dimensions user_ratings;
  Ok (norm_axis1 diffs).

(** [find_closest_sounds_euclidean]: the final value of [top_indices]. *)
Definition euclidean_top_indices (argsort : list dist -> list nat)
    (user_ratings : list Q) (dimensions : list string) (data : DataFrame)
    (user_group_ids : list Z) (top_n : Z) : result (list nat) :=
  distances ← euclidean_distances user_ratings dimensions data;
  filter_top_n data user_group_ids top_n (argsort distances).

Definition find_closest_sounds_euclidean (argsort : list dist -> list nat)
    (user_ratings : list Q) (dimensions : list string) (data : DataFrame)
    (user_group_ids : list Z) (top_n : Z)
  : result (list (gmap string cell)) :=
  top_indices ← euclidean_top_indices argsort user_ratings dimensions data
                  user_group_ids top_n;
  iloc_list data top_indices.

(** [[dimensions.index(dim) for dim in dimensions]] *)
Definition selected_indices (dimensions : list string) : result (list nat) :=
  mapR (fun dim => list_index dim dimensions) dimensions.

Definition selected_inv_cov_matrix (dimensions : list string)
    (inv_cov_matrix : matrix) : result matrix :=
  idx ← selected_indices dimensions;
  ix_ inv_cov_matrix idx idx.

Definition mahalanobis_distances (user_ratings : list Q)
    (dimensions : list string) (data : DataFrame) (inv_cov_matrix : matrix)
  : result (list dist) :=
  specified_dimensions ← select_values data dimensions;
  sel ← selected_inv_cov_matrix dimensions inv_cov_matrix;
  mahalanobis_loop sel user_ratings specified_dimensions.

Definition mahalanobis_top_indices (argsort : list dist -> list nat)
    (user_ratings : list Q) (dimensions : list string) (data : DataFrame)
    (inv_cov_matrix : matrix) (user_group_ids : list Z) (top_n : Z)
  : result (list nat) :=
  distances ← mahalanobis_distances user_ratings dimensions data
                inv_cov_matrix;
  filter_top_n data user_group_ids top_n (argsort distances).

Definition find_closest_sounds_mahalanobis (argsort : list dist -> list nat)
    (user_ratings : list Q) (dimensions : list string) (data : DataFrame)
    (inv_cov_matrix : matrix) (user_group_ids : list Z) (top_n : Z)
  : result (list (gmap string cell)) :=
  top_indices ← mahalanobis_top_indices argsort user_ratings dimensions data
                  inv_cov_matrix user_group_ids top_n;
  iloc_list data top_indices.

End V5.

(** *** SomunicateDBASv10.0.py *)
Module V10.

(** [st.session_state]: the two thresholds set by the sliders. *)
Record session_state : Set := {
  MIN_LIKING : Q;
  MIN_FAMILIARITY : Q
}.

(** [[final_combined_data.iloc[index][str(group_id + offset)]
      for group_id in user_group_ids]] *)
Definition group_scores (final_combined_data : DataFrame) (offset : Z)
    (user_group_ids : list Z) (index : nat) : result (list cell) :=
  mapR (fun group_id => r ← iloc final_combined_data index;
                        row_get r (str (group_id + offset)))
       user_group_ids.

(** The two conditions of the filter, for the row at [index]. *)
Definition passes (st : session_state) (final_combined_data : DataFrame)
    (user_group_ids : list Z) (index : nat) : result bool :=
  likings ← group_scores final_combined_data 0 user_group_ids index;
  let condition1 := cell_ge (np_mean likings) (MIN_LIKING st) in
  familiarities ← group_scores final_combined_data 12 user_group_ids index;
  let condition2 := cell_ge (np_mean familiarities) (MIN_FAMILIARITY st) in
  Ok (condition1 && condition2).

(** The part of both search functions after [np.argsort]. *)
Definition filter_top_n (st : session_state) (final_combined_data : DataFrame)
    (user_group_ids : list Z) (top_n : Z) (top_indices : list nat)
  : result (list nat) :=
  filter_loop (passes st final_combined_data user_group_ids) top_n
              top_indices [].

Definition euclidean_distances (user_ratings : list Q)
    (dimensions : list string) (final_combined_data : DataFrame)
  : result (list dist) :=
  specified_dimensions ← select_values final_combined_data dimensions;
  diffs ← sub_rows (length dimensions) specified_dimensions user_ratings;
  Ok (norm_axis1 diffs).

(** [find_closest_sounds_euclidean]: the final value of [top_indices]. *)
Definition euclidean_top_indices (argsort : list dist -> list nat)
    (st : session_state) (user_ratings : list Q) (dimensions : list string)
    (final_combined_data : DataFrame) (user_group_ids : list Z) (top_n : Z)
  : result (list nat) :=
  distances ← euclidean_distances user_ratings dimensions final_combined_data;
  filter_top_n st final_combined_data user_group_ids top_n (argsort distances).

Definition find_closest_sounds_euclidean (argsort : list dist -> list nat)
    (st : session_state) (user_ratings : list Q) (dimensions : list string)
    (final_combined_data : DataFrame) (user_group_ids : list Z) (top_n : Z)
  : result (list (gmap string cell)) :=
  top_indices ← euclidean_top_indices argsort st user_ratings dimensions
                  final_combined_data user_group_ids top_n;
  iloc_list final_combined_data top_indices.

(** [[dimensions.index(dim) for dim in dimensions]] *)
Definition selected_indices (dimensions : list string) : result (list nat) :=
  mapR (fun dim => list_index dim dimensions) dimensions.

Definition selected_inv_cov_matrix (dimensions : list string)
    (inv_cov_matrix : matrix) : result matrix :=
  idx ← selected_indices dimensions;
  ix_ inv_cov_matrix idx idx.

Definition mahalanobis_distances (user_ratings : list Q)
    (dimensions : list string) (final_combined_data : DataFrame)
    (inv_cov_matrix : matrix) : result (list dist) :=
  specified_dimensions ← select_values final_combined_data dimensions;
  sel ← selected_inv_cov_matrix dimensions inv_cov_matrix;
  mahalanobis_loop sel user_ratings specified_dimensions.

Definition mahalanobis_top_indices (argsort : list dist -> list nat)
    (st : session_state) (user_ratings : list Q) (dimensions : list string)
    (final_combined_data : DataFrame) (inv_cov_matrix : matrix)
    (user_group_ids : list Z) (top_n : Z) : result (list nat) :=
  distances ← mahalanobis_distances user_ratings dimensions
                final_combined_data inv_cov_matrix;
  filter_top_n st final_combined_data user_group_ids top_n (argsort distances).

Definition find_closest_sounds_mahalanobis (argsort : list dist -> list nat)
    (st : session_state) (user_ratings : list Q) (dimensions : list string)
    (final_combined_data : DataFrame) (inv_cov_matrix : matrix)
    (user_group_ids : list Z) (top_n : Z)
  : result (list (gmap string cell)) :=
  top_indices ← mahalanobis_top_indices argsort st user_ratings dimensions
                  final_combined_data inv_cov_matrix user_group_ids top_n;
  iloc_list final_combined_data top_indices.

(** The three tables read at start-up. *)
Record reference_files : Type := {
  median_rating_data : RawFrame;          (* 240620_median_rating_data.csv *)
  correlations : list (list raw_cell);    (* correlations.csv *)
  all_combined_data : DataFrame           (* all_combined_data.csv *)
}.

(** The fields of [SomunicateApp] that the search uses. *)
Record app_state : Type := {
  data : DataFrame;
  rating_columns : list string;
  inv_cov_matrix : matrix;
  final_combined_data : DataFrame
}.

(** The argument of [np.linalg.inv] in [load_and_prepare_data]:
    [std_diag_matrix @ corr_matrix @ std_diag_matrix]. *)
Definition covariance_matrix (pd_std : DataFrame -> list string -> list cell)
    (files : reference_files) : result matrix :=
  let '(data, rating_columns) := load_median_data (median_rating_data files) in
  let std_diag_matrix := std_matrix_setup pd_std data rating_columns in
  let corr_matrix := corr_matrix_setup (correlations files) in
  t ← mat_mul std_diag_matrix corr_matrix;
  mat_mul t std_diag_matrix.

(** [load_and_prepare_data]; [np_linalg_inv] is [np.linalg.inv], numpy's
    LAPACK routine, of which nothing is assumed: it returns a matrix or
    raises. *)
Definition load_and_prepare_data
    (np_linalg_inv : matrix -> result matrix)
    (pd_std : DataFrame -> list string -> list cell)
    (files : reference_files) : result app_state :=
  let '(data, rating_columns) := load_median_data (median_rating_data files) in
  cov ← covariance_matrix pd_std files;
  inv ← np_linalg_inv cov;
  Ok {| data := data; rating_columns := rating_columns;
        inv_cov_matrix := inv;
        final_combined_data := all_combined_data files |}.

(** What the widgets return in one script run. *)
Record user_input : Type := {
  user_group_ids : list Z;
  selected_dimensions : list string;
  user_ratings : list Q;
  top_n : Z;
  sliders : session_state
}.

(** [display_results]: both searches are run whenever there is a rating; the
    result is the pair of ranked positions (Euclidean, Mahalanobis). *)
Definition display_results (argsort : list dist -> list nat)
    (app : app_state) (inp : user_input)
  : result (option (list nat * list nat)) :=
  if (0 <? length (user_ratings inp))%nat then
    closest_sounds_euclidean ←
      euclidean_top_indices argsort (sliders inp) (user_ratings inp)
        (selected_dimensions inp) (final_combined_data app)
        (user_group_ids inp) (top_n inp);
    closest_sounds_mahalanobis ←
      mahalanobis_top_indices argsort (sliders inp) (user_ratings inp)
        (selected_dimensions inp) (final_combined_data app)
        (inv_cov_matrix app) (user_group_ids inp) (top_n inp);
    Ok (Some (closest_sounds_euclidean, closest_sounds_mahalanobis))
  else Ok None.

(** [run]: load, then (when dimensions are selected and rated) search. *)
Definition run (argsort : list dist -> list nat)
    (np_linalg_inv : matrix -> result matrix)
    (pd_std : DataFrame -> list string -> list cell)
    (files : reference_files) (inp : user_input)
  : result (option (list nat * list nat)) :=
  app ← load_and_prepare_data np_linalg_inv pd_std files;
  match selected_dimensions inp, user_ratings inp with
  | _ :: _, _ :: _ => display_results argsort app inp
  | _, _ => Ok None
  end.

(** [AudioScoreCalculator.calculate_scores] *)
Module AudioScoreCalculator.

(** [0 if pd.isna(x) else int(x)] *)
Definition nan_to_zero_int (x : cell) : Z :=
  match x with NaN => 0%Z | Num q => cell_int q end.

(** One iteration of the loop over [self.user_group_ids]; the state is
    [(total_liking, total_familiarity, count_liking, count_familiarity)]. *)
Definition step (row : gmap string cell) (acc : Z * Z * Z * Z) (id : Z)
  : Z * Z * Z * Z :=
  let '(total_liking, total_familiarity, count_liking, count_familiarity) :=
    acc in
  let current_liking := default (Num 0) (row !! str id) in
  let current_familiarity := default (Num 0) (row !! str (id + 12)) in
  let current_liking := nan_to_zero_int current_liking in
  let current_familiarity := nan_to_zero_int current_familiarity in
  ((total_liking + current_liking)%Z,
   (total_familiarity + current_familiarity)%Z,
   (count_liking + 1)%Z, (count_familiarity + 1)%Z).

Definition calculate_scores (user_group_ids : list Z)
    (row : gmap string cell) : Z * Z :=
  let '(total_liking, total_familiarity, count_liking, count_familiarity) :=
    foldl (step row) (0, 0, 0, 0)%Z user_group_ids in
  let average_liking :=
    if (0 <? count_liking)%Z then (total_liking / count_liking)%Z else 0%Z in
  let average_familiarity :=
    if (0 <? count_familiarity)%Z
    then (total_familiarity / count_familiarity)%Z else 0%Z in
  (average_liking, average_familiarity).

End AudioScoreCalculator.

End V10.

(** ** The specification's formulations *)

(** The nineteen dimensions, in the order of [dimension_display]. *)
Definition dimension_display : list string :=
  ["being_ready"; "having_news"; "being_empty"; "shutting_down";
   "negative_warnings"; "urgency_reminder"; "encouraging_confirmations";
   "starting_prompts"; "waiting_prompts"; "sophistication"; "positivity";
   "progressiveness"; "dominance"; "solidity"; "process_ongoing";
   "having_a_problem"; "having_finished_successfully"; "purity";
   "playfulness"].



(** The sub-matrix as the specification words it: rows and columns of the
    full matrix at the selected dimensions' positions in the full ordering. *)
Definition spec_sub_matrix (all_dimensions dimensions : list string)
    (inv_cov_matrix : matrix) : result matrix :=
  V2.selected_inv_cov_matrix all_dimensions dimensions inv_cov_matrix.

(** The displayed aggregate as the claim words it: the floor of the mean,
    over all selected groups, of the integer scores, a missing or NaN score
    counting as 0, the divisor being the number of selected groups. *)
Definition spec_score (row : gmap string cell) (label : string) : Z :=
  match row !! label with
  | Some (Num q) => cell_int q
  | _ => 0%Z
  end.

Definition spec_aggregate (offset : Z) (user_group_ids : list Z)
    (row : gmap string cell) : Z :=
  Qfloor (inject_Z (foldr Z.add 0%Z
            (map (fun id => spec_score row (str (id + offset)))
                 user_group_ids))
          / inject_Z (Z.of_nat (length user_group_ids))).

(** [j] comes before [i] in the list [l]. *)
Definition precedes (j i : nat) (l : list nat) : Prop :=
  exists l1 l2 l3, l = l1 ++ j :: l2 ++ i :: l3.

(** In the ranking [order] of the distances [ds], every entry with a defined
    distance comes before entry [i]. *)
Definition ranked_after_defined (ds : list dist) (order : list nat) (i : nat)
  : Prop :=
  forall j q, ds !! j = Some (DSqrt q) -> precedes j i order.

(** A label that starts like a Python int prints: a digit or a minus sign. *)
Definition numeric_head (s : string) : bool :=
  match s with
  | String a _ =>
      bool_decide (a ∈ ["0"; "1"; "2"; "3"; "4"; "5"; "6"; "7"; "8"; "9";
                        "-"]%char)
  | EmptyString => false
  end.

(** The frame [df] with the cell of row [i], column [d] set to [v]. *)
Definition set_cell (df : DataFrame) (i : nat) (d : string) (v : cell)
  : DataFrame :=
  {| columns := columns df;
     rows := alter (fun r => <[d := v]> r) i (rows df) |}.

(** ** Sample data *)

(** The scenario catalog: three sounds rated 0.5, -0.2 and 0.9 on "urgency",
    with liking (column "1") and familiarity (column "13") of group 1. *)
Definition catalog3 : DataFrame :=
  {| columns := ["urgency"; "1"; "13"];
     rows := [ {[ "urgency" := Num (5 # 10); "1" := Num 60; "13" := Num 70 ]};
               {[ "urgency" := Num (-2 # 10); "1" := Num 60; "13" := Num 70 ]};
               {[ "urgency" := Num (9 # 10); "1" := Num 60; "13" := Num 70 ]}
             ] |}.

(** The same catalog with the rating of the third sound undefined. *)
Definition catalog3_nan : DataFrame := set_cell catalog3 2 "urgency" NaN.

(** The distances of the two catalogs from the target [urgency = 0]. *)
Definition scenario_distances : list dist :=
  [DSqrt (25 # 100); DSqrt (4 # 100); DSqrt (81 # 100)].

Definition nan_distances : list dist :=
  [DSqrt (25 # 100); DSqrt (4 # 100); DNaN].


(** The sliders at their initial value 0. *)
Definition sliders0 : V10.session_state :=
  {| V10.MIN_LIKING := 0; V10.MIN_FAMILIARITY := 0 |}.

(** A 19 x 19 matrix whose entry at row [i], column [j] is [100 i + j]. *)
Definition sample_matrix : matrix :=
  map (fun i => map (fun j => Num (inject_Z (Z.of_nat (100 * i + j))))
                    (seq 0 19)) (seq 0 19).

(** Reference tables for two identical dimensions "a" and "b": three sounds
    rated -0.5, 0, 0.5 on both (sample standard deviation 0.5), correlation 1
    between them on the source's [0,1] scale. *)
Definition two_identical_dimensions : V10.reference_files :=
  let row (x : Q) : gmap string raw_cell :=
    {[ "a" := RNum x; "b" := RNum x ]} in
  {| V10.median_rating_data :=
       {| raw_columns := ["sound"; "c1"; "c2"; "c3"; "a"; "b"];
          raw_rows := [row (-1 # 2); row 0; row (1 # 2)] |};
     V10.correlations :=
       [ [RText "a"; RNum 1; RNum 1]; [RText "b"; RNum 1; RNum 1] ];
     V10.all_combined_data :=
       {| columns := ["a"; "b"; "1"; "13"];
          rows := [ {[ "a" := Num (-1 # 2); "b" := Num (-1 # 2);
                       "1" := Num 60; "13" := Num 70 ]};
                    {[ "a" := Num 0; "b" := Num 0;
                       "1" := Num 60; "13" := Num 70 ]};
                    {[ "a" := Num (1 # 2); "b" := Num (1 # 2);
                       "1" := Num 60; "13" := Num 70 ]} ] |} |}.

(** [DataFrame.std] on that table: 0.5 for each rating column. *)
Definition std_half (_ : DataFrame) (rate_cols : list string) : list cell :=
  map (fun _ => Num (1 # 2)) rate_cols.

Definition sample_input : V10.user_input :=
  {| V10.user_group_ids := [1%Z];
     V10.selected_dimensions := ["a"; "b"];
     V10.user_ratings := [0; 0];
     V10.top_n := 3%Z;
     V10.sliders := sliders0 |}.

(** ** The widgets and the remaining helpers *)

(** Equality of distances as numbers. *)
Definition dist_eq (a b : dist) : Prop :=
  match a, b with
  | DNaN, DNaN => True
  | DSqrt x, DSqrt y => x == y
  | _, _ => False
  end.

(** The [n] x [n] identity matrix, [np.eye(n)]. *)
Definition identity_matrix (n : nat) : matrix := np_diag (replicate n (Num 1)).

(** [s.split(' ')[0]]: what precedes the first blank. *)
Fixpoint split_space_head (s : string) : string :=
  match s with
  | EmptyString => EmptyString
  | String a s' =>
      if Ascii.eqb a " "%char then EmptyString
      else String a (split_space_head s')
  end.

(** Whether a string has a blank in it. *)
Fixpoint has_space (s : string) : bool :=
  match s with
  | EmptyString => false
  | String a s' => Ascii.eqb a " "%char || has_space s'
  end.

(** [get_bilingual_dimension] of eucdisMax.py, v2.0, v3.0 and v5.0:
    [f"{dimension} ({dimension_translations[dimension]})"]. *)
Definition get_bilingual_dimension (dimension_translations : gmap string string)
    (dimension : string) : result string :=
  t ← from_option KeyError (dimension_translations !! dimension);
  Ok (dimension +:+ " (" +:+ t +:+ ")").

(** The keys handed to the search in eucdisMax.py:
    [[dim.split(' ')[0] for dim in selected_dimensions]]. *)
Definition original_dimensions (selected_dimensions : list string)
  : list string :=
  map split_space_head selected_dimensions.

(** *** SomunicateDBASv10.0.py: the widgets *)
Module V10App.

(** A row of groupid.csv: the group id and its attribute columns. *)
Record group_row : Type := {
  group_id : Z;
  attributes : gmap string string
}.

Record GroupTable : Type := {
  group_columns : list string;
  group_rows : list group_row
}.

(** [params] of [get_user_group_ids], in the order of the dict. *)
Definition params : list (string * list string) :=
  [ ("Gender", ["Female"; "Male"]);
    ("Migration Background",
       ["Migration Background"; "No Migration Background"]);
    ("Age", ["Age Group 1"; "Age Group 2"; "Age Group 3"]) ].

(** The options of a parameter whose checkbox is ticked. *)
Definition selected_options (ticked : string -> string -> bool)
    (param : string * list string) : list string :=
  List.filter (ticked param.1) param.2.

(** [row[param] in selected_options] *)
Definition isin (r : group_row) (param : string) (selected : list string)
  : bool :=
  match attributes r !! param with
  | Some v => bool_decide (v ∈ selected)
  | None => false
  end.

(** [filtered_data[filtered_data[param].isin(selected_options)]] *)
Definition isin_filter (param : string) (selected : list string)
    (t : GroupTable) : result GroupTable :=
  if bool_decide (param ∈ group_columns t)
  then Ok {| group_columns := group_columns t;
             group_rows := List.filter (fun r => isin r param selected)
                             (group_rows t) |}
  else Raise KeyError.

(** One round of the loop over the parameters. *)
Definition filter_step (ticked : string -> string -> bool)
    (acc : result GroupTable) (param : string * list string)
  : result GroupTable :=
  filtered_data ← acc;
  match selected_options ticked param with
  | [] => Ok filtered_data
  | selected => isin_filter param.1 selected filtered_data
  end.

(** [get_user_group_ids]: the ids of the groups left after the filters,
    [filtered_data['Group ID'].tolist()]. *)
Definition get_user_group_ids (ticked : string -> string -> bool)
    (groupID_data : GroupTable) : result (list Z) :=
  filtered_data ← foldl (filter_step ticked) (Ok groupID_data) params;
  if bool_decide ("Group ID" ∈ group_columns filtered_data)
  then Ok (map group_id (group_rows filtered_data))
  else Raise KeyError.

(** What the loop keeps of a row: for each parameter with a ticked option,
    the row's value is one of the ticked options. *)
Definition row_matches (ticked : string -> string -> bool)
    (ps : list (string * list string)) (r : group_row) : bool :=
  forallb (fun param =>
             match selected_options ticked param with
             | [] => true
             | selected => isin r param.1 selected
             end) ps.

(** [self.dimension_display], with the labels. *)
Definition dimension_labels : list (string * string) :=
  [ ("being_ready", "Being Ready"); ("having_news", "Having News");
    ("being_empty", "Being Empty"); ("shutting_down", "Shutting Down");
    ("negative_warnings", "Negative Warnings");
    ("urgency_reminder", "Urgency Reminder");
    ("encouraging_confirmations", "Encouraging Confirmations");
    ("starting_prompts", "Starting Prompts");
    ("waiting_prompts", "Waiting Prompts");
    ("sophistication", "Sophistication"); ("positivity", "Positivity");
    ("progressiveness", "Progressiveness"); ("dominance", "Dominance");
    ("solidity", "Solidity"); ("process_ongoing", "Process Ongoing");
    ("having_a_problem", "Having A Problem");
    ("having_finished_successfully", "Having Finished Successfully");
    ("purity", "Purity"); ("playfulness", "Playfulness") ].

(** [communication_levels] of [get_target_dimensions_ratings]. *)
Definition communication_levels : list (string * string) :=
  [ ("having_finished_successfully", "Status");
    ("having_a_problem", "Status"); ("process_ongoing", "Status");
    ("being_ready", "Status"); ("having_news", "Status");
    ("being_empty", "Status"); ("shutting_down", "Status");
    ("negative_warnings", "Appeal"); ("urgency_reminder", "Appeal");
    ("encouraging_confirmations", "Appeal"); ("starting_prompts", "Appeal");
    ("waiting_prompts", "Appeal");
    ("sophistication", "Brand Identity"); ("positivity", "Brand Identity");
    ("progressiveness", "Brand Identity"); ("dominance", "Brand Identity");
    ("solidity", "Brand Identity"); ("purity", "Brand Identity");
    ("playfulness", "Brand Identity") ].

(** [self.dimension_display[dimension]] *)
Definition display_of (dimension : string) : result string :=
  from_option KeyError
    ((list_to_map dimension_labels : gmap string string) !! dimension).

(** The first loop: every dimension with its label, sorted into the three
    lists by level. *)
Definition level_lists
  : result (list (string * string) * list (string * string)
            * list (string * string)) :=
  labelled ← mapR (fun p => display_dimension ← display_of p.1;
                            Ok (p.1, display_dimension, p.2))
                  communication_levels;
  let of_level (level : string) :=
    map fst (List.filter (fun q => bool_decide (q.2 = level)) labelled) in
  Ok (of_level "Status", of_level "Appeal", of_level "Brand Identity").

(** [get_target_dimensions_ratings]: [checkbox] and [slider] are the widgets,
    addressed by their label; the result is
    [(user_ratings, selected_dimensions)]. *)
Definition get_target_dimensions_ratings (checkbox : string -> bool)
    (slider : string -> Q) : result (list Q * list string) :=
  lists ← level_lists;
  let '(status_dimensions, appeal_dimensions, brand_identity_dimensions) :=
    lists in
  let ticked_of (l : list (string * string)) :=
    map fst (List.filter (fun p => checkbox p.2) l) in
  let selected_dimensions :=
    ticked_of status_dimensions ++ ticked_of appeal_dimensions
    ++ ticked_of brand_identity_dimensions in
  user_ratings ← mapR (fun dimension =>
                         display_dimension ← display_of dimension;
                         Ok (slider ("Please Weight " +:+ display_dimension)))
                      selected_dimensions;
  Ok (user_ratings, selected_dimensions).

End V10App.

(** The three lists of the first loop, in the order the checkboxes follow. *)
Definition checkbox_order : list (string * string) :=
  Eval vm_compute in
    match V10App.level_lists with
    | Ok (s, a, b) => s ++ a ++ b
    | Raise _ => []
    end.

(** Whether some selected group of the sound at [index] has a liking above
    50 (a missing cell counting as none). *)
Definition liking_above_50 (data : DataFrame) (user_group_ids : list Z)
    (index : nat) : bool :=
  existsb (fun group_id =>
             match rows data !! index ≫= (fun r => r !! str group_id) with
             | Some x => cell_gt x 50
             | None => false
             end) user_group_ids.

(** *** Sample data for the widgets *)

(** groupid.csv with its twelve groups: two genders, two migration
    backgrounds, three age groups. *)
Definition sample_groups : V10App.GroupTable :=
  let row (id : Z) (g m a : string) : V10App.group_row :=
    {| V10App.group_id := id;
       V10App.attributes :=
         {[ "Gender" := g; "Migration Background" := m; "Age" := a ]} |} in
  {| V10App.group_columns :=
       ["Group ID"; "Gender"; "Migration Background"; "Age"];
     V10App.group_rows :=
       [ row 1%Z "Female" "Migration Background" "Age Group 1";
         row 2%Z "Female" "Migration Background" "Age Group 2";
         row 3%Z "Female" "Migration Background" "Age Group 3";
         row 4%Z "Female" "No Migration Background" "Age Group 1";
         row 5%Z "Female" "No Migration Background" "Age Group 2";
         row 6%Z "Female" "No Migration Background" "Age Group 3";
         row 7%Z "Male" "Migration Background" "Age Group 1";
         row 8%Z "Male" "Migration Background" "Age Group 2";
         row 9%Z "Male" "Migration Background" "Age Group 3";
         row 10%Z "Male" "No Migration Background" "Age Group 1";
         row 11%Z "Male" "No Migration Background" "Age Group 2";
         row 12%Z "Male" "No Migration Background" "Age Group 3" ] |}.

(** The boxes "Female" and "Age Group 2" ticked. *)
Definition sample_ticks (param option : string) : bool :=
  bool_decide ((param, option) ∈ [("Gender", "Female"); ("Age", "Age Group 2")]).

(** The boxes "Purity" and "Being Ready" ticked. *)
Definition sample_checkbox (label : string) : bool :=
  bool_decide (label ∈ ["Purity"; "Being Ready"]).

(** A table with the nineteen dimension columns and two sounds, and a
    19 x 19 inverse covariance matrix. *)
Definition full_catalog : DataFrame :=
  {| columns := dimension_display;
     rows := [ list_to_map (map (fun d => (d, Num 0)) dimension_display);
               list_to_map (map (fun d => (d, Num (1 # 2))) dimension_display) ] |}.

Definition full_inv_cov_matrix : matrix := identity_matrix 19.

(** Reference tables for two uncorrelated dimensions "a" and "b":
    correlation 0.5 on the source's [0,1] scale, which is 0 after
    rescaling. *)
Definition two_independent_dimensions : V10.reference_files :=
  {| V10.median_rating_data :=
       V10.median_rating_data two_identical_dimensions;
     V10.correlations :=
       [ [RText "a"; RNum 1; RNum (1 # 2)]; [RText "b"; RNum (1 # 2); RNum 1] ];
     V10.all_combined_data :=
       V10.all_combined_data two_identical_dimensions |}.

(** * Properties *)

(** ** Results and [mapR] *)

Lemma bind_Ok {A B} (m : result A) (f : A -> result B) (b : B) :
  m ≫= f = Ok b <-> exists a, m = Ok a /\ f a = Ok b.
Proof.
  destruct m as [a|e]; simpl.
  - split; [eauto | intros (a' & [= <-] & H); exact H].
  - split; [discriminate | intros (? & [=] & _)].
Qed.

Lemma mapR_Ok_lookup {A B} (f : A -> result B) (l : list A) (ys : list B) :
  mapR f l = Ok ys ->
  length ys = length l
  /\ forall i x, l !! i = Some x -> exists y, ys !! i = Some y /\ f x = Ok y.
Proof.
  revert ys. induction l as [|x l IH]; intros ys H; simpl in H.
  - injection H as <-. split; [done | intros i x' [=]].
  - apply bind_Ok in H as (y & Hy & H). apply bind_Ok in H as (ys' & Hys & H).
    injection H as <-. destruct (IH _ Hys) as [Hlen Hlk]. split.
    + simpl. by rewrite Hlen.
    + intros [|i] x' Hi; simpl in *; [injection Hi as <-; eauto | eauto].
Qed.

Lemma mapR_ext_in {A B} (f g : A -> result B) (l : list A) :
  (forall x, x ∈ l -> f x = g x) -> mapR f l = mapR g l.
Proof.
  induction l as [|x l IH]; intros H; simpl; [done|].
  rewrite (H x) by left. rewrite IH; [done|].
  intros y Hy. apply H. by right.
Qed.

Lemma mapR_imap {A B} (f : A -> result B) (g : nat -> A -> B) (l : list A) :
  (forall i x, l !! i = Some x -> f x = Ok (g i x)) ->
  mapR f l = Ok (imap g l).
Proof.
  revert g. induction l as [|x l IH]; intros g H; simpl; [done|].
  rewrite (H 0%nat x) by done. simpl.
  rewrite (IH (g ∘ S)); [done|].
  intros i y Hi. apply (H (S i)). exact Hi.
Qed.

Lemma mapR_map_total {A B} (f : A -> result B) (g : A -> B) (l : list A) :
  (forall x, x ∈ l -> f x = Ok (g x)) -> mapR f l = Ok (map g l).
Proof.
  induction l as [|x l IH]; intros H; simpl; [done|].
  rewrite (H x) by left. simpl. rewrite IH; [done|].
  intros y Hy. apply H. by right.
Qed.

(** ** The selection of the sub-matrix (C1) *)

Lemma list_index_NoDup (l : list string) (i : nat) (x : string) :
  NoDup l -> l !! i = Some x -> list_index x l = Ok i.
Proof.
  intros Hnd Hi. unfold list_index.
  assert (list_find (fun y => y = x) l = Some (i, x)) as ->; [|done].
  apply list_find_Some. split; [done|]. split; [done|].
  intros j y Hj Hlt ->.
  assert (i = j) by (eapply NoDup_lookup; eauto). lia.
Qed.

Lemma imap_fst_seq {A} (l : list A) (n : nat) :
  imap (fun i _ => (n + i)%nat) l = seq n (length l).
Proof.
  revert n. induction l as [|x l IH]; intros n; simpl; [done|].
  f_equal; [lia|].
  rewrite <- (IH (S n)). apply imap_ext. intros i y _. simpl. lia.
Qed.

(** In v5.0 ... v10.0 the positions handed to [np.ix_] are those of the selected
    dimensions within the selection itself: always [0, 1, ..., k-1]. *)
Lemma v10_selected_indices_NoDup (dimensions : list string) :
  NoDup dimensions ->
  V10.selected_indices dimensions = Ok (seq 0 (length dimensions)).
Proof.
  intros Hnd. unfold V10.selected_indices.
  rewrite <- (imap_fst_seq dimensions 0).
  apply mapR_imap. intros i x Hi. simpl. by apply list_index_NoDup.
Qed.

(** In v2.0 and v3.0 they are the positions in the full ordering. *)
Lemma v2_selected_indices_lookup (rating_columns dimensions : list string)
    (idx : list nat) :
  V2.selected_indices rating_columns dimensions = Ok idx ->
  Forall2 (fun i d => rating_columns !! i = Some d) idx dimensions.
Proof.
  unfold V2.selected_indices. revert idx.
  induction dimensions as [|d ds IH]; intros idx H; simpl in H.
  - injection H as <-. constructor.
  - apply bind_Ok in H as (i & Hi & H). apply bind_Ok in H as (idx' & His & H).
    injection H as <-. constructor; [|by apply IH].
    unfold V2.get_loc in Hi.
    destruct (list_find (fun y => y = d) rating_columns) as [[j y]|] eqn:E;
      simpl in Hi; [|discriminate].
    injection Hi as <-. apply list_find_Some in E as (E & -> & _). exact E.
Qed.

(** C1, at the selection [d2, d0]: v10.0 (and v5.0) index the cached inverse
    at rows/columns [0, 1], the top-left block, where the specification and
    v2.0's [get_loc] index it at [2, 0]. *)
Theorem c1_v10_indexes_within_the_selection :
  V10.selected_indices ["being_empty"; "being_ready"] = Ok [0; 1]%nat
  /\ V5.selected_indices ["being_empty"; "being_ready"] = Ok [0; 1]%nat
  /\ V2.selected_indices dimension_display ["being_empty"; "being_ready"]
     = Ok [2; 0]%nat
  /\ V10.selected_inv_cov_matrix ["being_empty"; "being_ready"] sample_matrix
     = Ok [[Num 0; Num 1]; [Num 100; Num 101]]
  /\ V10.selected_inv_cov_matrix ["being_ready"; "being_empty"] sample_matrix
     = Ok [[Num 0; Num 1]; [Num 100; Num 101]]
  /\ spec_sub_matrix dimension_display ["being_empty"; "being_ready"]
       sample_matrix
     = Ok [[Num 202; Num 200]; [Num 2; Num 0]]
  /\ spec_sub_matrix dimension_display ["being_ready"; "being_empty"]
       sample_matrix
     = Ok [[Num 0; Num 2]; [Num 200; Num 202]].
Proof. repeat split; vm_compute; reflexivity. Qed.

(** ** The filter loop (C2, C5) *)

Lemma filter_loop_rejecting (pass : nat -> result bool) (top_n : Z)
    (ranked acc : list nat) :
  (forall i, pass i = Ok false) ->
  filter_loop pass top_n ranked acc = Ok acc.
Proof.
  intros Hpass. induction ranked as [|i ranked IH]; simpl; [done|].
  rewrite Hpass. simpl. by destruct (top_n <=? Z.of_nat (length acc))%Z.
Qed.

Lemma filter_loop_Ok (pass : nat -> result bool) (top_n : Z)
    (ranked acc out : list nat) :
  filter_loop pass top_n ranked acc = Ok out ->
  exists kept,
    out = acc ++ kept
    /\ kept `sublist_of` ranked
    /\ ((Z.of_nat (length acc) < top_n)%Z ->
        (Z.of_nat (length out) <= top_n)%Z).
Proof.
  revert acc. induction ranked as [|i ranked IH]; intros acc H; simpl in H.
  - injection H as <-. exists []. rewrite app_nil_r.
    split; [done|]. split; [done | lia].
  - apply bind_Ok in H as (keep & Hkeep & H).
    set (acc' := if keep : bool then acc ++ [i] else acc) in *.
    assert (Hacc' : exists k, acc' = acc ++ k /\ k `sublist_of` [i]
                              /\ (length k <= 1)%nat).
    { destruct keep; subst acc'.
      - exists [i]. done.
      - exists []. rewrite app_nil_r. split; [done|]. split; [|simpl; lia].
        apply sublist_nil_l. }
    destruct Hacc' as (k & Hk & Hsub & Hlen).
    destruct (top_n <=? Z.of_nat (length acc'))%Z eqn:E.
    + injection H as <-. exists k. split; [done|]. split.
      * change (i :: ranked) with ([i] ++ ranked).
        by apply sublist_inserts_r.
      * rewrite Hk, length_app. lia.
    + apply IH in H as (kept & -> & Hsub' & Hlen').
      exists (k ++ kept). split; [by rewrite Hk, app_assoc|]. split.
      * change (i :: ranked) with ([i] ++ ranked). by apply sublist_app.
      * intros _. apply Hlen'. apply Z.leb_gt in E. exact E.
Qed.

Lemma v10_passes_no_group (st : V10.session_state) (df : DataFrame) (i : nat) :
  V10.passes st df [] i = Ok false.
Proof. reflexivity. Qed.

(** With every demographic group selected, v5.0 skips the filter. *)
Lemma v5_filter_bypassed_for_all_groups (df : DataFrame)
    (user_group_ids : list Z) (top_n : Z) (ranked : list nat) :
  (V5.NUM_DEMOGRAPHIC_GROUPS <= length user_group_ids)%nat ->
  V5.filter_top_n df user_group_ids top_n ranked = Ok (py_prefix top_n ranked).
Proof.
  intros H. unfold V5.filter_top_n.
  destruct (Nat.ltb_spec (length user_group_ids) V5.NUM_DEMOGRAPHIC_GROUPS);
    [lia | done].
Qed.

Lemma py_prefix_sublist {A} (n : Z) (l : list A) :
  py_prefix n l `sublist_of` l.
Proof. unfold py_prefix. destruct (n <? 0)%Z; apply sublist_take. Qed.

Lemma py_prefix_length {A} (n : Z) (l : list A) :
  (0 <= n)%Z -> (Z.of_nat (length (py_prefix n l)) <= n)%Z.
Proof.
  intros H. unfold py_prefix. destruct (Z.ltb_spec n 0); [lia|].
  rewrite length_take. lia.
Qed.

(** C2, as amended: with no group selected the filter keeps no candidate at
    all, whatever the thresholds, the ranking and [top_n] -- in v10.0 the mean
    of no score is NaN and fails both comparisons, in v5.0 [any] of nothing is
    false. *)
Theorem c2_no_group_keeps_no_candidate (st : V10.session_state)
    (df : DataFrame) (top_n : Z) (ranked : list nat) :
  V10.filter_top_n st df [] top_n ranked = Ok []
  /\ V5.filter_top_n df [] top_n ranked = Ok [].
Proof.
  split.
  - apply filter_loop_rejecting. intros i. apply v10_passes_no_group.
  - unfold V5.filter_top_n. simpl. by apply filter_loop_rejecting.
Qed.

(** The claim itself fails: the ranking [1, 0, 2] does not come back. *)
Lemma c2_counterexample :
  V10.filter_top_n sliders0 catalog3 [] 3 [1; 0; 2]%nat = Ok []
  /\ V5.filter_top_n catalog3 [] 3 [1; 0; 2]%nat = Ok []
  /\ @Ok (list nat) [] <> Ok [1; 0; 2]%nat.
Proof. repeat split; try reflexivity. discriminate. Qed.

(** C5: for every [top_n] the slider can give ([top_n >= 1]) the kept
    positions are a subsequence of the ranking, in its order, and at most
    [top_n] many. *)
Theorem c5_top_n_is_a_bounded_subsequence (st : V10.session_state)
    (df : DataFrame) (user_group_ids : list Z) (top_n : Z)
    (ranked out : list nat) :
  (1 <= top_n)%Z ->
  V10.filter_top_n st df user_group_ids top_n ranked = Ok out
  \/ V5.filter_top_n df user_group_ids top_n ranked = Ok out ->
  (Z.of_nat (length out) <= top_n)%Z /\ out `sublist_of` ranked.
Proof.
  intros Hn [H|H].
  - apply filter_loop_Ok in H as (kept & -> & Hsub & Hlen).
    split; [apply Hlen; simpl; lia | exact Hsub].
  - unfold V5.filter_top_n in H.
    destruct (length user_group_ids <? V5.NUM_DEMOGRAPHIC_GROUPS)%nat.
    + apply filter_loop_Ok in H as (kept & -> & Hsub & Hlen).
      split; [apply Hlen; simpl; lia | exact Hsub].
    + injection H as <-. split; [apply py_prefix_length; lia|].
      apply py_prefix_sublist.
Qed.

(** The scenario's ranking cut at two. *)
Lemma c5_witness :
  (1 <= 2)%Z
  /\ V10.filter_top_n sliders0 catalog3 [1%Z] 2 [1; 0; 2]%nat = Ok [1; 0]%nat
  /\ (Z.of_nat (length [1; 0]%nat) <= 2)%Z
  /\ [1; 0]%nat `sublist_of` [1; 0; 2]%nat.
Proof.
  assert (H1 : (1 <= 2)%Z) by lia.
  assert (H2 : V10.filter_top_n sliders0 catalog3 [1%Z] 2 [1; 0; 2]%nat
               = Ok [1; 0]%nat) by (vm_compute; reflexivity).
  split; [exact H1|]. split; [exact H2|].
  exact (c5_top_n_is_a_bounded_subsequence sliders0 catalog3 [1%Z] 2
           [1; 0; 2]%nat [1; 0]%nat H1 (or_introl H2)).
Defined.

(** ** The rescaling of the correlations (C8) *)

Lemma corr_matrix_setup_lookup (raw : list (list raw_cell)) (i j : nat) :
  (corr_matrix_setup raw !! i) ≫= (fun row => row !! j)
  = (fun c => corr_rescale (to_numeric c))
      <$> ((raw !! i) ≫= (fun row => row !! S j)).
Proof.
  unfold corr_matrix_setup, load_correlation_data.
  rewrite !list_lookup_fmap.
  destruct (raw !! i) as [row|]; simpl; [|done].
  rewrite !list_lookup_fmap, lookup_drop, list_lookup_fmap. simpl.
  by destruct (row !! S j).
Qed.

(** C8: each source coefficient [c] becomes [2c - 1], and it is the rescaled
    matrix that enters the covariance; 0.75 becomes exactly 0.5, in exact
    arithmetic and in binary64. *)
Theorem c8_correlations_rescaled_before_use :
  (forall c : Q, exists r, corr_rescale (Num c) = Num r /\ r == 2 * c - 1)
  /\ (forall (raw : list (list raw_cell)) (i j : nat),
        (corr_matrix_setup raw !! i) ≫= (fun row => row !! j)
        = (fun c => corr_rescale (to_numeric c))
            <$> ((raw !! i) ≫= (fun row => row !! S j)))
  /\ (forall pd_std files,
        V10.covariance_matrix pd_std files
        = let D := std_matrix_setup pd_std
                     (load_median_data (V10.median_rating_data files)).1
                     (load_median_data (V10.median_rating_data files)).2 in
          mat_mul D (corr_matrix_setup (V10.correlations files))
            ≫= fun t => mat_mul t D)
  /\ (exists r, corr_rescale (Num (75 # 100)) = Num r
                /\ r == 1 # 2 /\ Qabs (r - (1 # 2)) <= 1 # 1000000000)
  /\ Binary64.corr_rescale_float Binary64.three_quarters = Binary64.one_half
  /\ Binary64.within_tolerance
       (Binary64.corr_rescale_float Binary64.three_quarters)
       Binary64.one_half = true.
Proof.
  split; [|split; [|split; [|split; [|split]]]].
  - intros c. exists (c * 2 - 1). split; [reflexivity | ring].
  - apply corr_matrix_setup_lookup.
  - intros pd_std files. reflexivity.
  - eexists. split; [reflexivity|]. split; [reflexivity|].
    vm_compute. discriminate.
  - reflexivity.
  - reflexivity.
Qed.

(** ** The displayed scores (C10) *)

Lemma Qfloor_div_Z (a n : Z) :
  (0 < n)%Z -> Qfloor (inject_Z a / inject_Z n) = (a / n)%Z.
Proof.
  intros Hn. destruct n as [|p|p]; try lia.
  transitivity (Qfloor (a # p)).
  - apply Qfloor_comp. unfold Qdiv, Qinv, Qmult, Qeq, inject_Z. simpl. lia.
  - reflexivity.
Qed.

Lemma nan_to_zero_int_spec_score (row : gmap string cell) (label : string) :
  V10.AudioScoreCalculator.nan_to_zero_int (default (Num 0) (row !! label))
  = spec_score row label.
Proof.
  unfold spec_score. destruct (row !! label) as [[|q]|]; reflexivity.
Qed.

Lemma calculate_scores_loop (row : gmap string cell) (ids : list Z)
    (tl tf cl cf : Z) :
  foldl (V10.AudioScoreCalculator.step row) (tl, tf, cl, cf) ids
  = ((tl + foldr Z.add 0 (map (fun id => spec_score row (str (id + 0))) ids))%Z,
     (tf + foldr Z.add 0 (map (fun id => spec_score row (str (id + 12))) ids))%Z,
     (cl + Z.of_nat (length ids))%Z, (cf + Z.of_nat (length ids))%Z).
Proof.
  revert tl tf cl cf. induction ids as [|id ids IH]; intros tl tf cl cf.
  - simpl. rewrite !Z.add_0_r. reflexivity.
  - cbn [foldl]. unfold V10.AudioScoreCalculator.step at 2.
    rewrite !nan_to_zero_int_spec_score, IH.
    cbn [map foldr length]. rewrite Nat2Z.inj_succ.
    rewrite (Z.add_0_r id).
    f_equal; [f_equal; [f_equal|] |]; lia.
Qed.

Lemma spec_score_insert_zero (row : gmap string cell) (label l : string) :
  row !! label = None \/ row !! label = Some NaN ->
  spec_score (<[label := Num 0]> row) l = spec_score row l.
Proof.
  intros H. unfold spec_score.
  destruct (decide (label = l)) as [->|Hne].
  - rewrite lookup_insert_eq. destruct H as [-> | ->]; reflexivity.
  - rewrite lookup_insert_ne by done. reflexivity.
Qed.

(** C10: for a non-empty list of selected groups, the displayed liking and
    familiarity are the floor of the mean of the integer group scores, a
    missing or NaN score counting as 0 and the divisor being the number of
    selected groups; so an undefined score weighs like a zero. *)
Theorem c10_calculate_scores_floor_mean
    (user_group_ids : list Z) (row : gmap string cell) :
  user_group_ids <> [] ->
  V10.AudioScoreCalculator.calculate_scores user_group_ids row
  = (spec_aggregate 0 user_group_ids row, spec_aggregate 12 user_group_ids row)
  /\ forall label, row !! label = None \/ row !! label = Some NaN ->
       V10.AudioScoreCalculator.calculate_scores user_group_ids
         (<[label := Num 0]> row)
       = V10.AudioScoreCalculator.calculate_scores user_group_ids row.
Proof.
  intros Hne.
  assert (Hlen : (0 < Z.of_nat (length user_group_ids))%Z).
  { destruct user_group_ids; [done | simpl; lia]. }
  assert (Hcalc : forall r,
    V10.AudioScoreCalculator.calculate_scores user_group_ids r
    = (spec_aggregate 0 user_group_ids r, spec_aggregate 12 user_group_ids r)).
  { intros r. unfold V10.AudioScoreCalculator.calculate_scores.
    rewrite calculate_scores_loop. cbn beta iota zeta.
    rewrite !Z.add_0_l.
    destruct (Z.ltb_spec 0 (Z.of_nat (length user_group_ids))); [|lia].
    unfold spec_aggregate. rewrite !Qfloor_div_Z by done. reflexivity. }
  split; [apply Hcalc|].
  intros label Hl. rewrite !Hcalc. unfold spec_aggregate.
  do 2 f_equal.
  - do 3 f_equal. apply map_ext. intros id. by apply spec_score_insert_zero.
  - do 3 f_equal. apply map_ext. intros id. by apply spec_score_insert_zero.
Qed.

(** Two groups, one liking score missing from the data: (60 + 0) // 2. *)
Lemma c10_witness :
  [1%Z; 2%Z] <> []
  /\ (V10.AudioScoreCalculator.calculate_scores [1%Z; 2%Z]
       {[ "1" := Num 60; "13" := Num (151 # 2); "2" := NaN ]} = (30%Z, 37%Z)).
Proof.
  split; [discriminate|].
  rewrite (proj1 (c10_calculate_scores_floor_mean [1%Z; 2%Z]
    {[ "1" := Num 60; "13" := Num (151 # 2); "2" := NaN ]} ltac:(discriminate))).
  vm_compute. reflexivity.
Defined.

(** ** Labels of the score columns *)

Lemma numeric_head_digit (y : N) (s : string) :
  numeric_head (String (pretty_N_char y) s) = true.
Proof. unfold pretty_N_char. by repeat case_match. Qed.

Lemma numeric_head_pretty_N_go (x : N) (s : string) :
  (0 < x)%N -> numeric_head (pretty_N_go x s) = true.
Proof.
  revert s. induction (N.lt_wf_0 x) as [x _ IH]; intros s Hx.
  rewrite pretty_N_go_step by done.
  destruct (decide (x `div` 10 = 0)%N) as [E|E].
  - rewrite E, pretty_N_go_0. apply numeric_head_digit.
  - apply IH; [by apply N.div_lt | by apply N.neq_0_lt_0].
Qed.

(** [str(n)] starts with a digit or a minus sign. *)
Lemma numeric_head_str (n : Z) : numeric_head (str n) = true.
Proof.
  unfold str, pretty, pretty_Z. destruct n as [|p|p]; [done| |done].
  unfold pretty, pretty_positive, pretty, pretty_N.
  destruct (decide (N.pos p = 0%N)); [done|].
  by apply numeric_head_pretty_N_go.
Qed.

(** No dimension is named like a score column. *)
Lemma dimension_display_not_numeric (d : string) :
  d ∈ dimension_display -> numeric_head d = false.
Proof.
  unfold dimension_display. rewrite !elem_of_cons, elem_of_nil.
  intros H. repeat (destruct H as [->|H]; [reflexivity|]). done.
Qed.

Lemma dimension_is_no_score_column (d : string) (n : Z) :
  d ∈ dimension_display -> d <> str n.
Proof.
  intros Hd ->. apply dimension_display_not_numeric in Hd.
  by rewrite numeric_head_str in Hd.
Qed.

(** ** Changing one cell of the catalog (C7) *)

Lemma mapR_alter {A B} (g : A -> result B) (f : A -> A) (i : nat)
    (l : list A) :
  (forall x, l !! i = Some x -> g (f x) = g x) ->
  mapR g (alter f i l) = mapR g l.
Proof.
  revert i. induction l as [|x l IH]; intros i H; [done|].
  destruct i as [|i].
  - change (alter f 0%nat (x :: l)) with (f x :: l). simpl. by rewrite (H x).
  - change (alter f (S i) (x :: l)) with (x :: alter f i l). simpl.
    rewrite IH; [done|]. intros y Hy. by apply H.
Qed.

Lemma select_values_set_cell (df : DataFrame) (i : nat) (d : string)
    (v : cell) (dims : list string) :
  d ∉ dims ->
  select_values (set_cell df i d v) dims = select_values df dims.
Proof.
  intros Hd. unfold select_values, set_cell. simpl.
  destruct (forallb _ dims); [|done].
  apply mapR_alter. intros r _. apply mapR_ext_in. intros x Hx.
  unfold row_get. rewrite lookup_insert_ne; [done|]. by intros ->.
Qed.

Lemma row_get_set_cell (df : DataFrame) (i : nat) (d : string) (v : cell)
    (index : nat) (label : string) :
  d <> label ->
  iloc (set_cell df i d v) index ≫= (fun r => row_get r label)
  = iloc df index ≫= (fun r => row_get r label).
Proof.
  intros Hne. unfold iloc, set_cell. simpl.
  destruct (decide (i = index)) as [->|Hi].
  - rewrite list_lookup_alter_eq. destruct (rows df !! index); simpl; [|done].
    unfold row_get. by rewrite lookup_insert_ne.
  - by rewrite list_lookup_alter_ne.
Qed.

Lemma v10_group_scores_set_cell (df : DataFrame) (i : nat) (d : string)
    (v : cell) (offset : Z) (groups : list Z) (index : nat) :
  d ∈ dimension_display ->
  V10.group_scores (set_cell df i d v) offset groups index
  = V10.group_scores df offset groups index.
Proof.
  intros Hd. unfold V10.group_scores. apply mapR_ext_in. intros g _.
  apply row_get_set_cell. by apply dimension_is_no_score_column.
Qed.

Lemma v10_passes_set_cell (st : V10.session_state) (df : DataFrame)
    (i : nat) (d : string) (v : cell) (groups : list Z) (index : nat) :
  d ∈ dimension_display ->
  V10.passes st (set_cell df i d v) groups index = V10.passes st df groups index.
Proof.
  intros Hd. unfold V10.passes.
  by rewrite !v10_group_scores_set_cell.
Qed.

Lemma filter_loop_ext (pass pass' : nat -> result bool) (top_n : Z)
    (ranked acc : list nat) :
  (forall i, pass i = pass' i) ->
  filter_loop pass top_n ranked acc = filter_loop pass' top_n ranked acc.
Proof.
  intros H. revert acc. induction ranked as [|i ranked IH]; intros acc;
    simpl; [done|].
  rewrite H. destruct (pass' i) as [keep|e]; simpl; [|done].
  destruct (top_n <=? _)%Z; [done | apply IH].
Qed.

(** C7: setting the value of any entry on a dimension that the query does not
    select leaves every distance and the whole ranked result as they were,
    under both metrics. *)
Theorem c7_unselected_dimension_changes_nothing
    (argsort : list dist -> list nat) (st : V10.session_state)
    (user_ratings : list Q) (dimensions : list string) (df : DataFrame)
    (inv_cov_matrix : matrix) (user_group_ids : list Z) (top_n : Z)
    (i : nat) (d : string) (v : cell) :
  d ∈ dimension_display ->
  d ∉ dimensions ->
  V10.euclidean_distances user_ratings dimensions (set_cell df i d v)
  = V10.euclidean_distances user_ratings dimensions df
  /\ V10.euclidean_top_indices argsort st user_ratings dimensions
       (set_cell df i d v) user_group_ids top_n
     = V10.euclidean_top_indices argsort st user_ratings dimensions df
         user_group_ids top_n
  /\ V10.mahalanobis_distances user_ratings dimensions (set_cell df i d v)
       inv_cov_matrix
     = V10.mahalanobis_distances user_ratings dimensions df inv_cov_matrix
  /\ V10.mahalanobis_top_indices argsort st user_ratings dimensions
       (set_cell df i d v) inv_cov_matrix user_group_ids top_n
     = V10.mahalanobis_top_indices argsort st user_ratings dimensions df
         inv_cov_matrix user_group_ids top_n.
Proof.
  intros Hd Hsel.
  assert (He : V10.euclidean_distances user_ratings dimensions
                 (set_cell df i d v)
               = V10.euclidean_distances user_ratings dimensions df).
  { unfold V10.euclidean_distances. by rewrite select_values_set_cell. }
  assert (Hm : V10.mahalanobis_distances user_ratings dimensions
                 (set_cell df i d v) inv_cov_matrix
               = V10.mahalanobis_distances user_ratings dimensions df
                   inv_cov_matrix).
  { unfold V10.mahalanobis_distances. by rewrite select_values_set_cell. }
  assert (Hf : forall ranked,
    V10.filter_top_n st (set_cell df i d v) user_group_ids top_n ranked
    = V10.filter_top_n st df user_group_ids top_n ranked).
  { intros ranked. apply filter_loop_ext. intros k.
    by apply v10_passes_set_cell. }
  split; [exact He|]. split; [|split; [exact Hm|]].
  - unfold V10.euclidean_top_indices. rewrite He.
    destruct (V10.euclidean_distances _ _ df); simpl; [apply Hf | done].
  - unfold V10.mahalanobis_top_indices. rewrite Hm.
    destruct (V10.mahalanobis_distances _ _ df _); simpl; [apply Hf | done].
Qed.

(** ** The order on distances and [np.argsort] *)

Lemma dist_le_refl (a : dist) : dist_le a a.
Proof. destruct a as [|x]; [done|]. apply Qle_bool_iff, Qle_refl. Qed.

Lemma dist_le_trans (a b c : dist) : dist_le a b -> dist_le b c -> dist_le a c.
Proof.
  unfold dist_le. destruct a as [|x], b as [|y], c as [|z]; simpl; try done.
  rewrite !Qle_bool_iff. apply Qle_trans.
Qed.

Lemma dist_le_total (a b : dist) : dist_le a b \/ dist_le b a.
Proof.
  unfold dist_le. destruct a as [|x], b as [|y]; simpl; auto.
  rewrite !Qle_bool_iff. destruct (Qlt_le_dec x y) as [H|H]; [left|right]; auto.
  by apply Qlt_le_weak.
Qed.

Lemma dist_leb_false (a b : dist) : dist_leb a b = false -> dist_le b a.
Proof.
  intros H. destruct (dist_le_total a b) as [H'|H']; [|done].
  unfold dist_le in H'. congruence.
Qed.

Lemma StronglySorted_map_key (ks : list dist) (l : list nat) :
  StronglySorted dist_le (map (key_at ks) l) <-> StronglySorted (key_le ks) l.
Proof.
  induction l as [|i l IH]; simpl.
  - split; constructor.
  - split; intros H; apply StronglySorted_inv in H as [Hs Hf];
      (constructor; [by apply IH|]).
    + apply List.Forall_forall. intros j Hj.
      apply (proj1 (List.Forall_forall _ _) Hf). by apply in_map.
    + apply List.Forall_forall. intros k Hk.
      apply in_map_iff in Hk as (j & <- & Hj).
      by apply (proj1 (List.Forall_forall _ _) Hf).
Qed.

Lemma precedes_cases (i j : nat) (l : list nat) :
  i ∈ l -> j ∈ l -> i <> j -> precedes i j l \/ precedes j i l.
Proof.
  intros Hi Hj Hne.
  apply list_elem_of_split in Hi as (l1 & l2 & ->).
  apply elem_of_app in Hj as [Hj|Hj].
  - right. apply list_elem_of_split in Hj as (l3 & l4 & ->).
    exists l3, l4, l2. by rewrite <- app_assoc.
  - apply elem_of_cons in Hj as [->|Hj]; [done|].
    left. apply list_elem_of_split in Hj as (l3 & l4 & ->).
    by exists l1, l3, l4.
Qed.

Lemma StronglySorted_precedes {A} (rel : relation A) (f : nat -> A)
    (i j : nat) (l : list nat) :
  StronglySorted rel (map f l) -> precedes i j l -> rel (f i) (f j).
Proof.
  intros H (l1 & l2 & l3 & ->).
  rewrite map_app in H. apply StronglySorted_app_1_r in H. simpl in H.
  inversion H as [|? ? _ Hf]; subst.
  rewrite Forall_forall in Hf. apply Hf.
  rewrite map_app. apply elem_of_app. right. simpl. left.
Qed.

Lemma precedes_sublist (i j : nat) (l1 l2 : list nat) :
  precedes i j l1 -> l1 `sublist_of` l2 -> precedes i j l2.
Proof.
  intros (a & b & c & ->) H.
  apply sublist_app_l in H as (a' & r & -> & Ha & H).
  apply sublist_cons_l in H as (b0 & r' & -> & H).
  apply sublist_app_l in H as (b' & r'' & -> & Hb & H).
  apply sublist_cons_l in H as (c0 & c' & -> & H).
  exists (a' ++ b0), (b' ++ c0), c'.
  by rewrite <- !app_assoc.
Qed.

(** *** The insertion sort of positions meets the contract *)

Lemma insert_idx_perm (ks : list dist) (i : nat) (l : list nat) :
  insert_idx ks i l ≡ₚ i :: l.
Proof.
  induction l as [|j l IH]; simpl; [done|].
  destruct (dist_leb _ _); [|done].
  rewrite IH. apply perm_swap.
Qed.

Lemma insert_idx_sorted (ks : list dist) (i : nat) (l : list nat) :
  StronglySorted (key_le ks) l -> StronglySorted (key_le ks) (insert_idx ks i l).
Proof.
  induction 1 as [|j l Hs IH Hf]; simpl; [repeat constructor|].
  destruct (dist_leb (key_at ks j) (key_at ks i)) eqn:E.
  - constructor; [exact IH|]. rewrite insert_idx_perm. by constructor.
  - apply dist_leb_false in E. constructor; [by constructor|].
    constructor; [exact E|]. eapply Forall_impl; [exact Hf|].
    intros k Hk. eapply dist_le_trans; [exact E | exact Hk].
Qed.

Lemma insertion_fold_perm (ks : list dist) (positions acc : list nat) :
  foldl (fun acc i => insert_idx ks i acc) acc positions ≡ₚ acc ++ positions.
Proof.
  revert acc. induction positions as [|i positions IH]; intros acc; simpl.
  - by rewrite app_nil_r.
  - rewrite IH, insert_idx_perm. simpl. apply Permutation_middle.
Qed.

Lemma insertion_fold_sorted (ks : list dist) (positions acc : list nat) :
  StronglySorted (key_le ks) acc ->
  StronglySorted (key_le ks) (foldl (fun acc i => insert_idx ks i acc) acc positions).
Proof.
  revert acc. induction positions as [|i positions IH]; intros acc H; simpl; [done|].
  by apply IH, insert_idx_sorted.
Qed.

Lemma insertion_argsort_contract : argsort_contract insertion_argsort.
Proof.
  intros ks. unfold insertion_argsort. split.
  - by rewrite insertion_fold_perm.
  - apply StronglySorted_map_key, insertion_fold_sorted. constructor.
Qed.

(** *** Where the contract fixes the result *)

Lemma strictly_sorted_cases (ks : list dist) (p : list nat) (i j : nat) :
  StronglySorted (key_lt ks) p -> i ∈ p -> j ∈ p -> i <> j ->
  key_lt ks i j \/ key_lt ks j i.
Proof.
  intros Hs Hi Hj Hne.
  assert (Hs' : StronglySorted (key_lt ks) (map (fun k : nat => k) p))
    by by rewrite List.map_id.
  destruct (precedes_cases i j p Hi Hj Hne) as [H|H]; [left|right];
    exact (StronglySorted_precedes (key_lt ks) (fun k => k) _ _ p Hs' H).
Qed.

Lemma StronglySorted_weaken {A} (P Q : relation A) (l : list A) :
  (forall x y, P x y -> Q x y) -> StronglySorted P l -> StronglySorted Q l.
Proof.
  intros HPQ. induction 1 as [|x l Hs IH Hf]; constructor; [exact IH|].
  eapply Forall_impl; [exact Hf|]. intros y. apply HPQ.
Qed.

(** Along a permutation on which the keys strictly ascend, every [argsort]
    that meets the contract returns that permutation. *)
Lemma argsort_unique (argsort : list dist -> list nat) (ks : list dist)
    (p : list nat) :
  argsort_contract argsort ->
  p ≡ₚ seq 0 (length ks) ->
  StronglySorted (key_lt ks) p ->
  argsort ks = p.
Proof.
  intros Hc Hp Hs. destruct (Hc ks) as [Hperm Hsorted].
  apply StronglySorted_map_key in Hsorted.
  apply (StronglySorted_unique_strong (key_le ks)).
  - intros i j Hi Hj Hij Hji.
    destruct (decide (i = j)) as [|Hne]; [done|].
    assert (Hi' : i ∈ p) by by rewrite Hp, <- Hperm.
    destruct (strictly_sorted_cases ks p i j Hs Hi' Hj Hne) as [[_ H]|[_ H]];
      by destruct H.
  - exact Hsorted.
  - eapply StronglySorted_weaken; [|exact Hs]. by intros i j [H _].
  - by rewrite Hperm, Hp.
Qed.

(** ** The Euclidean distance (C4) *)

Lemma bsub_same_length (row : list cell) (u : list Q) :
  length row = length u ->
  bsub row u = zip_with (fun x y => cell_sub x (Num y)) row u.
Proof.
  destruct row as [|x [|x' row]], u as [|y [|y' u]]; simpl; try done.
Qed.

Lemma select_values_lookup (df : DataFrame) (dims : list string)
    (X : list (list cell)) (i : nat) (r : gmap string cell) :
  select_values df dims = Ok X -> rows df !! i = Some r ->
  exists row, X !! i = Some row /\ mapR (row_get r) dims = Ok row.
Proof.
  unfold select_values. destruct (forallb _ dims); [|discriminate].
  intros H Hi. apply mapR_Ok_lookup in H as [_ H]. by apply H.
Qed.

Lemma select_values_length (df : DataFrame) (dims : list string)
    (X : list (list cell)) :
  select_values df dims = Ok X -> length X = length (rows df).
Proof.
  unfold select_values. destruct (forallb _ dims); [|discriminate].
  intros H. by apply mapR_Ok_lookup in H as [H _].
Qed.

Lemma mapR_row_get_length (r : gmap string cell) (dims : list string)
    (row : list cell) :
  mapR (row_get r) dims = Ok row -> length row = length dims.
Proof. intros H. by apply mapR_Ok_lookup in H as [H _]. Qed.

(** The value of [distances[i]] in the Euclidean search. *)
Lemma euclidean_distances_lookup (user_ratings : list Q)
    (dims : list string) (df : DataFrame) (ds : list dist) (i : nat)
    (r : gmap string cell) :
  V10.euclidean_distances user_ratings dims df = Ok ds ->
  rows df !! i = Some r ->
  exists row, mapR (row_get r) dims = Ok row
              /\ ds !! i = Some (norm (bsub row user_ratings)).
Proof.
  unfold V10.euclidean_distances. intros H Hi.
  apply bind_Ok in H as (X & HX & H). apply bind_Ok in H as (diffs & Hd & H).
  injection H as <-. unfold sub_rows in Hd.
  destruct (broadcastable _ _); [|discriminate]. injection Hd as <-.
  destruct (select_values_lookup _ _ _ _ _ HX Hi) as (row & Hrow & Hmap).
  exists row. split; [done|].
  unfold norm_axis1. rewrite !list_lookup_fmap, Hrow. done.
Qed.






Ltac strictly_sorted :=
  repeat match goal with
  | |- StronglySorted _ _ => constructor
  | |- Forall _ _ => constructor
  | |- key_lt _ _ _ =>
      split; [vm_compute; reflexivity
             | let H := fresh in intros H; vm_compute in H; discriminate]
  end.





(** ** Undefined ratings (C3) *)

Lemma cell_sum_NaN (l : list cell) : NaN ∈ l -> cell_sum l = NaN.
Proof.
  induction l as [|x l IH]; intros H; [by apply elem_of_nil in H|].
  apply elem_of_cons in H as [<-|H]; simpl; [done|].
  rewrite IH by done. by destruct x.
Qed.

Lemma projected_row_NaN (r : gmap string cell) (dims : list string)
    (row : list cell) (d : string) :
  mapR (row_get r) dims = Ok row -> d ∈ dims -> r !! d = Some NaN ->
  exists j, (j < length dims)%nat /\ row !! j = Some NaN.
Proof.
  intros Hrow Hd Hr. apply list_elem_of_lookup in Hd as (j & Hj).
  apply mapR_Ok_lookup in Hrow as [_ Hrow].
  destruct (Hrow j d Hj) as (y & Hy & Hget).
  unfold row_get in Hget. rewrite Hr in Hget. injection Hget as <-.
  exists j. split; [by eapply lookup_lt_Some | done].
Qed.

Lemma bsub_NaN (row : list cell) (u : list Q) (j : nat) :
  length row = length u -> row !! j = Some NaN ->
  bsub row u !! j = Some NaN.
Proof.
  intros Hlen Hj. rewrite bsub_same_length by done.
  rewrite lookup_zip_with, Hj. simpl.
  destruct (u !! j) eqn:E; [done|].
  apply lookup_ge_None in E. apply lookup_lt_Some in Hj. lia.
Qed.

Lemma norm_NaN (v : list cell) (j : nat) :
  v !! j = Some NaN -> norm v = DNaN.
Proof.
  intros Hj. unfold norm. rewrite cell_sum_NaN; [done|].
  apply list_elem_of_lookup. exists j.
  by rewrite list_lookup_fmap, Hj.
Qed.

Lemma mahalanobis_row_NaN (sel : matrix) (u : list Q) (row : list cell)
    (j : nat) (y : dist) :
  length row = length u -> row !! j = Some NaN ->
  mahalanobis_row sel u row = Ok y -> y = DNaN.
Proof.
  intros Hlen Hj H. unfold mahalanobis_row in H.
  destruct (broadcastable _ _); [|discriminate]. simpl in H.
  apply bind_Ok in H as (t & Ht & H). apply bind_Ok in H as (q & Hq & H).
  injection H as <-. unfold vec_vec in Hq.
  destruct (decide (length t = length (bsub row u))) as [Hl|]; [|discriminate].
  injection Hq as <-. unfold dot. rewrite cell_sum_NaN; [done|].
  pose proof (bsub_NaN row u j Hlen Hj) as Hb.
  apply list_elem_of_lookup. exists j.
  rewrite lookup_zip_with, Hb.
  destruct (t !! j) as [x|] eqn:E; simpl; [by destruct x|].
  apply lookup_ge_None in E. apply lookup_lt_Some in Hb. lia.
Qed.

Lemma euclidean_distance_NaN (user_ratings : list Q) (dims : list string)
    (df : DataFrame) (ds : list dist) (i : nat) (r : gmap string cell)
    (d : string) :
  length user_ratings = length dims ->
  rows df !! i = Some r -> d ∈ dims -> r !! d = Some NaN ->
  V10.euclidean_distances user_ratings dims df = Ok ds ->
  ds !! i = Some DNaN.
Proof.
  intros Hlen Hi Hd Hr Hds.
  destruct (euclidean_distances_lookup _ _ _ _ _ _ Hds Hi)
    as (row & Hrow & ->).
  destruct (projected_row_NaN _ _ _ _ Hrow Hd Hr) as (j & _ & Hj).
  f_equal. apply (norm_NaN _ j), bsub_NaN; [|done].
  rewrite (mapR_row_get_length _ _ _ Hrow). done.
Qed.

Lemma mahalanobis_distance_NaN (user_ratings : list Q) (dims : list string)
    (df : DataFrame) (inv_cov_matrix : matrix) (ds : list dist) (i : nat)
    (r : gmap string cell) (d : string) :
  length user_ratings = length dims ->
  rows df !! i = Some r -> d ∈ dims -> r !! d = Some NaN ->
  V10.mahalanobis_distances user_ratings dims df inv_cov_matrix = Ok ds ->
  ds !! i = Some DNaN.
Proof.
  intros Hlen Hi Hd Hr Hds. unfold V10.mahalanobis_distances in Hds.
  apply bind_Ok in Hds as (X & HX & H). apply bind_Ok in H as (sel & _ & H).
  destruct (select_values_lookup _ _ _ _ _ HX Hi) as (row & Hrow & Hmap).
  apply mapR_Ok_lookup in H as [_ H].
  destruct (H i row Hrow) as (y & Hy & Hm). rewrite Hy. f_equal.
  destruct (projected_row_NaN _ _ _ _ Hmap Hd Hr) as (j & _ & Hj).
  eapply mahalanobis_row_NaN; [|exact Hj|exact Hm].
  rewrite (mapR_row_get_length _ _ _ Hmap). done.
Qed.

(** [np.argsort] puts an undefined distance after every defined one. *)
Lemma argsort_NaN_last (argsort : list dist -> list nat) (ds : list dist)
    (i : nat) :
  argsort_contract argsort -> ds !! i = Some DNaN ->
  ranked_after_defined ds (argsort ds) i.
Proof.
  intros Hc Hi j q Hj. destruct (Hc ds) as [Hperm Hsorted].
  assert (Hin : forall k x, ds !! k = Some x -> k ∈ argsort ds).
  { intros k x Hk. rewrite Hperm. apply elem_of_seq.
    apply lookup_lt_Some in Hk. lia. }
  assert (Hne : j <> i) by (intros ->; congruence).
  destruct (precedes_cases j i (argsort ds) (Hin _ _ Hj) (Hin _ _ Hi) Hne)
    as [H|H]; [done|].
  pose proof (StronglySorted_precedes dist_le (key_at ds) _ _ _ Hsorted H)
    as Hle.
  unfold key_at in Hle. rewrite Hi, Hj in Hle. done.
Qed.

(** Where a candidate stands in the ranking decides whether the loop returns
    it: it must pass the test itself, and fewer than [top_n] of the
    candidates ranked before it may pass. *)
Lemma filter_loop_member (pass : nat -> result bool) (top_n : Z)
    (pre post : list nat) (i : nat) (acc out : list nat) :
  filter_loop pass top_n (pre ++ i :: post) acc = Ok out ->
  (Z.of_nat (length acc) < top_n)%Z ->
  i ∉ acc -> i ∉ pre -> i ∉ post ->
  (i ∈ out
   <-> pass i = Ok true
       /\ (Z.of_nat (length acc + length (List.filter (passed pass) pre))
           < top_n)%Z).
Proof.
  revert acc. induction pre as [|x pre IH]; intros acc H Hacc Hia Hipre Hipost.
  - simpl in H. apply bind_Ok in H as (keep & Hk & H). simpl.
    rewrite Nat.add_0_r. destruct keep.
    + assert (Hin : i ∈ out).
      { destruct (top_n <=? _)%Z.
        - injection H as <-. apply elem_of_app. right. left.
        - apply filter_loop_Ok in H as (kept & -> & _).
          apply elem_of_app. left. apply elem_of_app. right. left. }
      split; [by intros _ | intros _; exact Hin].
    + assert (Hout : exists kept, out = acc ++ kept /\ kept `sublist_of` post).
      { destruct (top_n <=? _)%Z.
        - injection H as <-. exists [].
          split; [by rewrite app_nil_r | apply sublist_nil_l].
        - apply filter_loop_Ok in H as (kept & -> & Hsub & _). eauto. }
      destruct Hout as (kept & -> & Hsub). split.
      * intros Hin. apply elem_of_app in Hin as [Hin|Hin]; [done|].
        exfalso. apply Hipost. by eapply elem_of_sublist.
      * intros [Hp _]. congruence.
  - apply not_elem_of_cons in Hipre as [Hix Hipre].
    change ((x :: pre) ++ i :: post) with (x :: (pre ++ i :: post)) in H.
    cbn [filter_loop] in H. apply bind_Ok in H as (keep & Hk & H).
    assert (Hpx : passed pass x = keep).
    { unfold passed. rewrite Hk. by destruct keep. }
    cbn [List.filter]. rewrite Hpx.
    set (acc' := if (keep : bool) then acc ++ [x] else acc) in *.
    assert (Hlen : (length acc + length (if keep
                                         then x :: List.filter (passed pass) pre
                                         else List.filter (passed pass) pre)
                    = length acc' + length (List.filter (passed pass) pre))%nat).
    { subst acc'. destruct keep; [rewrite length_app|]; simpl; lia. }
    rewrite Hlen.
    assert (Hia' : i ∉ acc').
    { subst acc'. destruct keep; [|done].
      intros Hin. apply elem_of_app in Hin as [Hin|Hin]; [done|].
      apply list_elem_of_singleton in Hin. done. }
    destruct (Z.leb_spec top_n (Z.of_nat (length acc'))) as [Hfull|Hroom].
    + injection H as <-. split; [done|]. intros [_ Hlt]. lia.
    + by apply IH.
Qed.

Lemma v10_filter_top_n_member (argsort : list dist -> list nat)
    (st : V10.session_state) (df : DataFrame) (user_group_ids : list Z)
    (top_n : Z) (ds : list dist) (pre post : list nat) (i : nat)
    (out : list nat) :
  argsort_contract argsort ->
  (1 <= top_n)%Z ->
  argsort ds = pre ++ i :: post ->
  V10.filter_top_n st df user_group_ids top_n (argsort ds) = Ok out ->
  (i ∈ out
   <-> V10.passes st df user_group_ids i = Ok true
       /\ (Z.of_nat (length (List.filter
                               (passed (V10.passes st df user_group_ids)) pre))
           < top_n)%Z).
Proof.
  intros Hc Hn Hsplit H. destruct (Hc ds) as [Hperm _].
  assert (Hnd : NoDup (pre ++ i :: post)).
  { rewrite <- Hsplit, Hperm. apply NoDup_seq. }
  apply NoDup_app in Hnd as (_ & Hpre & Hnd).
  apply NoDup_cons in Hnd as [Hpost _].
  unfold V10.filter_top_n in H. rewrite Hsplit in H.
  apply (filter_loop_member _ _ _ _ _ [] out H).
  - simpl. lia.
  - apply not_elem_of_nil.
  - intros Hin. apply (Hpre i Hin). left.
  - exact Hpost.
Qed.

(** C3, as amended: an entry whose rating is NaN on a selected dimension has
    an undefined (NaN) distance under both metrics -- the value never counts
    as zero -- and the ranking puts it after every entry whose distance is
    defined.  It is not excluded: for [top_n >= 1] it is returned exactly
    when it passes the liking and familiarity test itself and fewer than
    [top_n] of the entries ranked before it pass. *)
Theorem c3_undefined_rating_is_nan_and_ranked_last
    (argsort : list dist -> list nat) (user_ratings : list Q)
    (dims : list string) (df : DataFrame) (inv_cov_matrix : matrix)
    (i : nat) (r : gmap string cell) (d : string) :
  argsort_contract argsort ->
  length user_ratings = length dims ->
  rows df !! i = Some r -> d ∈ dims -> r !! d = Some NaN ->
  (forall ds,
     V10.euclidean_distances user_ratings dims df = Ok ds ->
     ds !! i = Some DNaN /\ ranked_after_defined ds (argsort ds) i
     /\ forall st user_group_ids top_n pre post out,
          (1 <= top_n)%Z ->
          argsort ds = pre ++ i :: post ->
          V10.euclidean_top_indices argsort st user_ratings dims df
            user_group_ids top_n = Ok out ->
          (i ∈ out
           <-> V10.passes st df user_group_ids i = Ok true
               /\ (Z.of_nat (length (List.filter
                      (passed (V10.passes st df user_group_ids)) pre))
                   < top_n)%Z))
  /\ (forall ds,
        V10.mahalanobis_distances user_ratings dims df inv_cov_matrix = Ok ds ->
        ds !! i = Some DNaN /\ ranked_after_defined ds (argsort ds) i
        /\ forall st user_group_ids top_n pre post out,
             (1 <= top_n)%Z ->
             argsort ds = pre ++ i :: post ->
             V10.mahalanobis_top_indices argsort st user_ratings dims df
               inv_cov_matrix user_group_ids top_n = Ok out ->
             (i ∈ out
              <-> V10.passes st df user_group_ids i = Ok true
                  /\ (Z.of_nat (length (List.filter
                         (passed (V10.passes st df user_group_ids)) pre))
                      < top_n)%Z)).
Proof.
  intros Hc Hlen Hi Hd Hr. split; intros ds Hds.
  - assert (Hnan : ds !! i = Some DNaN) by by eapply euclidean_distance_NaN.
    split; [done|]. split; [by apply argsort_NaN_last|].
    intros st user_group_ids top_n pre post out Hn Hsplit H.
    unfold V10.euclidean_top_indices in H. rewrite Hds in H.
    by eapply v10_filter_top_n_member.
  - assert (Hnan : ds !! i = Some DNaN)
      by by eapply mahalanobis_distance_NaN.
    split; [done|]. split; [by apply argsort_NaN_last|].
    intros st user_group_ids top_n pre post out Hn Hsplit H.
    unfold V10.mahalanobis_top_indices in H. rewrite Hds in H.
    by eapply v10_filter_top_n_member.
Qed.

Lemma nan_argsort (argsort : list dist -> list nat) :
  argsort_contract argsort -> argsort nan_distances = [1; 0; 2]%nat.
Proof.
  intros Hc. apply argsort_unique; [exact Hc | apply perm_swap |].
  strictly_sorted.
Qed.

(** The entry with the undefined rating is returned all the same: last by
    [np.argsort] when fewer than [top_n] others qualify, and first by
    [np.argmin]. *)
Lemma c3_counterexample :
  (rows catalog3_nan !! 2%nat) ≫= (fun r => r !! "urgency") = Some NaN
  /\ (forall argsort : list dist -> list nat,
        argsort_contract argsort ->
        V10.euclidean_top_indices argsort sliders0 [0] ["urgency"]
          catalog3_nan [1%Z] 3 = Ok [1; 0; 2]%nat
        /\ V10.mahalanobis_top_indices argsort sliders0 [0] ["urgency"]
             catalog3_nan [[Num 1]] [1%Z] 3 = Ok [1; 0; 2]%nat)
  /\ EucdisMax.closest_index [0] ["urgency"] catalog3_nan = Ok 2%nat.
Proof.
  split; [by vm_compute|]. split; [|by vm_compute].
  intros argsort Hc.
  assert (He : V10.euclidean_distances [0] ["urgency"] catalog3_nan
               = Ok nan_distances) by (vm_compute; reflexivity).
  assert (Hm : V10.mahalanobis_distances [0] ["urgency"] catalog3_nan
                 [[Num 1]] = Ok nan_distances) by (vm_compute; reflexivity).
  split.
  - unfold V10.euclidean_top_indices. rewrite He. simpl.
    rewrite (nan_argsort argsort Hc). vm_compute. reflexivity.
  - unfold V10.mahalanobis_top_indices. rewrite Hm. simpl.
    rewrite (nan_argsort argsort Hc). vm_compute. reflexivity.
Qed.

(** ** The ranking *)

Lemma StronglySorted_sublist {A} (rel : relation A) (l1 l2 : list A) :
  l1 `sublist_of` l2 -> StronglySorted rel l2 -> StronglySorted rel l1.
Proof.
  induction 1 as [|x l1 l2 Hsub IH|x l1 l2 Hsub IH]; intros Hs.
  - constructor.
  - apply StronglySorted_inv in Hs as [Hs Hf]. constructor; [by apply IH|].
    apply List.Forall_forall. intros y Hy.
    apply (proj1 (List.Forall_forall _ _) Hf).
    apply list_elem_of_In. eapply elem_of_sublist; [|exact Hsub].
    by apply list_elem_of_In.
  - apply StronglySorted_inv in Hs as [Hs _]. by apply IH.
Qed.

(** Whatever the filter keeps of a ranking still ascends by distance. *)
Lemma filtered_ranking_sorted (argsort : list dist -> list nat)
    (pass : nat -> result bool) (top_n : Z) (ds : list dist)
    (out : list nat) :
  argsort_contract argsort ->
  filter_loop pass top_n (argsort ds) [] = Ok out ->
  StronglySorted dist_le (map (key_at ds) out).
Proof.
  intros Hc H. destruct (Hc ds) as [_ Hs].
  apply filter_loop_Ok in H as (kept & -> & Hsub & _). simpl.
  apply StronglySorted_map_key. apply StronglySorted_map_key in Hs.
  by eapply StronglySorted_sublist.
Qed.

(** *** [np.argmin] returns the first position of the minimum *)

Lemma argmin_from_spec (l pre : list dist) (bi : nat) (b : dist) :
  Forall (fun k => k <> DNaN) (pre ++ l) ->
  pre !! bi = Some b ->
  (forall j k, pre !! j = Some k -> dist_le b k) ->
  (forall j k, (j < bi)%nat -> pre !! j = Some k -> ~ dist_le k b) ->
  exists br,
    (pre ++ l) !! argmin_from bi b (length pre) l = Some br
    /\ (forall j k, (pre ++ l) !! j = Some k -> dist_le br k)
    /\ (forall j k, (j < argmin_from bi b (length pre) l)%nat ->
          (pre ++ l) !! j = Some k -> ~ dist_le k br).
Proof.
  revert pre bi b. induction l as [|k l IH]; intros pre bi b Hnan Hbi Hmin Hfst.
  - simpl. rewrite app_nil_r. eauto.
  - assert (Hb : b <> DNaN).
    { rewrite Forall_forall in Hnan. apply Hnan, elem_of_app. left.
      by eapply list_elem_of_lookup_2. }
    assert (Hk : k <> DNaN).
    { rewrite Forall_forall in Hnan. apply Hnan, elem_of_app. right. left. }
    assert (Hlt : (bi < length pre)%nat) by by eapply lookup_lt_Some.
    cbn [argmin_from].
    replace (pre ++ k :: l) with ((pre ++ [k]) ++ l) in *
      by by rewrite <- app_assoc.
    replace (S (length pre)) with (length (pre ++ [k]))
      by (rewrite length_app; simpl; lia).
    destruct (argmin_better k b) eqn:E.
    + apply IH; [done|by rewrite lookup_app_r, Nat.sub_diag by lia|..].
      * intros j kj Hj. destruct b as [|bq], k as [|x]; try done.
        simpl in E. apply negb_true_iff in E.
        assert (Hkb : dist_le (DSqrt x) (DSqrt bq))
          by (by apply dist_leb_false).
        apply lookup_app_Some in Hj as [Hj|[_ Hj]].
        -- eapply dist_le_trans; [exact Hkb | by eapply Hmin].
        -- apply list_lookup_singleton_Some in Hj as [_ <-].
           apply dist_le_refl.
      * intros j kj Hj Hlk Hle. destruct b as [|bq], k as [|x]; try done.
        simpl in E. apply negb_true_iff in E.
        rewrite lookup_app_l in Hlk by done.
        assert (dist_le (DSqrt bq) (DSqrt x))
          by (eapply dist_le_trans; [by eapply Hmin | exact Hle]).
        unfold dist_le in *. simpl in *. congruence.
    + apply IH; [done|by rewrite lookup_app_l|..].
      * intros j kj Hj.
        apply lookup_app_Some in Hj as [Hj|[_ Hj]]; [by eapply Hmin|].
        apply list_lookup_singleton_Some in Hj as [_ <-].
        destruct b as [|bq], k as [|x]; try done.
        simpl in E. apply negb_false_iff in E. exact E.
      * intros j kj Hj Hlk. rewrite lookup_app_l in Hlk by lia.
        by eapply Hfst.
Qed.

Lemma np_argmin_first_minimum (ks : list dist) (i : nat) :
  Forall (fun k => k <> DNaN) ks ->
  np_argmin ks = Ok i ->
  (forall j, dist_le (key_at ks i) (key_at ks j))
  /\ (forall j, (j < i)%nat -> ~ dist_le (key_at ks j) (key_at ks i)).
Proof.
  intros Hnan H. destruct ks as [|k0 l]; [discriminate|].
  injection H as <-.
  destruct (argmin_from_spec l [k0] 0 k0) as (br & Hbr & Hmin & Hfst).
  - exact Hnan.
  - done.
  - intros j k Hj. apply list_lookup_singleton_Some in Hj as [_ <-].
    apply dist_le_refl.
  - intros j k Hj. lia.
  - simpl in *. unfold key_at. rewrite Hbr. simpl. split.
    + intros j. destruct ((k0 :: l) !! j) as [k|] eqn:E; simpl.
      * by eapply Hmin.
      * by destruct br.
    + intros j Hj. destruct ((k0 :: l) !! j) as [k|] eqn:E; simpl.
      * by eapply Hfst.
      * apply lookup_ge_None in E. apply lookup_lt_Some in Hbr. lia.
Qed.

(** What the contract of [np.argsort] gives: the returned ranking ascends by
    distance (undefined distances last) under both metrics; the single
    result of the [np.argmin] variant is the earliest entry at minimum
    distance.  The order among equal distances in the [np.argsort] variants
    is decided inside numpy's sort and is not settled here. *)
Lemma ranking_ascends_by_distance
    (argsort : list dist -> list nat) (st : V10.session_state)
    (user_ratings : list Q) (dims : list string) (df : DataFrame)
    (inv_cov_matrix : matrix) (user_group_ids : list Z) (top_n : Z) :
  argsort_contract argsort ->
  (forall ds out,
     V10.euclidean_distances user_ratings dims df = Ok ds ->
     V10.euclidean_top_indices argsort st user_ratings dims df
       user_group_ids top_n = Ok out ->
     StronglySorted dist_le (map (key_at ds) out))
  /\ (forall ds out,
        V10.mahalanobis_distances user_ratings dims df inv_cov_matrix = Ok ds ->
        V10.mahalanobis_top_indices argsort st user_ratings dims df
          inv_cov_matrix user_group_ids top_n = Ok out ->
        StronglySorted dist_le (map (key_at ds) out))
  /\ (forall ds i,
        EucdisMax.distances user_ratings dims df = Ok ds ->
        Forall (fun k => k <> DNaN) ds ->
        EucdisMax.closest_index user_ratings dims df = Ok i ->
        (forall j, dist_le (key_at ds i) (key_at ds j))
        /\ (forall j, (j < i)%nat -> ~ dist_le (key_at ds j) (key_at ds i))).
Proof.
  intros Hc. split; [|split].
  - intros ds out Hds H. unfold V10.euclidean_top_indices in H.
    rewrite Hds in H. simpl in H. by eapply filtered_ranking_sorted.
  - intros ds out Hds H. unfold V10.mahalanobis_top_indices in H.
    rewrite Hds in H. simpl in H. by eapply filtered_ranking_sorted.
  - intros ds i Hds Hnan H. unfold EucdisMax.closest_index in H.
    rewrite Hds in H. simpl in H. by apply np_argmin_first_minimum.
Qed.

(** ** The inversion at load time (C6) *)

(** *** No step of a search raises LinAlgError *)

Lemma bind_never {A B} (e : exn) (m : result A) (f : A -> result B) :
  m <> Raise e -> (forall a, f a <> Raise e) -> m ≫= f <> Raise e.
Proof.
  destruct m as [a|e']; simpl; [intros _ H; apply H|].
  intros H _ [= ->]. by apply H.
Qed.

Lemma mapR_never {A B} (e : exn) (f : A -> result B) (l : list A) :
  (forall x, f x <> Raise e) -> mapR f l <> Raise e.
Proof.
  intros H. induction l as [|x l IH]; simpl; [done|].
  apply bind_never; [apply H|]. intros y.
  apply bind_never; [exact IH | done].
Qed.

Lemma from_option_never {A} (e e' : exn) (o : option A) :
  e' <> e -> from_option e' o <> Raise e.
Proof. intros Hne. destruct o; simpl; [done | congruence]. Qed.

Lemma filter_loop_never (e : exn) (pass : nat -> result bool) (top_n : Z)
    (ranked acc : list nat) :
  (forall i, pass i <> Raise e) -> filter_loop pass top_n ranked acc <> Raise e.
Proof.
  intros H. revert acc. induction ranked as [|i ranked IH]; intros acc; simpl;
    [done|].
  apply bind_never; [apply H|]. intros keep.
  destruct (top_n <=? _)%Z; [done | apply IH].
Qed.

Lemma select_values_never_LinAlgError (df : DataFrame) (dims : list string) :
  select_values df dims <> Raise LinAlgError.
Proof.
  unfold select_values. destruct (forallb _ dims); [|done].
  apply mapR_never. intros r. apply mapR_never. intros d.
  by apply from_option_never.
Qed.

Lemma v10_passes_never_LinAlgError (st : V10.session_state) (df : DataFrame)
    (user_group_ids : list Z) (index : nat) :
  V10.passes st df user_group_ids index <> Raise LinAlgError.
Proof.
  assert (Hg : forall offset,
            V10.group_scores df offset user_group_ids index
            <> Raise LinAlgError).
  { intros offset. apply mapR_never. intros g.
    apply bind_never; [by apply from_option_never|].
    intros r. by apply from_option_never. }
  unfold V10.passes. apply bind_never; [apply Hg|]. intros likings.
  apply bind_never; [apply Hg | done].
Qed.

Lemma mahalanobis_row_never_LinAlgError (S : matrix) (u : list Q)
    (row : list cell) :
  mahalanobis_row S u row <> Raise LinAlgError.
Proof.
  unfold mahalanobis_row.
  apply bind_never; [by destruct (broadcastable _ _)|]. intros diff.
  apply bind_never; [unfold vec_mat; by destruct (decide _)|]. intros t.
  apply bind_never; [unfold vec_vec; by destruct (decide _) | done].
Qed.

(** Whatever matrix it is given, the Mahalanobis search of v10.0 raises no
    LinAlgError: singularity is looked at nowhere after the load. *)
Lemma v10_mahalanobis_search_never_LinAlgError
    (argsort : list dist -> list nat) (st : V10.session_state)
    (user_ratings : list Q) (dims : list string) (df : DataFrame)
    (inv_cov_matrix : matrix) (user_group_ids : list Z) (top_n : Z) :
  V10.mahalanobis_top_indices argsort st user_ratings dims df inv_cov_matrix
    user_group_ids top_n <> Raise LinAlgError
  /\ V10.find_closest_sounds_mahalanobis argsort st user_ratings dims df
       inv_cov_matrix user_group_ids top_n <> Raise LinAlgError.
Proof.
  assert (Htop : V10.mahalanobis_top_indices argsort st user_ratings dims df
                   inv_cov_matrix user_group_ids top_n <> Raise LinAlgError).
  { unfold V10.mahalanobis_top_indices.
    apply bind_never.
    - unfold V10.mahalanobis_distances.
      apply bind_never; [apply select_values_never_LinAlgError|]. intros X.
      apply bind_never.
      + unfold V10.selected_inv_cov_matrix.
        apply bind_never.
        * apply mapR_never. intros d. by apply from_option_never.
        * intros idx. apply mapR_never. intros i.
          apply bind_never; [by apply from_option_never|]. intros row.
          apply mapR_never. intros j. by apply from_option_never.
      + intros sel. apply mapR_never. intros row.
        apply mahalanobis_row_never_LinAlgError.
    - intros ds. apply filter_loop_never. intros i.
      apply v10_passes_never_LinAlgError. }
  split; [exact Htop|].
  unfold V10.find_closest_sounds_mahalanobis.
  apply bind_never; [exact Htop|]. intros top_indices.
  apply mapR_never. intros i. by apply from_option_never.
Qed.

(** C6, as amended: the covariance matrix is inverted once, at load time,
    and what [np.linalg.inv] does there decides the load.  If it raises, the
    load raises the same exception and [run] stops there, before any query,
    Euclidean or Mahalanobis.  If it returns a matrix, the load succeeds with
    that matrix, and no Mahalanobis query raises a LinAlgError afterwards. *)
Theorem c6_inversion_decides_the_load
    (np_linalg_inv : matrix -> result matrix)
    (pd_std : DataFrame -> list string -> list cell)
    (files : V10.reference_files) (cov : matrix) :
  V10.covariance_matrix pd_std files = Ok cov ->
  (forall e, np_linalg_inv cov = Raise e ->
     V10.load_and_prepare_data np_linalg_inv pd_std files = Raise e
     /\ forall argsort inp,
          V10.run argsort np_linalg_inv pd_std files inp = Raise e)
  /\ (forall inv, np_linalg_inv cov = Ok inv ->
        (exists app,
           V10.load_and_prepare_data np_linalg_inv pd_std files = Ok app
           /\ V10.inv_cov_matrix app = inv
           /\ V10.final_combined_data app = V10.all_combined_data files)
        /\ (forall argsort st user_ratings dims user_group_ids top_n,
              V10.find_closest_sounds_mahalanobis argsort st user_ratings dims
                (V10.all_combined_data files) inv user_group_ids top_n
              <> Raise LinAlgError)
        /\ forall argsort inp,
             V10.run argsort np_linalg_inv pd_std files inp
             <> Raise LinAlgError).
Proof.
  intros Hcov. split.
  - intros e He.
    assert (Hload : V10.load_and_prepare_data np_linalg_inv pd_std files
                    = Raise e).
    { unfold V10.load_and_prepare_data.
      destruct (load_median_data _) as [data rating_columns].
      by rewrite Hcov; simpl; rewrite He. }
    split; [exact Hload|]. intros argsort inp. unfold V10.run.
    by rewrite Hload.
  - intros inv Hinv.
    assert (Hload : exists app,
              V10.load_and_prepare_data np_linalg_inv pd_std files = Ok app
              /\ V10.inv_cov_matrix app = inv
              /\ V10.final_combined_data app = V10.all_combined_data files).
    { unfold V10.load_and_prepare_data.
      destruct (load_median_data _) as [data rating_columns].
      rewrite Hcov. simpl. rewrite Hinv. simpl. by eexists. }
    split; [exact Hload|]. split.
    + intros argsort st user_ratings dims user_group_ids top_n.
      apply v10_mahalanobis_search_never_LinAlgError.
    + intros argsort inp. destruct Hload as (app & Hload & Hi & Hd).
      unfold V10.run. rewrite Hload. cbn [mbind result_bind].
      destruct (V10.selected_dimensions inp); [done|].
      destruct (V10.user_ratings inp) eqn:Eu; [done|].
      unfold V10.display_results. rewrite Eu.
      cbn [length Nat.ltb Nat.leb].
      apply bind_never.
      * unfold V10.euclidean_top_indices.
        apply bind_never.
        -- unfold V10.euclidean_distances.
           apply bind_never; [apply select_values_never_LinAlgError|].
           intros X.
           apply bind_never; [unfold sub_rows; by destruct (broadcastable _ _)
                             | done].
        -- intros ds. apply filter_loop_never. intros i.
           apply v10_passes_never_LinAlgError.
      * intros e. apply bind_never; [|done].
        apply v10_mahalanobis_search_never_LinAlgError.
Qed.

(** Two identical dimensions, where the inversion raises on an exact zero
    pivot: the load raises. *)
Lemma c6_witness :
  V10.load_and_prepare_data exact_inverse std_half two_identical_dimensions
  = Raise LinAlgError.
Proof.
  refine (proj1 (proj1 (c6_inversion_decides_the_load exact_inverse std_half
                          two_identical_dimensions
                          [[Num (2 # 8); Num (2 # 8)];
                           [Num (2 # 8); Num (2 # 8)]] _)
                   LinAlgError _)).
  - vm_compute. reflexivity.
  - vm_compute. reflexivity.
Defined.

(** The claim fails on two identical dimensions (a singular covariance
    matrix), whatever [np.linalg.inv] does with it: either the load itself
    fails, or it succeeds and the Mahalanobis query raises no LinAlgError.
    Where the inversion raises, as it does on this matrix, [run] stops at the
    load although the Euclidean search on the same tables has an answer. *)
Lemma c6_counterexample :
  (exists cov,
     V10.covariance_matrix std_half two_identical_dimensions = Ok cov
     /\ is_zero (det cov) = true)
  /\ (forall np_linalg_inv : matrix -> result matrix,
        (exists e,
           V10.load_and_prepare_data np_linalg_inv std_half
             two_identical_dimensions = Raise e)
        \/ (exists app,
              V10.load_and_prepare_data np_linalg_inv std_half
                two_identical_dimensions = Ok app
              /\ V10.find_closest_sounds_mahalanobis insertion_argsort
                   sliders0 [0; 0] ["a"; "b"] (V10.final_combined_data app)
                   (V10.inv_cov_matrix app) [1%Z] 3
                 <> Raise LinAlgError))
  /\ V10.load_and_prepare_data exact_inverse std_half two_identical_dimensions
     = Raise LinAlgError
  /\ V10.run insertion_argsort exact_inverse std_half two_identical_dimensions
       sample_input
     = Raise LinAlgError
  /\ V10.euclidean_top_indices insertion_argsort sliders0 [0; 0] ["a"; "b"]
       (V10.all_combined_data two_identical_dimensions) [1%Z] 3
     = Ok [1; 0; 2]%nat.
Proof.
  split; [|split; [|split; [|split]]].
  - eexists. split; vm_compute; reflexivity.
  - intros np_linalg_inv.
    destruct (V10.load_and_prepare_data np_linalg_inv std_half
                two_identical_dimensions) as [app|e] eqn:E.
    + right. exists app. split; [done|].
      apply v10_mahalanobis_search_never_LinAlgError.
    + left. by exists e.
  - vm_compute. reflexivity.
  - vm_compute. reflexivity.
  - vm_compute. reflexivity.
Qed.

(** ** Instances at the sample data *)

(** C3 at the catalog whose third sound has no rating: its distance is NaN,
    both other sounds are ranked before it, and with [top_n = 3] it is
    returned. *)
Lemma c3_witness :
  nan_distances !! 2%nat = Some DNaN
  /\ ranked_after_defined nan_distances (insertion_argsort nan_distances) 2
  /\ 2%nat ∈ [1; 0; 2]%nat.
Proof.
  pose proof (proj1 (c3_undefined_rating_is_nan_and_ranked_last
            insertion_argsort [0] ["urgency"] catalog3_nan [[Num 1]] 2
            (default ∅ (rows catalog3_nan !! 2%nat)) "urgency"
            insertion_argsort_contract eq_refl eq_refl
            ltac:(constructor) ltac:(vm_compute; reflexivity))
          nan_distances ltac:(vm_compute; reflexivity)) as (H1 & H2 & H3).
  split; [exact H1|]. split; [exact H2|].
  apply (H3 sliders0 [1%Z] 3%Z [1; 0]%nat [] [1; 0; 2]%nat).
  - lia.
  - vm_compute. reflexivity.
  - vm_compute. reflexivity.
  - split; [vm_compute; reflexivity | vm_compute; reflexivity].
Defined.

(** C7 at the scenario catalog: giving its first sound a value on "purity"
    changes neither the distances nor the result of a search on "urgency". *)
Lemma c7_witness :
  "purity" ∈ dimension_display
  /\ ("purity" ∉ ["urgency"])
  /\ V10.euclidean_top_indices insertion_argsort sliders0 [0] ["urgency"]
       (set_cell catalog3 0 "purity" (Num 1)) [1%Z] 2
     = V10.euclidean_top_indices insertion_argsort sliders0 [0] ["urgency"]
         catalog3 [1%Z] 2.
Proof.
  assert (H1 : "purity" ∈ dimension_display) by (repeat constructor).
  assert (H2 : "purity" ∉ ["urgency"]).
  { rewrite elem_of_cons, elem_of_nil. intros [H|[]]. discriminate H. }
  split; [exact H1|]. split; [exact H2|].
  exact (proj1 (proj2 (c7_unselected_dimension_changes_nothing
           insertion_argsort sliders0 [0] ["urgency"] catalog3 [[Num 1]]
           [1%Z] 2 0 "purity" (Num 1) H1 H2))).
Defined.

(** * Further properties of the code *)

Lemma mapR_Ok_total {A B} (f : A -> result B) (l : list A) :
  (forall x, x ∈ l -> exists y, f x = Ok y) ->
  exists ys, mapR f l = Ok ys /\ length ys = length l.
Proof.
  induction l as [|x l IH]; intros H; simpl; [by exists []|].
  destruct (H x) as (y & ->); [left|].
  destruct IH as (ys & -> & Hlen); [intros z Hz; apply H; by right|].
  exists (y :: ys). simpl. by rewrite Hlen.
Qed.

Lemma mapR_Ok_Forall {A B} (f : A -> result B) (P : B -> Prop) (l : list A) :
  (forall x, x ∈ l -> exists y, f x = Ok y /\ P y) ->
  exists ys, mapR f l = Ok ys /\ length ys = length l /\ Forall P ys.
Proof.
  induction l as [|x l IH]; intros H; simpl; [by exists []|].
  destruct (H x) as (y & -> & Hy); [left|].
  destruct IH as (ys & -> & Hlen & Hall); [intros z Hz; apply H; by right|].
  exists (y :: ys). simpl. rewrite Hlen. split; [done|]. split; [done|]. by constructor.
Qed.

(** ** The demographic groups of a query *)

Lemma filter_filter_andb {A} (f g : A -> bool) (l : list A) :
  List.filter g (List.filter f l) = List.filter (fun x => f x && g x) l.
Proof.
  induction l as [|x l IH]; simpl; [done|].
  destruct (f x); simpl; [|exact IH].
  destruct (g x); simpl; by rewrite IH.
Qed.

Lemma filter_true {A} (f : A -> bool) (l : list A) :
  (forall x, f x = true) -> List.filter f l = l.
Proof.
  intros H. induction l as [|x l IH]; simpl; [done|]. by rewrite H, IH.
Qed.

Lemma filter_loop_groups (ticked : string -> string -> bool)
    (ps : list (string * list string)) (t : V10App.GroupTable) :
  Forall (fun p => p.1 ∈ V10App.group_columns t) ps ->
  foldl (V10App.filter_step ticked) (Ok t) ps
  = Ok {| V10App.group_columns := V10App.group_columns t;
          V10App.group_rows :=
            List.filter (V10App.row_matches ticked ps) (V10App.group_rows t) |}.
Proof.
  revert t. induction ps as [|p ps IH]; intros t Hcols.
  - simpl. rewrite filter_true by done. by destruct t.
  - apply Forall_cons in Hcols as [Hp Hps]. cbn [foldl].
    unfold V10App.filter_step at 2. cbn [mbind result_bind].
    destruct (V10App.selected_options ticked p) as [|o sel] eqn:E.
    + rewrite (IH t Hps). do 2 f_equal. apply filter_ext. intros r.
      unfold V10App.row_matches. cbn [forallb]. by rewrite E.
    + unfold V10App.isin_filter. rewrite bool_decide_true by done.
      rewrite IH by done. cbn [V10App.group_columns V10App.group_rows].
      rewrite filter_filter_andb. do 2 f_equal. apply filter_ext. intros r.
      unfold V10App.row_matches. cbn [forallb]. by rewrite E.
Qed.

(** When groupid.csv has the id column and the three parameter columns,
    [get_user_group_ids] returns, in the order of the table, the ids of
    exactly the groups that agree with the ticked options of every parameter
    that has a ticked option. *)
Theorem get_user_group_ids_matching (ticked : string -> string -> bool)
    (t : V10App.GroupTable) :
  Forall (fun c => c ∈ V10App.group_columns t)
         ["Group ID"; "Gender"; "Migration Background"; "Age"] ->
  V10App.get_user_group_ids ticked t
  = Ok (map V10App.group_id
          (List.filter (V10App.row_matches ticked V10App.params)
                       (V10App.group_rows t))).
Proof.
  intros Hcols. unfold V10App.get_user_group_ids.
  rewrite filter_loop_groups.
  - cbn [mbind result_bind V10App.group_columns V10App.group_rows].
    rewrite bool_decide_true; [done|].
    by apply Forall_cons in Hcols as [? _].
  - apply Forall_cons in Hcols as [_ Hcols]. unfold V10App.params.
    repeat (apply Forall_cons in Hcols as [? Hcols]).
    repeat (constructor; [done|]). constructor.
Qed.

Lemma get_user_group_ids_matching_witness :
  V10App.get_user_group_ids sample_ticks sample_groups = Ok [2; 5]%Z.
Proof.
  rewrite (get_user_group_ids_matching sample_ticks sample_groups).
  - vm_compute. reflexivity.
  - repeat constructor.
Defined.

(** With no box ticked no filter is applied: every group of the table is
    selected, whatever parameter columns the table has. *)
Theorem get_user_group_ids_nothing_ticked (ticked : string -> string -> bool)
    (t : V10App.GroupTable) :
  (forall param option, ticked param option = false) ->
  "Group ID" ∈ V10App.group_columns t ->
  V10App.get_user_group_ids ticked t
  = Ok (map V10App.group_id (V10App.group_rows t)).
Proof.
  intros Hno Hid. unfold V10App.get_user_group_ids.
  assert (Hsel : forall p, V10App.selected_options ticked p = []).
  { intros [param options]. unfold V10App.selected_options. simpl.
    induction options as [|o options IH]; simpl; [done|]. by rewrite Hno. }
  unfold V10App.params. cbn [foldl]. unfold V10App.filter_step.
  cbn [mbind result_bind]. rewrite !Hsel. cbn [mbind result_bind].
  by rewrite bool_decide_true.
Qed.

Lemma get_user_group_ids_nothing_ticked_witness :
  V10App.get_user_group_ids (fun _ _ => false) sample_groups
  = Ok [1; 2; 3; 4; 5; 6; 7; 8; 9; 10; 11; 12]%Z.
Proof.
  rewrite (get_user_group_ids_nothing_ticked (fun _ _ => false) sample_groups).
  - reflexivity.
  - reflexivity.
  - repeat constructor.
Defined.

Lemma filter_loop_Raise (ticked : string -> string -> bool) (e : exn)
    (ps : list (string * list string)) :
  foldl (V10App.filter_step ticked) (Raise e) ps = Raise e.
Proof. induction ps as [|p ps IH]; [done|]. exact IH. Qed.

Lemma filter_loop_cases (ticked : string -> string -> bool)
    (ps : list (string * list string)) (t : V10App.GroupTable) :
  (Exists (fun p => (p.1 ∉ V10App.group_columns t)
                    /\ V10App.selected_options ticked p <> []) ps
   /\ foldl (V10App.filter_step ticked) (Ok t) ps = Raise KeyError)
  \/ (Forall (fun p => p.1 ∈ V10App.group_columns t
                       \/ V10App.selected_options ticked p = []) ps
      /\ exists t', foldl (V10App.filter_step ticked) (Ok t) ps = Ok t'
                    /\ V10App.group_columns t' = V10App.group_columns t).
Proof.
  revert t. induction ps as [|p ps IH]; intros t.
  - right. split; [constructor|]. by exists t.
  - cbn [foldl].
    assert (Hstep : V10App.filter_step ticked (Ok t) p
                    = match V10App.selected_options ticked p with
                      | [] => Ok t
                      | selected => V10App.isin_filter p.1 selected t
                      end) by reflexivity.
    rewrite !Hstep. clear Hstep.
    destruct (V10App.selected_options ticked p) as [|o sel] eqn:E.
    + destruct (IH t) as [[Hex Hr]|[Hall Hok]].
      * left. split; [by apply Exists_cons_tl | done].
      * right. split; [|done]. constructor; [by right | done].
    + unfold V10App.isin_filter.
      destruct (decide (p.1 ∈ V10App.group_columns t)) as [Hin|Hnin].
      * rewrite bool_decide_true by done.
        match goal with
        | |- context [foldl _ (Ok ?u) ps] => destruct (IH u) as [[Hex Hr]|[Hall Hok]]
        end.
        -- left. split; [by apply Exists_cons_tl | done].
        -- right. split; [constructor; [by left | done] | done].
      * rewrite bool_decide_false by done. left.
        split; [|apply filter_loop_Raise].
        apply Exists_cons_hd. split; [done|]. by rewrite E.
Qed.

(** [get_user_group_ids] raises KeyError exactly when groupid.csv lacks the
    column "Group ID" or lacks the column of a parameter that has a ticked
    option; a missing parameter column is not noticed while none of its
    options is ticked. *)
Theorem get_user_group_ids_KeyError (ticked : string -> string -> bool)
    (t : V10App.GroupTable) :
  V10App.get_user_group_ids ticked t = Raise KeyError
  <-> (("Group ID" ∉ V10App.group_columns t)
       \/ Exists (fun p => (p.1 ∉ V10App.group_columns t)
                           /\ V10App.selected_options ticked p <> [])
                 V10App.params).
Proof.
  unfold V10App.get_user_group_ids.
  destruct (filter_loop_cases ticked V10App.params t)
    as [[Hex ->]|[Hall (t' & -> & Hcols)]]; cbn [mbind result_bind].
  - split; [by right | done].
  - rewrite Hcols.
    destruct (decide ("Group ID" ∈ V10App.group_columns t)) as [Hin|Hnin].
    + rewrite bool_decide_true by done. split; [discriminate|].
      intros [Hn|Hex]; [done|]. exfalso.
      apply Exists_exists in Hex as (p & Hp & Hmiss & Hsel).
      rewrite Forall_forall in Hall. by destruct (Hall p Hp).
    + rewrite bool_decide_false by done. split; [by left | done].
Qed.

(** ** The dimensions and ratings of a query *)

Lemma filter_sublist {A} (f : A -> bool) (l : list A) :
  List.filter f l `sublist_of` l.
Proof.
  induction l as [|x l IH]; simpl; [constructor|].
  destruct (f x); by constructor.
Qed.

Lemma map_fst_sublist {A B} (l1 l2 : list (A * B)) :
  l1 `sublist_of` l2 -> map fst l1 `sublist_of` map fst l2.
Proof. induction 1; simpl; by constructor. Qed.

Lemma display_of_dimension (d : string) :
  d ∈ dimension_display -> exists label, V10App.display_of d = Ok label.
Proof.
  unfold dimension_display. rewrite !elem_of_cons, elem_of_nil. intros H.
  repeat (destruct H as [->|H]; [eexists; vm_compute; reflexivity|]). done.
Qed.

Lemma communication_levels_NoDup : NoDup (map fst V10App.communication_levels).
Proof. apply (bool_decide_unpack _). vm_compute. reflexivity. Qed.

Lemma communication_levels_dimensions :
  map fst V10App.communication_levels ⊆ dimension_display.
Proof.
  intros d. simpl. rewrite !elem_of_cons, elem_of_nil. intros H.
  unfold dimension_display.
  repeat (destruct H as [->|H]; [repeat constructor|]). done.
Qed.

Lemma get_target_dimensions_ratings_Ok (checkbox : string -> bool)
    (slider : string -> Q) :
  exists user_ratings selected_dimensions,
    V10App.get_target_dimensions_ratings checkbox slider
    = Ok (user_ratings, selected_dimensions)
    /\ selected_dimensions `sublist_of` map fst V10App.communication_levels
    /\ length user_ratings = length selected_dimensions.
Proof.
  set (sel := map fst (List.filter (fun p => checkbox p.2) checkbox_order)).
  assert (Hsub : sel `sublist_of` map fst V10App.communication_levels).
  { apply (map_fst_sublist _ checkbox_order), filter_sublist. }
  destruct (mapR_Ok_total (fun dimension =>
              display_dimension ← V10App.display_of dimension;
              Ok (slider ("Please Weight " +:+ display_dimension))) sel)
    as (ratings & Hr & Hlen).
  { intros d Hd. eapply elem_of_sublist in Hd; [|exact Hsub].
    destruct (display_of_dimension d (communication_levels_dimensions d Hd))
      as (l & ->).
    simpl. eauto. }
  exists ratings, sel. split; [|by split].
  unfold V10App.get_target_dimensions_ratings.
  change V10App.level_lists with
    (Ok (take 7 checkbox_order, take 5 (drop 7 checkbox_order),
         drop 12 checkbox_order)).
  cbn [mbind result_bind].
  replace (map fst (List.filter (fun p => checkbox p.2) (take 7 checkbox_order))
           ++ map fst (List.filter (fun p => checkbox p.2)
                         (take 5 (drop 7 checkbox_order)))
           ++ map fst (List.filter (fun p => checkbox p.2)
                         (drop 12 checkbox_order)))
    with sel.
  - by rewrite Hr.
  - subst sel. rewrite <- !map_app, <- !List.filter_app. reflexivity.
Qed.

(** Whatever boxes are ticked, [get_target_dimensions_ratings] returns
    without exception; the selected dimensions are pairwise different, each
    one of the nineteen, in the order Status, Appeal, Brand Identity (not in
    the order of the rating columns), and there is exactly one rating per
    selected dimension. *)
Theorem get_target_dimensions_ratings_well_formed (checkbox : string -> bool)
    (slider : string -> Q) :
  exists user_ratings selected_dimensions,
    V10App.get_target_dimensions_ratings checkbox slider
    = Ok (user_ratings, selected_dimensions)
    /\ NoDup selected_dimensions
    /\ selected_dimensions ⊆ dimension_display
    /\ selected_dimensions `sublist_of` map fst V10App.communication_levels
    /\ length user_ratings = length selected_dimensions
    /\ original_dimensions selected_dimensions = selected_dimensions.
Proof.
  destruct (get_target_dimensions_ratings_Ok checkbox slider)
    as (ratings & sel & Hq & Hsub & Hlen).
  assert (Hin : sel ⊆ dimension_display).
  { intros d Hd. apply communication_levels_dimensions.
    by eapply elem_of_sublist. }
  exists ratings, sel. split; [exact Hq|]. split; [|split; [|split; [|split]]].
  - eapply sublist_NoDup; [|exact Hsub]. apply communication_levels_NoDup.
  - exact Hin.
  - exact Hsub.
  - exact Hlen.
  - unfold original_dimensions. rewrite <- (List.map_id sel) at 2.
    apply map_ext_in. intros d Hd. apply list_elem_of_In, Hin in Hd.
    revert Hd. unfold dimension_display. rewrite !elem_of_cons, elem_of_nil.
    intros H. repeat (destruct H as [->|H]; [reflexivity|]). done.
Qed.

(** ** The filter loop as filter-then-cut *)

Lemma filter_loop_take_filter (pass : nat -> result bool) (p : nat -> bool)
    (top_n : Z) (ranked acc : list nat) :
  (forall i, i ∈ ranked -> pass i = Ok (p i)) ->
  (Z.of_nat (length acc) < top_n)%Z ->
  filter_loop pass top_n ranked acc
  = Ok (acc ++ take (Z.to_nat top_n - length acc) (List.filter p ranked)).
Proof.
  revert acc. induction ranked as [|i ranked IH]; intros acc Hpass Hlt; simpl.
  - by rewrite take_nil, app_nil_r.
  - rewrite (Hpass i) by left. simpl.
    assert (Hrest : forall j, j ∈ ranked -> pass j = Ok (p j))
      by (intros j Hj; apply Hpass; by right).
    destruct (p i).
    + rewrite length_app. simpl.
      destruct (Z.leb_spec top_n (Z.of_nat (length acc + 1))) as [Hle|Hgt].
      * assert (Z.to_nat top_n - length acc = 1)%nat as -> by lia.
        simpl. by rewrite take_0.
      * rewrite IH by (try done; rewrite length_app; simpl; lia).
        rewrite length_app. simpl. rewrite <- app_assoc. simpl.
        replace (Z.to_nat top_n - length acc)%nat
          with (S (Z.to_nat top_n - (length acc + 1)))%nat by lia.
        reflexivity.
    + destruct (Z.leb_spec top_n (Z.of_nat (length acc))); [lia|].
      by apply IH.
Qed.

(** When the test of every ranked candidate returns without exception and
    [top_n >= 1], the loop returns the first [top_n] of the candidates that
    pass, in ranking order: all of them when fewer than [top_n] pass, and
    exactly [top_n] otherwise. *)
Theorem filter_loop_is_filter_then_cut (pass : nat -> result bool)
    (p : nat -> bool) (top_n : Z) (ranked : list nat) :
  (1 <= top_n)%Z ->
  (forall i, i ∈ ranked -> pass i = Ok (p i)) ->
  exists out,
    filter_loop pass top_n ranked [] = Ok out
    /\ out = take (Z.to_nat top_n) (List.filter p ranked)
    /\ ((Z.of_nat (length (List.filter p ranked)) < top_n)%Z ->
        out = List.filter p ranked)
    /\ ((top_n <= Z.of_nat (length (List.filter p ranked)))%Z ->
        Z.of_nat (length out) = top_n).
Proof.
  intros Hn Hpass. eexists. split; [|split; [reflexivity|split]].
  - rewrite (filter_loop_take_filter pass p) by (try done; simpl; lia).
    simpl. by rewrite Nat.sub_0_r.
  - intros Hfew. apply take_ge. lia.
  - intros Hmany. rewrite length_take. lia.
Qed.

Lemma filter_loop_is_filter_then_cut_witness :
  exists out,
    filter_loop (fun i => Ok (Nat.even i)) 2 [5; 4; 3; 2; 0]%nat [] = Ok out
    /\ out = [4; 2]%nat.
Proof.
  destruct (filter_loop_is_filter_then_cut (fun i => Ok (Nat.even i))
              Nat.even 2 [5; 4; 3; 2; 0]%nat ltac:(lia)
              (fun i _ => eq_refl)) as (out & Hout & Heq & _).
  exists out. split; [exact Hout | exact Heq].
Defined.

(** ** Thresholds and scores *)

Lemma group_scores_values (df : DataFrame) (offset : Z) (groups : list Z)
    (index : nat) (r : gmap string cell) (f : Z -> cell) :
  rows df !! index = Some r ->
  (forall g, g ∈ groups -> r !! str (g + offset) = Some (f g)) ->
  V10.group_scores df offset groups index = Ok (map f groups).
Proof.
  intros Hr Hf. unfold V10.group_scores. apply mapR_map_total.
  intros g Hg. unfold iloc. rewrite Hr. simpl. unfold row_get.
  by rewrite (Hf g Hg).
Qed.

Lemma cell_sum_Num (qs : list Q) :
  cell_sum (map Num qs) = Num (foldr Qplus 0 qs).
Proof. induction qs as [|q qs IH]; simpl; [done|]. by rewrite IH. Qed.

Lemma foldr_Qplus_nonneg (qs : list Q) :
  Forall (fun q => 0 <= q) qs -> 0 <= foldr Qplus 0 qs.
Proof.
  induction 1 as [|q qs Hq _ IH]; simpl; [apply Qle_refl|].
  exact (Qplus_le_compat 0 _ 0 _ Hq IH).
Qed.

Lemma np_mean_Num (qs : list Q) :
  qs <> [] ->
  np_mean (map Num qs)
  = Num (foldr Qplus 0 qs / inject_Z (Z.of_nat (length qs))).
Proof.
  intros Hne. destruct qs as [|q qs]; [done|].
  unfold np_mean. cbn [map].
  change (Num q :: map Num qs) with (map Num (q :: qs)).
  by rewrite cell_sum_Num, length_map.
Qed.

Lemma inject_Z_length_pos {A} (l : list A) :
  l <> [] -> 0 < inject_Z (Z.of_nat (length l)).
Proof.
  intros H. destruct l; [done|]. unfold Qlt, inject_Z. simpl. lia.
Qed.

Lemma np_mean_nonneg (qs : list Q) (t : Q) :
  qs <> [] -> Forall (fun q => 0 <= q) qs -> t <= 0 ->
  cell_ge (np_mean (map Num qs)) t = true.
Proof.
  intros Hne Hpos Ht. rewrite np_mean_Num by done. simpl.
  apply Qle_bool_iff. eapply Qle_trans; [exact Ht|].
  apply Qle_shift_div_l; [by apply inject_Z_length_pos|].
  rewrite Qmult_0_l. by apply foldr_Qplus_nonneg.
Qed.

(** With both sliders at 0 (their initial value), at least one group
    selected and every score of the selected groups a non-negative number,
    the v10.0 filter keeps every candidate: the result is the first [top_n]
    positions of the ranking. *)
Theorem v10_default_sliders_keep_the_ranking (st : V10.session_state)
    (df : DataFrame) (user_group_ids : list Z) (top_n : Z)
    (ranked : list nat) (liking familiarity : nat -> Z -> Q) :
  V10.MIN_LIKING st <= 0 -> V10.MIN_FAMILIARITY st <= 0 ->
  user_group_ids <> [] ->
  (1 <= top_n)%Z ->
  (forall i, i ∈ ranked -> exists r,
     rows df !! i = Some r
     /\ forall g, g ∈ user_group_ids ->
          r !! str g = Some (Num (liking i g)) /\ 0 <= liking i g
          /\ r !! str (g + 12) = Some (Num (familiarity i g))
          /\ 0 <= familiarity i g) ->
  V10.filter_top_n st df user_group_ids top_n ranked
  = Ok (take (Z.to_nat top_n) ranked).
Proof.
  intros Hl Hf Hne Hn Hrows. unfold V10.filter_top_n.
  rewrite (filter_loop_take_filter _ (fun _ => true)); try (simpl; lia).
  - simpl. rewrite Nat.sub_0_r. f_equal. f_equal.
    by apply filter_true.
  - intros i Hi. destruct (Hrows i Hi) as (r & Hr & Hs).
    unfold V10.passes.
    rewrite (group_scores_values df 0 user_group_ids i r
               (fun g => Num (liking i g)) Hr)
      by (intros g Hg; rewrite Z.add_0_r; by apply Hs).
    cbn [mbind result_bind].
    rewrite (group_scores_values df 12 user_group_ids i r
               (fun g => Num (familiarity i g)) Hr)
      by (intros g Hg; by apply Hs).
    cbn [mbind result_bind].
    rewrite <- (List.map_map (liking i) Num user_group_ids).
    rewrite <- (List.map_map (familiarity i) Num user_group_ids).
    assert (Hscores : forall (f : Z -> Q),
              (forall g, g ∈ user_group_ids -> 0 <= f g) ->
              forall t, t <= 0 ->
              cell_ge (np_mean (map Num (map f user_group_ids))) t = true).
    { intros f Hpos t Ht. apply np_mean_nonneg; [|
        apply Forall_forall; intros q Hq;
        apply list_elem_of_In, in_map_iff in Hq as (g & <- & Hg);
        apply list_elem_of_In in Hg; by apply Hpos | done].
      destruct user_group_ids; done. }
    rewrite !Hscores; try done; intros g Hg; by apply Hs.
Qed.

Lemma v10_default_sliders_keep_the_ranking_witness :
  V10.filter_top_n sliders0 catalog3 [1%Z] 2 [1; 0; 2]%nat = Ok [1; 0]%nat.
Proof.
  refine (v10_default_sliders_keep_the_ranking sliders0 catalog3 [1%Z] 2
            [1; 0; 2]%nat (fun _ _ => 60) (fun _ _ => 70) _ _ _ _ _).
  - vm_compute. discriminate.
  - vm_compute. discriminate.
  - discriminate.
  - lia.
  - intros i Hi.
    assert (Hg : forall (P : Z -> Prop), P 1%Z ->
                 forall g, g ∈ [1%Z] -> P g).
    { intros P HP g Hg. apply list_elem_of_singleton in Hg. by subst. }
    rewrite !elem_of_cons, elem_of_nil in Hi.
    destruct Hi as [->|[->|[->|[]]]]; eexists; (split; [reflexivity|]);
      apply Hg; repeat split; try reflexivity; vm_compute; discriminate.
Defined.

(** Lowering the sliders never turns a candidate away: a row that passes the
    v10.0 conditions under thresholds [st'] passes under any [st] with
    thresholds not above those of [st']. *)
Theorem v10_passes_monotone (st st' : V10.session_state) (df : DataFrame)
    (user_group_ids : list Z) (index : nat) :
  V10.MIN_LIKING st <= V10.MIN_LIKING st' ->
  V10.MIN_FAMILIARITY st <= V10.MIN_FAMILIARITY st' ->
  V10.passes st' df user_group_ids index = Ok true ->
  V10.passes st df user_group_ids index = Ok true.
Proof.
  intros Hl Hf. unfold V10.passes.
  destruct (V10.group_scores df 0 user_group_ids index) as [ls|]; [|done].
  cbn [mbind result_bind].
  destruct (V10.group_scores df 12 user_group_ids index) as [fs|]; [|done].
  cbn [mbind result_bind]. intros [= H]. apply andb_true_iff in H as [H1 H2].
  f_equal. apply andb_true_iff. split.
  - destruct (np_mean ls) as [|m]; [done|]. simpl in *.
    apply Qle_bool_iff. apply Qle_bool_iff in H1. by eapply Qle_trans.
  - destruct (np_mean fs) as [|m]; [done|]. simpl in *.
    apply Qle_bool_iff. apply Qle_bool_iff in H2. by eapply Qle_trans.
Qed.

Lemma v10_passes_monotone_witness :
  V10.passes sliders0 catalog3 [1%Z] 0 = Ok true.
Proof.
  refine (v10_passes_monotone sliders0
            {| V10.MIN_LIKING := 50; V10.MIN_FAMILIARITY := 60 |}
            catalog3 [1%Z] 0 _ _ _).
  - vm_compute. discriminate.
  - vm_compute. discriminate.
  - vm_compute. reflexivity.
Defined.

(** ** The displayed scores against the filter *)

Lemma cell_int_inject_Z (z : Z) : cell_int (inject_Z z) = z.
Proof. unfold cell_int. simpl. apply Z.quot_1_r. Qed.

Lemma foldr_Qplus_inject_Z (zs : list Z) :
  foldr Qplus 0 (map inject_Z zs) == inject_Z (foldr Z.add 0%Z zs).
Proof.
  induction zs as [|z zs IH]; simpl; [reflexivity|].
  rewrite IH, <- inject_Z_plus. reflexivity.
Qed.

(** A sound that passes the liking test of the v10.0 filter is displayed with
    a liking of at least the threshold, provided the threshold and the scores
    of the selected groups are whole numbers (as the slider and the data
    are). *)
Theorem v10_displayed_liking_reaches_the_threshold (st : V10.session_state)
    (df : DataFrame) (user_group_ids : list Z) (index : nat)
    (r : gmap string cell) (threshold : Z) (liking : Z -> Z) :
  user_group_ids <> [] ->
  V10.MIN_LIKING st = inject_Z threshold ->
  rows df !! index = Some r ->
  (forall g, g ∈ user_group_ids ->
     r !! str g = Some (Num (inject_Z (liking g)))) ->
  V10.passes st df user_group_ids index = Ok true ->
  (threshold <= (V10.AudioScoreCalculator.calculate_scores user_group_ids r).1)%Z.
Proof.
  intros Hne Ht Hr Hs Hpass.
  unfold V10.passes in Hpass.
  rewrite (group_scores_values df 0 user_group_ids index r
             (fun g => Num (inject_Z (liking g))) Hr) in Hpass
    by (intros g Hg; rewrite Z.add_0_r; by apply Hs).
  cbn [mbind result_bind] in Hpass.
  destruct (V10.group_scores df 12 user_group_ids index); [|done].
  cbn [mbind result_bind] in Hpass. injection Hpass as Hpass.
  apply andb_true_iff in Hpass as [Hpass _].
  rewrite <- (List.map_map (fun g => inject_Z (liking g)) Num) in Hpass.
  rewrite np_mean_Num in Hpass by (destruct user_group_ids; done).
  simpl in Hpass. apply Qle_bool_iff in Hpass.
  rewrite Ht, length_map in Hpass.
  rewrite <- (List.map_map liking inject_Z), foldr_Qplus_inject_Z in Hpass.
  assert (Hlen : (0 < Z.of_nat (length user_group_ids))%Z)
    by (destruct user_group_ids; [done | simpl; lia]).
  pose proof Hlen as Hlen'. rewrite Zlt_Qlt in Hlen'.
  apply (Qmult_le_compat_r _ _ (inject_Z (Z.of_nat (length user_group_ids))))
    in Hpass; [|by apply Qlt_le_weak].
  rewrite (Qmult_comm (_ / _)), Qmult_div_r in Hpass
    by (intros E; rewrite E in Hlen'; by apply Qlt_irrefl in Hlen').
  rewrite <- inject_Z_mult, <- Zle_Qle in Hpass.
  unfold V10.AudioScoreCalculator.calculate_scores.
  rewrite calculate_scores_loop. cbn beta iota zeta. rewrite !Z.add_0_l.
  destruct (Z.ltb_spec 0 (Z.of_nat (length user_group_ids))); [|lia].
  cbn [fst]. apply Z.div_le_lower_bound; [done|].
  replace (foldr Z.add 0%Z
             (map (fun id => spec_score r (str (id + 0))) user_group_ids))
    with (foldr Z.add 0%Z (map liking user_group_ids)); [lia|].
  f_equal. apply map_ext_in. intros g Hg. apply list_elem_of_In in Hg.
  unfold spec_score. rewrite Z.add_0_r, (Hs g Hg). by rewrite cell_int_inject_Z.
Qed.

Lemma v10_displayed_liking_reaches_the_threshold_witness :
  (50 <= (V10.AudioScoreCalculator.calculate_scores [1%Z]
            {[ "urgency" := Num (5 # 10); "1" := Num 60; "13" := Num 70 ]}).1)%Z.
Proof.
  refine (v10_displayed_liking_reaches_the_threshold
            {| V10.MIN_LIKING := 50; V10.MIN_FAMILIARITY := 0 |}
            catalog3 [1%Z] 0 _ 50 (fun _ => 60%Z) _ _ _ _ _).
  - discriminate.
  - reflexivity.
  - reflexivity.
  - intros g Hg. apply list_elem_of_singleton in Hg as ->. reflexivity.
  - vm_compute. reflexivity.
Defined.

(** The displayed scores do not depend on the order in which the selected
    groups are listed. *)
Theorem calculate_scores_permutation (groups groups' : list Z)
    (row : gmap string cell) :
  groups ≡ₚ groups' ->
  V10.AudioScoreCalculator.calculate_scores groups row
  = V10.AudioScoreCalculator.calculate_scores groups' row.
Proof.
  intros Hp. unfold V10.AudioScoreCalculator.calculate_scores.
  rewrite !calculate_scores_loop.
  assert (Hsum : forall f : Z -> Z,
            foldr Z.add 0%Z (map f groups) = foldr Z.add 0%Z (map f groups')).
  { intros f. induction Hp as [|x l l' _ IH|x y l|l l' l'' _ IH1 _ IH2];
      simpl; [done|by rewrite IH|lia|congruence]. }
  rewrite (Hsum (fun id => spec_score row (str (id + 0)))).
  rewrite (Hsum (fun id => spec_score row (str (id + 12)))).
  by rewrite (Permutation_length Hp).
Qed.

Lemma calculate_scores_permutation_witness :
  V10.AudioScoreCalculator.calculate_scores [1; 2]%Z {[ "1" := Num 60 ]}
  = V10.AudioScoreCalculator.calculate_scores [2; 1]%Z {[ "1" := Num 60 ]}.
Proof.
  exact (calculate_scores_permutation [1; 2]%Z [2; 1]%Z {[ "1" := Num 60 ]}
           (perm_swap _ _ _)).
Defined.

(** The displayed averages stay within the bounds of the scores: if the
    integer score of every selected group (0 for a missing or undefined one)
    lies between [lo] and [hi], so do the displayed liking and
    familiarity. *)
Theorem calculate_scores_bounds (groups : list Z) (row : gmap string cell)
    (lo hi : Z) :
  groups <> [] ->
  (forall g, g ∈ groups ->
     (lo <= V10.AudioScoreCalculator.nan_to_zero_int
              (default (Num 0) (row !! str g)) <= hi)%Z
     /\ (lo <= V10.AudioScoreCalculator.nan_to_zero_int
                 (default (Num 0) (row !! str (g + 12))) <= hi)%Z) ->
  (lo <= (V10.AudioScoreCalculator.calculate_scores groups row).1 <= hi)%Z
  /\ (lo <= (V10.AudioScoreCalculator.calculate_scores groups row).2 <= hi)%Z.
Proof.
  intros Hne Hb.
  assert (Hb' : forall g, g ∈ groups ->
            (lo <= spec_score row (str g) <= hi)%Z
            /\ (lo <= spec_score row (str (g + 12)) <= hi)%Z).
  { intros g Hg. rewrite <- !nan_to_zero_int_spec_score. by apply Hb. }
  clear Hb. rename Hb' into Hb.
  unfold V10.AudioScoreCalculator.calculate_scores.
  rewrite calculate_scores_loop. cbn beta iota zeta. rewrite !Z.add_0_l.
  assert (Hlen : (0 < Z.of_nat (length groups))%Z)
    by (destruct groups; [done | simpl; lia]).
  destruct (Z.ltb_spec 0 (Z.of_nat (length groups))); [|lia]. cbn [fst snd].
  assert (Hsum : forall f : Z -> Z,
            (forall g, g ∈ groups -> (lo <= f g <= hi)%Z) ->
            (lo * Z.of_nat (length groups)
             <= foldr Z.add 0%Z (map f groups)
             <= hi * Z.of_nat (length groups))%Z).
  { intros f Hf. clear Hne Hb Hlen H.
    induction groups as [|g groups IH]; [simpl; lia|].
    cbn [map foldr length]. rewrite Nat2Z.inj_succ.
    pose proof (Hf g ltac:(left)).
    assert (forall g', g' ∈ groups -> (lo <= f g' <= hi)%Z)
      by (intros g' Hg'; apply Hf; by right).
    specialize (IH ltac:(done)). lia. }
  split.
  - destruct (Hsum (fun id => spec_score row (str (id + 0)))) as [H1 H2].
    { intros g Hg. rewrite Z.add_0_r. by apply Hb. }
    split; [apply Z.div_le_lower_bound; lia|].
    apply Z.div_le_upper_bound; lia.
  - destruct (Hsum (fun id => spec_score row (str (id + 12)))) as [H1 H2].
    { intros g Hg. by apply Hb. }
    split; [apply Z.div_le_lower_bound; lia|].
    apply Z.div_le_upper_bound; lia.
Qed.

Lemma calculate_scores_bounds_witness :
  (0 <= (V10.AudioScoreCalculator.calculate_scores [1; 2]%Z
           {[ "1" := Num 60 ]}).1 <= 60)%Z
  /\ (0 <= (V10.AudioScoreCalculator.calculate_scores [1; 2]%Z
              {[ "1" := Num 60 ]}).2 <= 60)%Z.
Proof.
  apply (calculate_scores_bounds [1; 2]%Z {[ "1" := Num 60 ]} 0 60).
  - discriminate.
  - intros g Hg.
    apply elem_of_cons in Hg as [->|Hg];
      [|apply elem_of_cons in Hg as [->|Hg]; [|by apply elem_of_nil in Hg]];
      vm_compute; intuition discriminate.
Defined.

(** ** Labels and keys *)

Lemma split_space_head_app (d rest : string) :
  has_space d = false ->
  split_space_head (d +:+ String " " rest) = d.
Proof.
  induction d as [|a d IH]; simpl; [done|].
  intros H. apply orb_false_iff in H as [Ha Hd]. rewrite Ha.
  by rewrite IH.
Qed.

(** The bilingual label of a dimension leads back to the dimension: for a
    dimension whose name has no blank and has a translation,
    [get_bilingual_dimension(d).split(' ')[0]] is [d] again, which is how
    eucdisMax.py (and v2.0, v3.0) recover the column names from the
    selection. *)
Theorem bilingual_label_round_trip (dimension_translations : gmap string string)
    (dimension label : string) :
  has_space dimension = false ->
  get_bilingual_dimension dimension_translations dimension = Ok label ->
  split_space_head label = dimension.
Proof.
  intros Hsp H. unfold get_bilingual_dimension in H.
  destruct (dimension_translations !! dimension) as [t|]; [|discriminate].
  simpl in H. injection H as <-.
  change (" (" +:+ t +:+ ")") with (String " " ("(" +:+ t +:+ ")")).
  by apply split_space_head_app.
Qed.

Lemma bilingual_label_round_trip_witness :
  split_space_head "being_ready (bereit sein)" = "being_ready".
Proof.
  exact (bilingual_label_round_trip {[ "being_ready" := "bereit sein" ]}
           "being_ready" "being_ready (bereit sein)" eq_refl eq_refl).
Defined.

(** ** The single closest sound ([np.argmin]) *)

Lemma argmin_from_NaN_best (l : list dist) (bi i : nat) :
  argmin_from bi DNaN i l = bi.
Proof. revert i. induction l as [|k l IH]; intros i; simpl; [done|apply IH]. Qed.

Lemma argmin_from_first_NaN (l : list dist) (bi : nat) (bq : Q) (i : nat) :
  DNaN ∈ l ->
  exists k, argmin_from bi (DSqrt bq) i l = (i + k)%nat
            /\ l !! k = Some DNaN
            /\ forall j, (j < k)%nat -> l !! j <> Some DNaN.
Proof.
  revert bi bq i. induction l as [|k0 l IH]; intros bi bq i Hin.
  - by apply elem_of_nil in Hin.
  - destruct k0 as [|x].
    + exists 0%nat. simpl. rewrite argmin_from_NaN_best.
      split; [lia|]. split; [done | intros j Hj; lia].
    + apply elem_of_cons in Hin as [Hin|Hin]; [discriminate|].
      simpl. destruct (negb (Qle_bool bq x)).
      * destruct (IH i x (S i) Hin) as (k & -> & Hk & Hfirst).
        exists (S k). split; [lia|]. split; [done|].
        intros [|j] Hj; simpl; [done | apply Hfirst; lia].
      * destruct (IH bi bq (S i) Hin) as (k & -> & Hk & Hfirst).
        exists (S k). split; [lia|]. split; [done|].
        intros [|j] Hj; simpl; [done | apply Hfirst; lia].
Qed.

Lemma np_argmin_first_NaN (ks : list dist) (c : nat) :
  DNaN ∈ ks -> np_argmin ks = Ok c ->
  ks !! c = Some DNaN /\ forall j, (j < c)%nat -> ks !! j <> Some DNaN.
Proof.
  intros Hin H. destruct ks as [|k0 l]; [discriminate|]. injection H as <-.
  destruct k0 as [|x].
  - rewrite argmin_from_NaN_best. split; [done | intros j Hj; lia].
  - apply elem_of_cons in Hin as [Hin|Hin]; [discriminate|].
    destruct (argmin_from_first_NaN l 0 x 1 Hin) as (k & -> & Hk & Hfirst).
    split; [done|]. intros [|j] Hj; simpl; [done | apply Hfirst; lia].
Qed.

Lemma argmin_from_bound (l : list dist) (bi : nat) (b : dist) (i : nat) :
  (bi < i)%nat -> (argmin_from bi b i l < i + length l)%nat.
Proof.
  revert bi b i. induction l as [|k l IH]; intros bi b i Hlt; simpl; [lia|].
  destruct (argmin_better k b).
  - specialize (IH i k (S i)). lia.
  - specialize (IH bi b (S i)). lia.
Qed.

Lemma distances_length (user_ratings : list Q) (dims : list string)
    (data : DataFrame) (ds : list dist) :
  EucdisMax.distances user_ratings dims data = Ok ds ->
  length ds = length (rows data).
Proof.
  unfold EucdisMax.distances. intros H.
  apply bind_Ok in H as (X & HX & H). apply bind_Ok in H as (diffs & Hd & H).
  injection H as <-. unfold sub_rows in Hd.
  destruct (broadcastable _ _); [|discriminate]. injection Hd as <-.
  unfold norm_axis1. rewrite !length_map. by eapply select_values_length.
Qed.

(** In the variants that return one sound, a sound with an undefined rating
    on a selected dimension wins: whenever some catalog entry has such a
    rating, [find_closest_sound] returns the first entry whose distance is
    undefined, not the entry at the smallest distance. *)
Theorem find_closest_sound_prefers_undefined (user_ratings : list Q)
    (dims : list string) (data : DataFrame) (ds : list dist) (i c : nat)
    (r : gmap string cell) (d : string) :
  length user_ratings = length dims ->
  rows data !! i = Some r -> d ∈ dims -> r !! d = Some NaN ->
  EucdisMax.distances user_ratings dims data = Ok ds ->
  EucdisMax.closest_index user_ratings dims data = Ok c ->
  ds !! c = Some DNaN
  /\ (c <= i)%nat
  /\ (forall j, (j < c)%nat -> ds !! j <> Some DNaN)
  /\ exists rc, EucdisMax.find_closest_sound user_ratings dims data = Ok rc
                /\ rows data !! c = Some rc.
Proof.
  intros Hlen Hi Hd Hr Hds Hc.
  assert (Hnan : ds !! i = Some DNaN)
    by (by eapply (euclidean_distance_NaN user_ratings dims data)).
  pose proof Hc as Hc'. unfold EucdisMax.closest_index in Hc'.
  rewrite Hds in Hc'. simpl in Hc'.
  destruct (np_argmin_first_NaN ds c) as [H1 H2];
    [by eapply list_elem_of_lookup_2 | done |].
  split; [done|]. split; [|split; [done|]].
  - destruct (decide (c <= i)%nat); [done|]. destruct (H2 i); [lia | done].
  - unfold EucdisMax.find_closest_sound. rewrite Hc. simpl.
    apply lookup_lt_Some in H1. rewrite (distances_length _ _ _ _ Hds) in H1.
    apply lookup_lt_is_Some in H1 as [rc Hrc]. exists rc.
    unfold iloc. by rewrite Hrc.
Qed.

Lemma find_closest_sound_prefers_undefined_witness :
  nan_distances !! 2%nat = Some DNaN
  /\ (2 <= 2)%nat
  /\ (forall j, (j < 2)%nat -> nan_distances !! j <> Some DNaN)
  /\ exists rc, EucdisMax.find_closest_sound [0] ["urgency"] catalog3_nan
                = Ok rc
                /\ rows catalog3_nan !! 2%nat = Some rc.
Proof.
  refine (find_closest_sound_prefers_undefined [0] ["urgency"] catalog3_nan
            nan_distances 2 2 _ "urgency" _ _ _ _ _ _).
  - reflexivity.
  - reflexivity.
  - constructor.
  - vm_compute. reflexivity.
  - vm_compute. reflexivity.
  - vm_compute. reflexivity.
Defined.

(** [find_closest_sound] on an empty catalog raises ValueError (there is no
    minimum to take); on a catalog with at least one sound, selected columns
    that exist and ratings that fit, it returns a row of the catalog. *)
Theorem find_closest_sound_result (user_ratings : list Q)
    (dims : list string) (data : DataFrame) (ds : list dist) :
  EucdisMax.distances user_ratings dims data = Ok ds ->
  (rows data = [] ->
   EucdisMax.find_closest_sound user_ratings dims data = Raise ValueError)
  /\ (rows data <> [] ->
      exists c rc,
        EucdisMax.closest_index user_ratings dims data = Ok c
        /\ EucdisMax.find_closest_sound user_ratings dims data = Ok rc
        /\ rows data !! c = Some rc).
Proof.
  intros Hds. pose proof (distances_length _ _ _ _ Hds) as Hlen.
  unfold EucdisMax.find_closest_sound, EucdisMax.closest_index.
  rewrite Hds. cbn [mbind result_bind]. split; intros Hrows.
  - rewrite Hrows in Hlen. destruct ds; [done | discriminate].
  - destruct ds as [|k l]; [by destruct (rows data)|]. simpl.
    pose proof (argmin_from_bound l 0 k 1 ltac:(lia)) as Hb.
    assert (Hlt : (argmin_from 0 k 1 l < length (rows data))%nat)
      by (rewrite <- Hlen; simpl; lia).
    apply lookup_lt_is_Some in Hlt as [rc Hrc].
    exists (argmin_from 0 k 1 l), rc. unfold iloc. by rewrite Hrc.
Qed.

Lemma find_closest_sound_result_witness :
  exists c rc,
    EucdisMax.closest_index [0] ["urgency"] catalog3 = Ok c
    /\ EucdisMax.find_closest_sound [0] ["urgency"] catalog3 = Ok rc
    /\ rows catalog3 !! c = Some rc.
Proof.
  refine (proj2 (find_closest_sound_result [0] ["urgency"] catalog3
                   scenario_distances _) _).
  - vm_compute. reflexivity.
  - discriminate.
Defined.

(** ** When the searches raise and when they return *)

Lemma select_values_missing_column (df : DataFrame) (dims : list string)
    (d : string) :
  d ∈ dims -> d ∉ columns df -> select_values df dims = Raise KeyError.
Proof.
  intros Hd Hcol. unfold select_values.
  destruct (forallb _ dims) eqn:E; [|done].
  rewrite forallb_forall in E. specialize (E d (proj1 (list_elem_of_In _ _) Hd)).
  by apply bool_decide_eq_true in E.
Qed.

(** A selected dimension that is not a column of the table makes every
    search raise KeyError, before any distance is computed. *)
Theorem search_missing_dimension_raises_KeyError
    (argsort : list dist -> list nat) (st : V10.session_state)
    (user_ratings : list Q) (dims : list string) (df : DataFrame)
    (inv_cov_matrix : matrix) (user_group_ids : list Z) (top_n : Z)
    (d : string) :
  d ∈ dims -> d ∉ columns df ->
  V10.find_closest_sounds_euclidean argsort st user_ratings dims df
    user_group_ids top_n = Raise KeyError
  /\ V10.find_closest_sounds_mahalanobis argsort st user_ratings dims df
       inv_cov_matrix user_group_ids top_n = Raise KeyError
  /\ V5.find_closest_sounds_euclidean argsort user_ratings dims df
       user_group_ids top_n = Raise KeyError
  /\ EucdisMax.find_closest_sound user_ratings dims df = Raise KeyError.
Proof.
  intros Hd Hcol. pose proof (select_values_missing_column df dims d Hd Hcol) as H.
  unfold V10.find_closest_sounds_euclidean, V10.euclidean_top_indices,
    V10.euclidean_distances, V10.find_closest_sounds_mahalanobis,
    V10.mahalanobis_top_indices, V10.mahalanobis_distances,
    V5.find_closest_sounds_euclidean, V5.euclidean_top_indices,
    V5.euclidean_distances, EucdisMax.find_closest_sound,
    EucdisMax.closest_index, EucdisMax.distances.
  rewrite H. done.
Qed.

Lemma search_missing_dimension_raises_KeyError_witness :
  V10.find_closest_sounds_euclidean insertion_argsort sliders0 [0] ["purity"]
    catalog3 [1%Z] 2 = Raise KeyError.
Proof.
  refine (proj1 (search_missing_dimension_raises_KeyError insertion_argsort
                   sliders0 [0] ["purity"] catalog3 [[Num 1]] [1%Z] 2
                   "purity" _ _)).
  - constructor.
  - unfold catalog3. simpl. rewrite !elem_of_cons, elem_of_nil.
    intros [H|[H|[H|[]]]]; discriminate H.
Defined.

(** A number of ratings that does not fit the selected dimensions (neither
    equal in number nor a single one on either side) makes the Euclidean
    search raise ValueError. *)
Theorem search_unaligned_ratings_raise_ValueError
    (argsort : list dist -> list nat) (st : V10.session_state)
    (user_ratings : list Q) (dims : list string) (df : DataFrame)
    (user_group_ids : list Z) (top_n : Z) (X : list (list cell)) :
  select_values df dims = Ok X ->
  length user_ratings <> length dims ->
  length user_ratings <> 1%nat -> length dims <> 1%nat ->
  V10.find_closest_sounds_euclidean argsort st user_ratings dims df
    user_group_ids top_n = Raise ValueError.
Proof.
  intros HX H1 H2 H3.
  unfold V10.find_closest_sounds_euclidean, V10.euclidean_top_indices,
    V10.euclidean_distances, sub_rows.
  rewrite HX. cbn [mbind result_bind]. unfold broadcastable.
  destruct (Nat.eqb_spec (length dims) (length user_ratings)); [congruence|].
  destruct (Nat.eqb_spec (length dims) 1); [congruence|].
  destruct (Nat.eqb_spec (length user_ratings) 1); [congruence|]. done.
Qed.

Lemma search_unaligned_ratings_raise_ValueError_witness :
  V10.find_closest_sounds_euclidean insertion_argsort sliders0 [0; 0; 0]
    ["urgency"; "1"] catalog3 [1%Z] 2 = Raise ValueError.
Proof.
  refine (search_unaligned_ratings_raise_ValueError insertion_argsort
            sliders0 [0; 0; 0] ["urgency"; "1"] catalog3 [1%Z] 2 _ _ _ _ _).
  - vm_compute. reflexivity.
  - simpl. lia.
  - simpl. lia.
  - simpl. lia.
Defined.

Lemma filter_loop_total (pass : nat -> result bool) (top_n : Z)
    (ranked acc : list nat) :
  (forall i, i ∈ ranked -> exists b, pass i = Ok b) ->
  exists out, filter_loop pass top_n ranked acc = Ok out.
Proof.
  revert acc. induction ranked as [|i ranked IH]; intros acc H; simpl; [eauto|].
  destruct (H i) as (b & ->); [left|]. simpl.
  destruct (top_n <=? _)%Z; [eauto|].
  apply IH. intros j Hj. apply H. by right.
Qed.

Lemma v10_passes_total (st : V10.session_state) (df : DataFrame)
    (groups : list Z) (i : nat) (r : gmap string cell) :
  rows df !! i = Some r ->
  (forall g, g ∈ groups ->
     is_Some (r !! str g) /\ is_Some (r !! str (g + 12))) ->
  exists b, V10.passes st df groups i = Ok b.
Proof.
  intros Hr Hs. unfold V10.passes.
  rewrite (group_scores_values df 0 groups i r
             (fun g => default NaN (r !! str g)) Hr).
  2:{ intros g Hg. rewrite Z.add_0_r. by destruct (Hs g Hg) as [[x ->] _]. }
  rewrite (group_scores_values df 12 groups i r
             (fun g => default NaN (r !! str (g + 12))) Hr).
  2:{ intros g Hg. by destruct (Hs g Hg) as [_ [x ->]]. }
  simpl. eauto.
Qed.

Lemma euclidean_distances_length (user_ratings : list Q) (dims : list string)
    (df : DataFrame) (ds : list dist) :
  V10.euclidean_distances user_ratings dims df = Ok ds ->
  length ds = length (rows df).
Proof. apply distances_length. Qed.

(** The Euclidean search of v10.0 returns without exception whenever the
    distances can be computed and every sound has the liking and familiarity
    columns of the selected groups; what it returns are rows of the catalog,
    each at most once. *)
Theorem v10_euclidean_search_returns_catalog_rows
    (argsort : list dist -> list nat) (st : V10.session_state)
    (user_ratings : list Q) (dims : list string) (df : DataFrame)
    (user_group_ids : list Z) (top_n : Z) (ds : list dist) :
  argsort_contract argsort ->
  V10.euclidean_distances user_ratings dims df = Ok ds ->
  (forall i r, rows df !! i = Some r ->
     forall g, g ∈ user_group_ids ->
       is_Some (r !! str g) /\ is_Some (r !! str (g + 12))) ->
  exists top_indices sounds,
    V10.euclidean_top_indices argsort st user_ratings dims df
      user_group_ids top_n = Ok top_indices
    /\ V10.find_closest_sounds_euclidean argsort st user_ratings dims df
         user_group_ids top_n = Ok sounds
    /\ NoDup top_indices
    /\ Forall2 (fun i r => rows df !! i = Some r) top_indices sounds.
Proof.
  intros Hc Hds Hcols. destruct (Hc ds) as [Hperm _].
  pose proof (euclidean_distances_length _ _ _ _ Hds) as Hlen.
  assert (Hrange : forall i, i ∈ argsort ds -> (i < length (rows df))%nat).
  { intros i Hi. rewrite Hperm in Hi. apply elem_of_seq in Hi. lia. }
  destruct (filter_loop_total (V10.passes st df user_group_ids) top_n
              (argsort ds) []) as (out & Hout).
  { intros i Hi. apply Hrange, lookup_lt_is_Some in Hi as [r Hr].
    eapply v10_passes_total; [exact Hr | by apply (Hcols i)]. }
  pose proof Hout as Hsub.
  apply filter_loop_Ok in Hsub as (kept & -> & Hsub & _). simpl in *.
  assert (Htop : V10.euclidean_top_indices argsort st user_ratings dims df
                   user_group_ids top_n = Ok kept).
  { unfold V10.euclidean_top_indices. rewrite Hds. exact Hout. }
  destruct (mapR_Ok_total (iloc df) kept) as (sounds & Hs & _).
  { intros i Hi. eapply elem_of_sublist in Hi; [|exact Hsub].
    apply Hrange, lookup_lt_is_Some in Hi as [r Hr].
    exists r. unfold iloc. by rewrite Hr. }
  exists kept, sounds. split; [exact Htop|]. split; [|split].
  - unfold V10.find_closest_sounds_euclidean, iloc_list. by rewrite Htop.
  - eapply sublist_NoDup; [|exact Hsub]. rewrite Hperm. apply NoDup_seq.
  - apply mapR_Ok_lookup in Hs as [Hl Hs].
    apply Forall2_same_length_lookup_2; [done|].
    intros j i r Hi Hr. destruct (Hs j i Hi) as (y & Hy & Hiloc).
    rewrite Hr in Hy. injection Hy as <-. unfold iloc in Hiloc.
    destruct (rows df !! i); [by injection Hiloc as -> | discriminate].
Qed.

Lemma v10_euclidean_search_returns_catalog_rows_witness :
  exists top_indices sounds,
    V10.euclidean_top_indices insertion_argsort sliders0 [0] ["urgency"]
      catalog3 [1%Z] 2 = Ok top_indices
    /\ V10.find_closest_sounds_euclidean insertion_argsort sliders0 [0]
         ["urgency"] catalog3 [1%Z] 2 = Ok sounds
    /\ NoDup top_indices
    /\ Forall2 (fun i r => rows catalog3 !! i = Some r) top_indices sounds.
Proof.
  refine (v10_euclidean_search_returns_catalog_rows insertion_argsort sliders0
            [0] ["urgency"] catalog3 [1%Z] 2 scenario_distances
            insertion_argsort_contract _ _).
  - vm_compute. reflexivity.
  - intros i r Hr g Hg. apply list_elem_of_singleton in Hg as ->.
    destruct i as [|[|[|i]]]; simpl in Hr; try discriminate;
      injection Hr as <-; split; eexists; reflexivity.
Defined.

(** ** Missing score columns *)

Lemma group_scores_cases (df : DataFrame) (offset : Z) (groups : list Z)
    (index : nat) (r : gmap string cell) :
  rows df !! index = Some r ->
  (Forall (fun g => is_Some (r !! str (g + offset))) groups
   /\ exists ys, V10.group_scores df offset groups index = Ok ys)
  \/ (Exists (fun g => r !! str (g + offset) = None) groups
      /\ V10.group_scores df offset groups index = Raise KeyError).
Proof.
  intros Hr. unfold V10.group_scores.
  assert (Hstep : forall g,
            (r0 ← iloc df index; row_get r0 (str (g + offset)))
            = row_get r (str (g + offset))).
  { intros g. unfold iloc. by rewrite Hr. }
  induction groups as [|g groups IH]; cbn [mapR].
  - left. split; [constructor | eauto].
  - rewrite Hstep.
    destruct (r !! str (g + offset)) as [x|] eqn:E.
    + assert (row_get r (str (g + offset)) = Ok x) as ->
        by (unfold row_get; by rewrite E).
      cbn [mbind result_bind].
      destruct IH as [[Hall (ys & ->)]|[Hex ->]]; cbn [mbind result_bind].
      * left. split; [constructor; [by rewrite E | done] | eauto].
      * right. split; [by apply Exists_cons_tl | done].
    + assert (row_get r (str (g + offset)) = Raise KeyError) as ->
        by (unfold row_get; by rewrite E).
      right. split; [by apply Exists_cons_hd | done].
Qed.

Lemma v10_passes_missing_column (st : V10.session_state) (df : DataFrame)
    (groups : list Z) (index : nat) (r : gmap string cell) (g : Z) :
  rows df !! index = Some r -> g ∈ groups ->
  r !! str g = None \/ r !! str (g + 12) = None ->
  V10.passes st df groups index = Raise KeyError.
Proof.
  intros Hr Hg Hmiss. unfold V10.passes.
  destruct (group_scores_cases df 0 groups index r Hr)
    as [[Hall0 (ys & ->)]|[_ ->]]; [|done].
  cbn [mbind result_bind].
  destruct (group_scores_cases df 12 groups index r Hr)
    as [[Hall12 (zs & Hzs)]|[_ ->]]; [|done].
  exfalso. rewrite Forall_forall in Hall0, Hall12.
  pose proof (Hall0 g Hg) as [x Hx]. pose proof (Hall12 g Hg) as [y Hy].
  rewrite Z.add_0_r in Hx. destruct Hmiss; congruence.
Qed.

(** A selected group whose liking or familiarity column no sound has makes
    the search of v10.0 raise KeyError on every non-empty catalog: the test
    of the first ranked candidate already fails. *)
Theorem v10_missing_score_column_raises_KeyError
    (argsort : list dist -> list nat) (st : V10.session_state)
    (user_ratings : list Q) (dims : list string) (df : DataFrame)
    (user_group_ids : list Z) (top_n : Z) (ds : list dist) (g : Z) :
  argsort_contract argsort ->
  V10.euclidean_distances user_ratings dims df = Ok ds ->
  rows df <> [] ->
  g ∈ user_group_ids ->
  (forall r, r ∈ rows df -> r !! str g = None \/ r !! str (g + 12) = None) ->
  V10.find_closest_sounds_euclidean argsort st user_ratings dims df
    user_group_ids top_n = Raise KeyError.
Proof.
  intros Hc Hds Hne Hg Hmiss. destruct (Hc ds) as [Hperm _].
  pose proof (distances_length _ _ _ _ Hds) as Hlen.
  unfold V10.find_closest_sounds_euclidean, V10.euclidean_top_indices.
  rewrite Hds. cbn [mbind result_bind]. unfold V10.filter_top_n.
  destruct (argsort ds) as [|i rest] eqn:E.
  { apply Permutation_length in Hperm. rewrite length_seq, Hlen in Hperm.
    destruct (rows df); [done | discriminate]. }
  assert (Hi : (i < length (rows df))%nat).
  { assert (i ∈ seq 0 (length ds)) as Hin by (rewrite <- Hperm; left).
    apply elem_of_seq in Hin. lia. }
  apply lookup_lt_is_Some in Hi as [r Hr].
  cbn [filter_loop].
  rewrite (v10_passes_missing_column st df user_group_ids i r g Hr Hg).
  - reflexivity.
  - apply Hmiss. by eapply list_elem_of_lookup_2.
Qed.

Lemma v10_missing_score_column_raises_KeyError_witness :
  V10.find_closest_sounds_euclidean insertion_argsort sliders0 [0] ["urgency"]
    catalog3 [1; 2]%Z 2 = Raise KeyError.
Proof.
  refine (v10_missing_score_column_raises_KeyError insertion_argsort sliders0
            [0] ["urgency"] catalog3 [1; 2]%Z 2 scenario_distances 2%Z
            insertion_argsort_contract _ _ _ _).
  - vm_compute. reflexivity.
  - discriminate.
  - right. left.
  - intros r Hr. left.
    repeat (apply elem_of_cons in Hr as [->|Hr]; [reflexivity|]).
    by apply elem_of_nil in Hr.
Defined.

(** ** The v5.0 filter and the v2.0 selection *)

Lemma any_liking_above_50_value (data : DataFrame) (groups : list Z)
    (i : nat) (r : gmap string cell) :
  rows data !! i = Some r ->
  (forall g, g ∈ groups -> is_Some (r !! str g)) ->
  V5.any_liking_above_50 data groups i = Ok (liking_above_50 data groups i).
Proof.
  intros Hr. unfold liking_above_50. rewrite Hr. simpl.
  induction groups as [|g groups IH]; intros Hs; simpl; [done|].
  unfold iloc. rewrite Hr. simpl. unfold row_get.
  destruct (Hs g) as [x Hx]; [left|]. rewrite Hx. simpl.
  destruct (cell_gt x 50); simpl; [done|].
  apply IH. intros g' Hg'. apply Hs. by right.
Qed.

(** With fewer than twelve groups selected and [top_n >= 1], v5.0 returns
    the first [top_n] sounds of the ranking for which at least one selected
    group has a liking strictly above 50; a sound without such a group is
    never returned. *)
Theorem v5_filter_keeps_liked_sounds (data : DataFrame)
    (user_group_ids : list Z) (top_n : Z) (ranked : list nat) :
  (length user_group_ids < V5.NUM_DEMOGRAPHIC_GROUPS)%nat ->
  (1 <= top_n)%Z ->
  (forall i, i ∈ ranked -> exists r,
     rows data !! i = Some r
     /\ forall g, g ∈ user_group_ids -> is_Some (r !! str g)) ->
  V5.filter_top_n data user_group_ids top_n ranked
  = Ok (take (Z.to_nat top_n)
          (List.filter (liking_above_50 data user_group_ids) ranked)).
Proof.
  intros Hlen Hn Hrows. unfold V5.filter_top_n.
  destruct (Nat.ltb_spec (length user_group_ids) V5.NUM_DEMOGRAPHIC_GROUPS);
    [|lia].
  rewrite (filter_loop_take_filter _ (liking_above_50 data user_group_ids));
    try (simpl; lia).
  - simpl. by rewrite Nat.sub_0_r.
  - intros i Hi. destruct (Hrows i Hi) as (r & Hr & Hs).
    by eapply any_liking_above_50_value.
Qed.

Lemma v5_filter_keeps_liked_sounds_witness :
  V5.filter_top_n catalog3 [1%Z] 2 [1; 0; 2]%nat = Ok [1; 0]%nat.
Proof.
  refine (v5_filter_keeps_liked_sounds catalog3 [1%Z] 2 [1; 0; 2]%nat _ _ _).
  - unfold V5.NUM_DEMOGRAPHIC_GROUPS. simpl. lia.
  - lia.
  - intros i Hi. rewrite !elem_of_cons, elem_of_nil in Hi.
    destruct Hi as [->|[->|[->|[]]]]; eexists; (split; [reflexivity|]);
      intros g Hg; apply list_elem_of_singleton in Hg as ->;
      eexists; reflexivity.
Defined.

Lemma get_loc_NoDup (rating_columns : list string) (i : nat) (x : string) :
  NoDup rating_columns -> rating_columns !! i = Some x ->
  V2.get_loc rating_columns x = Ok i.
Proof.
  intros Hnd Hi. unfold V2.get_loc.
  assert (list_find (fun y => y = x) rating_columns = Some (i, x)) as ->;
    [|done].
  apply list_find_Some. split; [done|]. split; [done|].
  intros j y Hj Hlt ->.
  assert (i = j) by (eapply NoDup_lookup; eauto). lia.
Qed.

(** Index selection within the selection (v5.0 to v10.0) and index selection
    in the full ordering (v2.0, v3.0) extract the same sub-matrix when the
    selected dimensions are the first [k] rating columns in their order. *)
Theorem selection_agrees_on_leading_columns (rating_columns : list string)
    (k : nat) (inv_cov_matrix : matrix) :
  NoDup rating_columns ->
  V10.selected_inv_cov_matrix (take k rating_columns) inv_cov_matrix
  = V2.selected_inv_cov_matrix rating_columns (take k rating_columns)
      inv_cov_matrix.
Proof.
  intros Hnd.
  assert (Hnd' : NoDup (take k rating_columns))
    by (eapply sublist_NoDup; [exact Hnd | apply sublist_take]).
  unfold V10.selected_inv_cov_matrix, V2.selected_inv_cov_matrix.
  rewrite (v10_selected_indices_NoDup _ Hnd').
  assert (V2.selected_indices rating_columns (take k rating_columns)
          = Ok (seq 0 (length (take k rating_columns)))) as ->; [|done].
  unfold V2.selected_indices.
  rewrite <- (imap_fst_seq (take k rating_columns) 0).
  apply mapR_imap. intros i x Hi. simpl. apply get_loc_NoDup; [done|].
  rewrite lookup_take in Hi. by case_decide.
Qed.

Lemma selection_agrees_on_leading_columns_witness :
  V10.selected_inv_cov_matrix ["being_ready"; "having_news"] sample_matrix
  = V2.selected_inv_cov_matrix dimension_display
      ["being_ready"; "having_news"] sample_matrix.
Proof.
  refine (selection_agrees_on_leading_columns dimension_display 2
            sample_matrix _).
  apply (bool_decide_unpack _). vm_compute. reflexivity.
Defined.

(** ** Reading the tables *)

(** When every coefficient of the correlation table (every cell after the
    label column) is a number between 0 and 1, [corr_matrix_setup] returns a
    matrix with as many rows, each shorter by the label column, whose entry
    [(i, j)] is [2 q - 1] for the coefficient [q] at column [j + 1] of row
    [i] of the table: a number between -1 and 1. *)
Theorem corr_matrix_setup_shape_and_range (raw : list (list raw_cell)) :
  Forall (fun row =>
            Forall (fun c => exists q, c = RNum q /\ 0 <= q <= 1) (drop 1 row))
         raw ->
  length (corr_matrix_setup raw) = length raw
  /\ forall i row, raw !! i = Some row ->
       exists row',
         corr_matrix_setup raw !! i = Some row'
         /\ length row' = (length row - 1)%nat
         /\ Forall (fun x => exists r, x = Num r /\ -1 <= r <= 1) row'
         /\ forall j q, row !! S j = Some (RNum q) ->
                        row' !! j = Some (Num (q * 2 - 1)).
Proof.
  intros Hunit. split.
  { unfold corr_matrix_setup, load_correlation_data. by rewrite !length_map. }
  intros i row Hi. unfold corr_matrix_setup, load_correlation_data.
  rewrite !list_lookup_fmap, Hi. cbn [fmap option_fmap option_map].
  eexists. split; [reflexivity|]. split; [|split].
  - by rewrite length_map, length_drop, length_map.
  - rewrite Forall_forall in Hunit.
    pose proof (Hunit row (list_elem_of_lookup_2 _ _ _ Hi)) as Hrow.
    apply Forall_forall. intros x Hx.
    apply list_elem_of_lookup in Hx as (j & Hj).
    rewrite list_lookup_fmap, lookup_drop, list_lookup_fmap in Hj.
    destruct (row !! (1 + j)%nat) as [c|] eqn:Ec; [|done].
    simpl in Hj. injection Hj as <-.
    rewrite Forall_forall in Hrow.
    destruct (Hrow c) as (q & -> & H0 & H1).
    { apply list_elem_of_lookup. exists j. by rewrite lookup_drop. }
    eexists. split; [reflexivity|]. split; Lqa.lra.
  - intros j q Hj.
    rewrite list_lookup_fmap, lookup_drop, list_lookup_fmap.
    change (1 + j)%nat with (S j). by rewrite Hj.
Qed.

Lemma corr_matrix_setup_shape_and_range_witness :
  length (corr_matrix_setup (V10.correlations two_independent_dimensions))
  = 2%nat
  /\ corr_matrix_setup (V10.correlations two_independent_dimensions)
     = [[Num (1 * 2 - 1); Num ((1 # 2) * 2 - 1)];
        [Num ((1 # 2) * 2 - 1); Num (1 * 2 - 1)]].
Proof.
  destruct (corr_matrix_setup_shape_and_range
              (V10.correlations two_independent_dimensions)) as [Hlen _].
  - repeat (constructor;
            [repeat (constructor;
                     [eexists; split; [reflexivity | split; Lqa.lra]|]);
             constructor|]).
    constructor.
  - split; [exact Hlen | reflexivity].
Defined.

(** ** The covariance matrix *)

Lemma np_diag_length (v : list cell) : length (np_diag v) = length v.
Proof. unfold np_diag. by rewrite length_imap. Qed.

Lemma np_diag_lookup (v : list cell) (i : nat) (x : cell) :
  v !! i = Some x ->
  np_diag v !! i = Some (<[i := x]> (replicate (length v) (Num 0))).
Proof. intros Hi. unfold np_diag. by rewrite list_lookup_imap, Hi. Qed.

Lemma np_diag_row_length (v row : list cell) :
  row ∈ np_diag v -> length row = length v.
Proof.
  intros H. apply list_elem_of_lookup in H as (i & Hi).
  destruct (lookup_lt_is_Some_2 v i) as [x Hx].
  { rewrite <- np_diag_length. by eapply lookup_lt_Some. }
  rewrite (np_diag_lookup v i x Hx) in Hi. injection Hi as <-.
  by rewrite length_insert, length_replicate.
Qed.

Lemma np_diag_ncols (v : list cell) : ncols (np_diag v) = length v.
Proof.
  destruct (np_diag v) as [|r M] eqn:E.
  - rewrite <- np_diag_length, E. done.
  - simpl. apply np_diag_row_length. rewrite E. left.
Qed.

Lemma np_diag_column (v : list cell) (j : nat) (x : cell) :
  v !! j = Some x ->
  column (np_diag v) j = <[j := x]> (replicate (length v) (Num 0)).
Proof.
  intros Hj. apply list_eq. intros i. unfold column.
  rewrite list_lookup_fmap.
  pose proof (lookup_lt_Some _ _ _ Hj) as Hjn.
  destruct (decide (i < length v)%nat) as [Hi|Hi].
  - destruct (lookup_lt_is_Some_2 v i Hi) as [y Hy].
    rewrite (np_diag_lookup v i y Hy). simpl.
    rewrite !list_lookup_insert, !length_replicate.
    destruct (decide (i = j)) as [->|Hne].
    + rewrite !decide_True by done. simpl. congruence.
    + rewrite !decide_False by (intros [? _]; congruence).
      rewrite !lookup_replicate_2 by done. done.
  - rewrite (proj2 (lookup_ge_None _ _)) by (rewrite np_diag_length; lia).
    simpl. symmetry. apply lookup_ge_None.
    rewrite length_insert, length_replicate. lia.
Qed.

Lemma dot_zero_l (qs : list Q) (m : nat) :
  exists x, dot (replicate m (Num 0)) (map Num qs) = Num x /\ x == 0.
Proof.
  revert m. induction qs as [|q qs IH]; intros m.
  - exists 0. by destruct m.
  - destruct m as [|m]; [by exists 0|].
    destruct (IH m) as (x & Hx & Hx0). unfold dot in *. simpl.
    rewrite Hx. simpl. eexists. split; [reflexivity|]. rewrite Hx0. ring.
Qed.

Lemma dot_scaled_unit_l (qs : list Q) (s : Q) (m j : nat) (q : Q) :
  qs !! j = Some q -> (j < m)%nat ->
  exists x, dot (<[j := Num s]> (replicate m (Num 0))) (map Num qs) = Num x
            /\ x == s * q.
Proof.
  revert m j. induction qs as [|q0 qs IH]; intros m j Hj Hm; [done|].
  destruct m as [|m]; [lia|]. destruct j as [|j].
  - injection Hj as ->. destruct (dot_zero_l qs m) as (x & Hx & Hx0).
    unfold dot in *. simpl. rewrite Hx. simpl.
    eexists. split; [reflexivity|]. rewrite Hx0. ring.
  - destruct (IH m j Hj ltac:(lia)) as (x & Hx & Hxq).
    unfold dot in *. simpl. rewrite Hx. simpl.
    eexists. split; [reflexivity|]. rewrite Hxq. ring.
Qed.

Lemma dot_zero_r (t : list cell) (qs : list Q) (m : nat) :
  Forall2 (fun c q => exists x, c = Num x /\ x == q) t qs ->
  exists x, dot t (replicate m (Num 0)) = Num x /\ x == 0.
Proof.
  intros H. revert m. induction H as [|c q t qs (y & -> & _) _ IH]; intros m.
  - exists 0. by destruct m.
  - destruct m as [|m]; [by exists 0|].
    destruct (IH m) as (x & Hx & Hx0). unfold dot in *. simpl.
    rewrite Hx. simpl. eexists. split; [reflexivity|]. rewrite Hx0. ring.
Qed.

Lemma dot_scaled_unit_r (t : list cell) (qs : list Q) (s : Q) (m j : nat)
    (q : Q) :
  Forall2 (fun c q => exists x, c = Num x /\ x == q) t qs ->
  qs !! j = Some q -> (j < m)%nat ->
  exists x, dot t (<[j := Num s]> (replicate m (Num 0))) = Num x
            /\ x == q * s.
Proof.
  intros H. revert m j.
  induction H as [|c q0 t qs (y & -> & Hy) Ht IH]; intros m j Hj Hm; [done|].
  destruct m as [|m]; [lia|]. destruct j as [|j].
  - injection Hj as ->. destruct (dot_zero_r t qs m Ht) as (x & Hx & Hx0).
    unfold dot in *. simpl. rewrite Hx. simpl.
    eexists. split; [reflexivity|]. rewrite Hx0, Hy. ring.
  - destruct (IH m j Hj ltac:(lia)) as (x & Hx & Hxq).
    unfold dot in *. simpl. rewrite Hx. simpl.
    eexists. split; [reflexivity|]. rewrite Hxq. ring.
Qed.

Lemma column_Num (Rq : list (list Q)) (n j : nat) :
  Forall (fun r => length r = n) Rq -> (j < n)%nat ->
  column (map (map Num) Rq) j
  = map Num (map (fun r => default 0 (r !! j)) Rq).
Proof.
  intros Hrows Hj. unfold column. rewrite !List.map_map.
  apply map_ext_in. intros r Hr. rewrite Forall_forall in Hrows.
  apply list_elem_of_In in Hr. pose proof (Hrows r Hr) as Hl.
  rewrite list_lookup_fmap.
  destruct (lookup_lt_is_Some_2 r j ltac:(lia)) as [x ->]. done.
Qed.

Lemma mat_mul_shape (A B : matrix) :
  ncols A = length B -> Forall (fun row => length row = length B) A ->
  mat_mul A B
  = Ok (map (fun row => map (fun j => dot row (column B j))
                          (seq 0 (ncols B))) A).
Proof.
  intros Hn Hrows. unfold mat_mul. rewrite decide_True by done.
  apply mapR_map_total. intros row Hrow. unfold vec_mat.
  rewrite Forall_forall in Hrows. by rewrite decide_True by by apply Hrows.
Qed.

(** Entry [(i, j)] of the matrix handed to [np.linalg.inv] is
    [std_i * corr_ij * std_j], the covariance of dimensions [i] and [j],
    whenever the standard deviations and the rescaled correlations are
    numbers and the correlation table is square of the same size. *)
Theorem covariance_matrix_entries
    (pd_std : DataFrame -> list string -> list cell)
    (files : V10.reference_files) (sigma : list Q) (Rq : list (list Q)) :
  pd_std (load_median_data (V10.median_rating_data files)).1
         (load_median_data (V10.median_rating_data files)).2
  = map Num sigma ->
  corr_matrix_setup (V10.correlations files) = map (map Num) Rq ->
  length Rq = length sigma ->
  Forall (fun r => length r = length sigma) Rq ->
  exists C,
    V10.covariance_matrix pd_std files = Ok C
    /\ length C = length sigma
    /\ forall i j si sj row r,
         sigma !! i = Some si -> sigma !! j = Some sj ->
         Rq !! i = Some row -> row !! j = Some r ->
         exists crow c,
           C !! i = Some crow /\ crow !! j = Some (Num c)
           /\ c == si * r * sj.
Proof.
  intros Hstd Hcorr Hn Hrows. unfold V10.covariance_matrix.
  destruct (load_median_data (V10.median_rating_data files))
    as [data rating_columns]. simpl in Hstd.
  unfold std_matrix_setup. rewrite Hstd, Hcorr. clear Hstd Hcorr.
  set (n := length sigma) in *.
  set (D := np_diag (map Num sigma)).
  set (R := map (map Num) Rq).
  assert (HDlen : length D = n) by (subst D; by rewrite np_diag_length, length_map).
  assert (HDcols : ncols D = n) by (subst D; by rewrite np_diag_ncols, length_map).
  assert (HRlen : length R = n) by (subst R; by rewrite length_map).
  assert (HDrows : Forall (fun row => length row = n) D).
  { apply Forall_forall. intros row Hrow. subst D.
    apply np_diag_row_length in Hrow. by rewrite length_map in Hrow. }
  assert (HRcols : ncols R = n \/ n = 0%nat).
  { subst R. destruct Rq as [|r0 Rq']; [right; by rewrite <- Hn|left].
    simpl. rewrite length_map. by apply Forall_cons in Hrows as [? _]. }
  rewrite (mat_mul_shape D R) by (rewrite ?HDcols, HRlen; done).
  cbn [mbind result_bind].
  set (T := map (fun row => map (fun j => dot row (column R j))
                              (seq 0 (ncols R))) D).
  assert (HTrows : Forall (fun row => length row = length D) T).
  { subst T. apply Forall_forall. intros row Hrow.
    apply list_elem_of_fmap in Hrow as (row0 & -> & Hrow0).
    rewrite length_map, length_seq, HDlen.
    destruct HRcols as [?|H0]; [done|].
    rewrite H0 in HDlen. destruct D; [by apply elem_of_nil in Hrow0 | done]. }
  rewrite (mat_mul_shape T D).
  2:{ subst T. destruct D as [|d D']; [done|]. simpl.
      rewrite length_map, length_seq. simpl in HDlen.
      destruct HRcols as [->|H0]; [done | lia]. }
  2:{ exact HTrows. }
  eexists. split; [reflexivity|]. split.
  { subst T. by rewrite !length_map. }
  intros i j si sj row r Hi Hj Hrow Hr.
  pose proof (lookup_lt_Some _ _ _ Hi) as Hin.
  pose proof (lookup_lt_Some _ _ _ Hj) as Hjn. fold n in Hin, Hjn.
  assert (HRc : ncols R = n) by (destruct HRcols; [done | lia]).
  assert (HDi : D !! i = Some (<[i := Num si]> (replicate n (Num 0)))).
  { subst D. rewrite (np_diag_lookup _ i (Num si)).
    - by rewrite length_map.
    - by rewrite list_lookup_fmap, Hi. }
  assert (HDj : column D j = <[j := Num sj]> (replicate n (Num 0))).
  { subst D. rewrite (np_diag_column _ j (Num sj)).
    - by rewrite length_map.
    - by rewrite list_lookup_fmap, Hj. }
  subst T. rewrite !list_lookup_fmap, HDi. cbn [fmap option_fmap option_map].
  eexists _. 
  set (Ti := map (fun j0 => dot (<[i := Num si]> (replicate n (Num 0)))
                             (column R j0)) (seq 0 (ncols R))).
  assert (HTi : Forall2 (fun c q => exists x, c = Num x /\ x == q) Ti
                  (map (fun q => si * q) row)).
  { assert (Hrl : length row = n).
    { rewrite Forall_forall in Hrows. apply Hrows.
      by eapply list_elem_of_lookup_2. }
    apply Forall2_same_length_lookup_2.
    { subst Ti. by rewrite !length_map, length_seq, HRc, Hrl. }
    intros j0 c q Hc Hq. subst Ti. rewrite list_lookup_fmap in Hc.
    rewrite list_lookup_fmap in Hq.
    destruct (row !! j0) as [r0|] eqn:Er0; [|done]. injection Hq as <-.
    pose proof (lookup_lt_Some _ _ _ Er0) as Hj0. rewrite Hrl in Hj0.
    rewrite lookup_seq_lt in Hc by lia. simpl in Hc. injection Hc as <-.
    subst R. rewrite (column_Num Rq n j0 Hrows Hj0).
    apply dot_scaled_unit_l; [|done].
    rewrite list_lookup_fmap, Hrow. simpl. by rewrite Er0. }
  destruct (dot_scaled_unit_r Ti (map (fun q => si * q) row) sj n j (si * r)
              HTi) as (c & Hc & Hcq); [by rewrite list_lookup_fmap, Hr | done |].
  exists c. split; [reflexivity|]. split; [|done].
  rewrite list_lookup_fmap, lookup_seq_lt by (by rewrite HDcols).
  cbn [fmap option_fmap option_map Nat.add]. rewrite HDj.
  unfold Ti in Hc. by rewrite Hc.
Qed.

Lemma covariance_matrix_entries_witness :
  exists C,
    V10.covariance_matrix std_half two_identical_dimensions = Ok C
    /\ length C = 2%nat
    /\ forall i j si sj row r,
         [1 # 2; 1 # 2] !! i = Some si -> [1 # 2; 1 # 2] !! j = Some sj ->
         [[1; 1]; [1; 1]] !! i = Some row -> row !! j = Some r ->
         exists crow c,
           C !! i = Some crow /\ crow !! j = Some (Num c)
           /\ c == si * r * sj.
Proof.
  refine (covariance_matrix_entries std_half two_identical_dimensions
            [1 # 2; 1 # 2] [[1; 1]; [1; 1]] _ _ _ _).
  - vm_compute. reflexivity.
  - vm_compute. reflexivity.
  - reflexivity.
  - repeat (constructor; [reflexivity|]). constructor.
Defined.

(** ** Mahalanobis with the identity matrix *)

Lemma identity_matrix_length (k : nat) : length (identity_matrix k) = k.
Proof. unfold identity_matrix, np_diag. by rewrite length_imap, length_replicate. Qed.

Lemma identity_matrix_lookup (k i : nat) :
  (i < k)%nat ->
  identity_matrix k !! i = Some (<[i := Num 1]> (replicate k (Num 0))).
Proof.
  intros Hi. unfold identity_matrix, np_diag.
  rewrite list_lookup_imap, lookup_replicate_2 by done.
  by rewrite length_replicate.
Qed.

Lemma identity_matrix_ncols (k : nat) : ncols (identity_matrix k) = k.
Proof.
  destruct k as [|k]; [done|]. unfold ncols.
  pose proof (identity_matrix_lookup (S k) 0 ltac:(lia)) as H.
  destruct (identity_matrix (S k)) as [|r M]; [done|].
  simpl in H. injection H as H. rewrite H.
  simpl. by rewrite length_replicate.
Qed.

Lemma identity_matrix_column (k j : nat) :
  (j < k)%nat ->
  column (identity_matrix k) j = <[j := Num 1]> (replicate k (Num 0)).
Proof.
  intros Hj. apply list_eq. intros i. unfold column.
  rewrite list_lookup_fmap.
  destruct (decide (i < k)%nat) as [Hi|Hi].
  - rewrite identity_matrix_lookup by done. simpl.
    rewrite !list_lookup_insert, !length_replicate.
    destruct (decide (i = j)) as [->|Hne].
    + rewrite !decide_True by done. done.
    + rewrite !decide_False by (intros [? _]; congruence).
      rewrite !lookup_replicate_2 by done. done.
  - rewrite (proj2 (lookup_ge_None _ _)) by (rewrite identity_matrix_length; lia).
    simpl. symmetry. apply lookup_ge_None.
    rewrite length_insert, length_replicate. lia.
Qed.

Lemma dot_zero (qs : list Q) (m : nat) :
  exists x, dot (map Num qs) (replicate m (Num 0)) = Num x /\ x == 0.
Proof.
  revert m. induction qs as [|q qs IH]; intros m.
  - exists 0. by destruct m.
  - destruct m as [|m]; [by exists 0|].
    destruct (IH m) as (x & Hx & Hx0). unfold dot in *. simpl.
    rewrite Hx. simpl. eexists. split; [reflexivity|]. rewrite Hx0. ring.
Qed.

Lemma dot_unit (qs : list Q) (m j : nat) (q : Q) :
  qs !! j = Some q -> (j < m)%nat ->
  exists x, dot (map Num qs) (<[j := Num 1]> (replicate m (Num 0))) = Num x
            /\ x == q.
Proof.
  revert m j. induction qs as [|q0 qs IH]; intros m j Hj Hm; [done|].
  destruct m as [|m]; [lia|]. destruct j as [|j].
  - injection Hj as ->. destruct (dot_zero qs m) as (x & Hx & Hx0).
    unfold dot in *. simpl. rewrite Hx. simpl.
    eexists. split; [reflexivity|]. rewrite Hx0. ring.
  - destruct (IH m j Hj ltac:(lia)) as (x & Hx & Hxq).
    unfold dot in *. simpl. rewrite Hx. simpl.
    eexists. split; [reflexivity|]. rewrite Hxq. ring.
Qed.

Lemma dot_close (t : list cell) (qs : list Q) :
  Forall2 (fun c q => exists x, c = Num x /\ x == q) t qs ->
  exists y z,
    dot t (map Num qs) = Num y
    /\ cell_sum (map cell_sq (map Num qs)) = Num z
    /\ y == z.
Proof.
  induction 1 as [|c q t qs (x & -> & Hx) _ (y & z & Hy & Hz & Hyz)].
  - exists 0, 0. done.
  - unfold dot in *. simpl. rewrite Hy, Hz. simpl.
    eexists _, _. split; [reflexivity|]. split; [reflexivity|].
    by rewrite Hx, Hyz.
Qed.

Lemma cells_Num_or_NaN (l : list cell) :
  (exists qs, l = map Num qs) \/ exists p, l !! p = Some NaN.
Proof.
  induction l as [|c l [(qs & ->)|(p & Hp)]].
  - left. by exists [].
  - destruct c as [|q]; [right; by exists 0%nat | left; by exists (q :: qs)].
  - right. by exists (S p).
Qed.

Lemma np_sqrt_Qeq (y z : Q) : y == z -> dist_eq (np_sqrt (Num y)) (np_sqrt (Num z)).
Proof.
  intros H. simpl.
  destruct (Qle_bool 0 y) eqn:Ey, (Qle_bool 0 z) eqn:Ez; simpl; try done.
  - apply Qle_bool_iff in Ey. rewrite H in Ey. apply Qle_bool_iff in Ey. congruence.
  - apply Qle_bool_iff in Ez. rewrite <- H in Ez. apply Qle_bool_iff in Ez. congruence.
Qed.

Lemma mahalanobis_row_identity (u : list Q) (row : list cell) :
  length row = length u ->
  exists y, mahalanobis_row (identity_matrix (length row)) u row = Ok y
            /\ dist_eq y (norm (bsub row u)).
Proof.
  intros Hlen. unfold mahalanobis_row.
  assert (broadcastable (length row) (length u) = true) as ->
    by (unfold broadcastable; rewrite Hlen, Nat.eqb_refl; done).
  cbn [mbind result_bind].
  set (diff := bsub row u).
  assert (Hd : length diff = length row).
  { subst diff. rewrite bsub_same_length by done.
    rewrite length_zip_with. lia. }
  unfold vec_mat. rewrite identity_matrix_length, identity_matrix_ncols.
  rewrite decide_True by done. cbn [mbind result_bind].
  unfold vec_vec. rewrite length_map, length_seq, decide_True by done.
  cbn [mbind result_bind]. eexists. split; [reflexivity|].
  destruct (cells_Num_or_NaN diff) as [(qs & Hqs)|(p & Hp)].
  - rewrite Hqs.
    assert (Hk : length qs = length row) by (by rewrite <- Hd, Hqs, length_map).
    destruct (dot_close
      (map (fun j => dot (map Num qs) (column (identity_matrix (length row)) j))
           (seq 0 (length row))) qs) as (y & z & Hy & Hz & Hyz).
    { apply Forall2_same_length_lookup_2; [by rewrite length_map, length_seq|].
      intros j c q Hc Hq. rewrite list_lookup_fmap in Hc.
      assert (Hj : (j < length row)%nat)
        by (rewrite <- Hk; by eapply lookup_lt_Some).
      rewrite lookup_seq_lt in Hc by done. simpl in Hc. injection Hc as <-.
      rewrite identity_matrix_column by done. by apply dot_unit. }
    rewrite Hy. unfold norm. rewrite Hz. by apply np_sqrt_Qeq.
  - rewrite (norm_NaN diff p Hp). unfold dot. rewrite cell_sum_NaN; [done|].
    apply list_elem_of_lookup. exists p.
    rewrite lookup_zip_with, list_lookup_fmap, Hp.
    assert (Hpk : (p < length row)%nat)
      by (rewrite <- Hd; by eapply lookup_lt_Some).
    rewrite lookup_seq_lt by done. simpl.
    by destruct (cell_sum _).
Qed.

Lemma mapR_Forall2 {A B C} (f : A -> result B) (g : A -> C)
    (P : B -> C -> Prop) (l : list A) :
  (forall x, x ∈ l -> exists y, f x = Ok y /\ P y (g x)) ->
  exists ys, mapR f l = Ok ys /\ Forall2 P ys (map g l).
Proof.
  induction l as [|x l IH]; intros H; simpl; [exists []; by split|].
  destruct (H x) as (y & -> & Hy); [left|].
  destruct IH as (ys & -> & Hys); [intros z Hz; apply H; by right|].
  exists (y :: ys). split; [done | by constructor].
Qed.

Lemma select_values_row_length (df : DataFrame) (dims : list string)
    (X : list (list cell)) (row : list cell) :
  select_values df dims = Ok X -> row ∈ X -> length row = length dims.
Proof.
  unfold select_values. destruct (forallb _ dims); [|discriminate].
  intros H Hrow. apply list_elem_of_lookup in Hrow as (i & Hi).
  revert X i H Hi. induction (rows df) as [|r rs IH]; intros X i H Hi;
    simpl in H.
  - injection H as <-. done.
  - apply bind_Ok in H as (y & Hy & H). apply bind_Ok in H as (ys & Hys & H).
    injection H as <-. destruct i as [|i]; simpl in Hi.
    + injection Hi as ->. by eapply mapR_row_get_length.
    + by eapply IH.
Qed.

(** When the sub-matrix selected from the inverse covariance matrix is the
    identity, the Mahalanobis search computes the Euclidean distances: with
    one rating per selected dimension, each Mahalanobis distance equals the
    Euclidean distance of the same sound, undefined where that is
    undefined. *)
Theorem v10_mahalanobis_with_identity_is_euclidean (user_ratings : list Q)
    (dims : list string) (df : DataFrame) (inv_cov_matrix : matrix)
    (euclidean : list dist) :
  length user_ratings = length dims ->
  V10.selected_inv_cov_matrix dims inv_cov_matrix
  = Ok (identity_matrix (length dims)) ->
  V10.euclidean_distances user_ratings dims df = Ok euclidean ->
  exists mahalanobis,
    V10.mahalanobis_distances user_ratings dims df inv_cov_matrix
    = Ok mahalanobis
    /\ Forall2 dist_eq mahalanobis euclidean.
Proof.
  intros Hlen Hsel He. unfold V10.euclidean_distances in He.
  apply bind_Ok in He as (X & HX & He). apply bind_Ok in He as (diffs & Hd & He).
  injection He as <-. unfold sub_rows in Hd.
  destruct (broadcastable _ _); [|discriminate]. injection Hd as <-.
  unfold V10.mahalanobis_distances. rewrite HX, Hsel.
  cbn [mbind result_bind]. unfold mahalanobis_loop, norm_axis1.
  rewrite List.map_map.
  apply mapR_Forall2. intros row Hrow.
  pose proof (select_values_row_length _ _ _ _ HX Hrow) as Hr.
  rewrite <- Hr. apply mahalanobis_row_identity. lia.
Qed.

Lemma v10_mahalanobis_with_identity_is_euclidean_witness :
  exists mahalanobis,
    V10.mahalanobis_distances [0] ["urgency"] catalog3_nan [[Num 1]]
    = Ok mahalanobis
    /\ Forall2 dist_eq mahalanobis nan_distances.
Proof.
  refine (v10_mahalanobis_with_identity_is_euclidean [0] ["urgency"]
            catalog3_nan [[Num 1]] nan_distances _ _ _).
  - reflexivity.
  - vm_compute. reflexivity.
  - vm_compute. reflexivity.
Defined.

(** ** From the widgets to the search *)

Lemma ix_total (M : matrix) (k n : nat) :
  (k <= n)%nat -> length M = n -> Forall (fun row => length row = n) M ->
  exists S, ix_ M (seq 0 k) (seq 0 k) = Ok S
            /\ length S = k /\ Forall (fun row => length row = k) S.
Proof.
  intros Hk Hn Hrows. unfold ix_.
  destruct (mapR_Ok_Forall
              (fun i => row ← from_option IndexError (M !! i);
                        mapR (fun j => from_option IndexError (row !! j))
                             (seq 0 k))
              (fun row => length row = k) (seq 0 k)) as (S & HS & Hlen & Hall).
  { intros i Hi. apply elem_of_seq in Hi.
    destruct (lookup_lt_is_Some_2 M i ltac:(lia)) as [row0 Hrow0].
    rewrite Hrow0. cbn [from_option mbind result_bind].
    rewrite Forall_forall in Hrows.
    pose proof (Hrows row0 (list_elem_of_lookup_2 _ _ _ Hrow0)) as Hl.
    destruct (mapR_Ok_total (fun j => from_option IndexError (row0 !! j))
                (seq 0 k)) as (row & -> & Hlen).
    { intros j Hj. apply elem_of_seq in Hj.
      destruct (lookup_lt_is_Some_2 row0 j ltac:(lia)) as [x ->]. by exists x. }
    exists row. by rewrite Hlen, length_seq. }
  exists S. by rewrite length_seq in Hlen.
Qed.

Lemma mahalanobis_row_total (S : matrix) (u : list Q) (row : list cell) :
  length S = length row -> Forall (fun r => length r = length row) S ->
  length u = length row ->
  exists y, mahalanobis_row S u row = Ok y.
Proof.
  intros HS Hrows Hu. unfold mahalanobis_row.
  assert (broadcastable (length row) (length u) = true) as ->
    by (unfold broadcastable; rewrite Hu, Nat.eqb_refl; done).
  cbn [mbind result_bind].
  assert (Hd : length (bsub row u) = length row).
  { rewrite bsub_same_length by done. rewrite length_zip_with. lia. }
  unfold vec_mat. rewrite decide_True by congruence.
  cbn [mbind result_bind]. unfold vec_vec.
  rewrite decide_True; [cbn [mbind result_bind]; eauto|].
  rewrite length_map, length_seq, Hd.
  destruct S as [|r S]; [done|]. simpl.
  by apply Forall_cons in Hrows as [? _].
Qed.

Lemma select_values_total (df : DataFrame) (dims : list string) :
  dims ⊆ columns df ->
  Forall (fun r => Forall (fun d => is_Some (r !! d)) dims) (rows df) ->
  exists X, select_values df dims = Ok X.
Proof.
  intros Hcols Hcells. unfold select_values.
  assert (forallb (fun d => bool_decide (d ∈ columns df)) dims = true) as ->.
  { apply forallb_forall. intros d Hd. apply bool_decide_eq_true, Hcols.
    by apply list_elem_of_In. }
  destruct (mapR_Ok_total (fun r => mapR (row_get r) dims) (rows df))
    as (X & HX & _); [|eauto].
  intros r Hr. rewrite Forall_forall in Hcells.
  destruct (mapR_Ok_total (row_get r) dims) as (row & Hrow & _); [|eauto].
  intros d Hd. pose proof (Hcells r Hr) as Hd'. rewrite Forall_forall in Hd'.
  destruct (Hd' d Hd) as [x Hx]. exists x. unfold row_get. by rewrite Hx.
Qed.

(** Every query the widgets of v10.0 can produce is searchable: when the
    table has the nineteen dimension columns (a cell for each in every row)
    and the inverse covariance matrix is 19 x 19, both distance computations
    return without exception, with one distance per sound. *)
Theorem v10_widget_query_is_searchable (checkbox : string -> bool)
    (slider : string -> Q) (df : DataFrame) (inv_cov_matrix : matrix)
    (user_ratings : list Q) (selected_dimensions : list string) :
  V10App.get_target_dimensions_ratings checkbox slider
  = Ok (user_ratings, selected_dimensions) ->
  dimension_display ⊆ columns df ->
  Forall (fun r => Forall (fun d => is_Some (r !! d)) dimension_display)
         (rows df) ->
  length inv_cov_matrix = 19%nat ->
  Forall (fun row => length row = 19%nat) inv_cov_matrix ->
  exists euclidean mahalanobis,
    V10.euclidean_distances user_ratings selected_dimensions df = Ok euclidean
    /\ V10.mahalanobis_distances user_ratings selected_dimensions df
         inv_cov_matrix = Ok mahalanobis
    /\ length euclidean = length (rows df)
    /\ length mahalanobis = length (rows df).
Proof.
  intros Hq Hcols Hcells Hn Hrows.
  destruct (get_target_dimensions_ratings_Ok checkbox slider)
    as (u & dims & Hq' & Hsub & Hlen).
  rewrite Hq in Hq'. injection Hq' as <- <-.
  assert (Hnd : NoDup selected_dimensions).
  { eapply sublist_NoDup; [|exact Hsub]. apply communication_levels_NoDup. }
  assert (Hin : selected_dimensions ⊆ dimension_display).
  { intros d Hd. apply communication_levels_dimensions.
    by eapply elem_of_sublist. }
  assert (Hk : (length selected_dimensions <= 19)%nat).
  { apply sublist_length in Hsub. by rewrite length_map in Hsub. }
  destruct (select_values_total df selected_dimensions) as (X & HX).
  { by etrans. }
  { eapply Forall_impl; [exact Hcells|]. intros r Hr.
    rewrite Forall_forall in Hr |- *. intros d Hd. by apply Hr, Hin. }
  destruct (ix_total inv_cov_matrix (length selected_dimensions) 19)
    as (S & HS & HSlen & HSrows); [done..|].
  destruct (mapR_Ok_total (mahalanobis_row S user_ratings) X)
    as (dm & Hdm & Hdmlen).
  { intros row Hrow.
    pose proof (select_values_row_length _ _ _ _ HX Hrow) as Hr.
    apply mahalanobis_row_total; [congruence | by rewrite Hr | congruence]. }
  unfold V10.euclidean_distances, V10.mahalanobis_distances,
    V10.selected_inv_cov_matrix.
  rewrite HX, (v10_selected_indices_NoDup _ Hnd). cbn [mbind result_bind].
  rewrite HS. cbn [mbind result_bind]. unfold mahalanobis_loop. rewrite Hdm.
  unfold sub_rows, broadcastable. rewrite Hlen, Nat.eqb_refl.
  cbn [orb mbind result_bind].
  eexists _, _. split; [reflexivity|]. split; [reflexivity|].
  unfold norm_axis1. rewrite !length_map, Hdmlen.
  by rewrite (select_values_length _ _ _ HX).
Qed.

Lemma v10_widget_query_is_searchable_witness :
  exists euclidean mahalanobis,
    V10.euclidean_distances [0; 0] ["being_ready"; "purity"] full_catalog
    = Ok euclidean
    /\ V10.mahalanobis_distances [0; 0] ["being_ready"; "purity"] full_catalog
         full_inv_cov_matrix = Ok mahalanobis
    /\ length euclidean = length (rows full_catalog)
    /\ length mahalanobis = length (rows full_catalog).
Proof.
  refine (v10_widget_query_is_searchable sample_checkbox (fun _ => 0)
            full_catalog full_inv_cov_matrix [0; 0] ["being_ready"; "purity"]
            _ _ _ _ _).
  - vm_compute. reflexivity.
  - reflexivity.
  - repeat (constructor; [repeat (constructor; [vm_compute; eauto|]);
                          constructor|]). constructor.
  - reflexivity.
  - repeat (constructor; [reflexivity|]). constructor.
Defined.

(** ** A whole script run *)

Lemma v10_filter_top_n_total (argsort : list dist -> list nat)
    (st : V10.session_state) (df : DataFrame) (user_group_ids : list Z)
    (top_n : Z) (ds : list dist) :
  argsort_contract argsort ->
  length ds = length (rows df) ->
  (forall i r, rows df !! i = Some r ->
     forall g, g ∈ user_group_ids ->
       is_Some (r !! str g) /\ is_Some (r !! str (g + 12))) ->
  (1 <= top_n)%Z ->
  exists out,
    V10.filter_top_n st df user_group_ids top_n (argsort ds) = Ok out
    /\ (Z.of_nat (length out) <= top_n)%Z
    /\ NoDup out
    /\ Forall (fun i => (i < length (rows df))%nat) out.
Proof.
  intros Hc Hlen Hcols Hn. destruct (Hc ds) as [Hperm _].
  assert (Hrange : forall i, i ∈ argsort ds -> (i < length (rows df))%nat).
  { intros i Hi. rewrite Hperm in Hi. apply elem_of_seq in Hi. lia. }
  unfold V10.filter_top_n.
  destruct (filter_loop_total (V10.passes st df user_group_ids) top_n
              (argsort ds) []) as (out & Hout).
  { intros i Hi. apply Hrange, lookup_lt_is_Some in Hi as [r Hr].
    eapply v10_passes_total; [exact Hr | by apply (Hcols i)]. }
  exists out. split; [exact Hout|].
  apply filter_loop_Ok in Hout as (kept & -> & Hsub & Hle). simpl in *.
  split; [apply Hle; lia|]. split.
  - eapply sublist_NoDup; [|exact Hsub]. rewrite Hperm. apply NoDup_seq.
  - apply Forall_forall. intros i Hi. apply Hrange.
    by eapply elem_of_sublist.
Qed.

Lemma mahalanobis_distances_length (user_ratings : list Q)
    (dims : list string) (df : DataFrame) (inv_cov_matrix : matrix)
    (ds : list dist) :
  V10.mahalanobis_distances user_ratings dims df inv_cov_matrix = Ok ds ->
  length ds = length (rows df).
Proof.
  unfold V10.mahalanobis_distances. intros H.
  apply bind_Ok in H as (X & HX & H). apply bind_Ok in H as (S & _ & H).
  unfold mahalanobis_loop in H. apply mapR_Ok_lookup in H as [-> _].
  by eapply select_values_length.
Qed.

(** One script run of v10.0: when the load succeeds, at least one dimension
    is selected and rated, both distance vectors can be computed and every
    sound has the score columns of the selected groups, [run] answers with
    two rankings, each of at most [top_n] different positions of the
    catalog. *)
Theorem v10_run_returns_both_rankings (argsort : list dist -> list nat)
    (np_linalg_inv : matrix -> result matrix)
    (pd_std : DataFrame -> list string -> list cell)
    (files : V10.reference_files) (inp : V10.user_input)
    (app : V10.app_state) (euclidean mahalanobis : list dist) :
  argsort_contract argsort ->
  V10.load_and_prepare_data np_linalg_inv pd_std files = Ok app ->
  V10.selected_dimensions inp <> [] -> V10.user_ratings inp <> [] ->
  V10.euclidean_distances (V10.user_ratings inp) (V10.selected_dimensions inp)
    (V10.all_combined_data files) = Ok euclidean ->
  V10.mahalanobis_distances (V10.user_ratings inp)
    (V10.selected_dimensions inp) (V10.all_combined_data files)
    (V10.inv_cov_matrix app) = Ok mahalanobis ->
  (forall i r, rows (V10.all_combined_data files) !! i = Some r ->
     forall g, g ∈ V10.user_group_ids inp ->
       is_Some (r !! str g) /\ is_Some (r !! str (g + 12))) ->
  (1 <= V10.top_n inp)%Z ->
  exists closest_euclidean closest_mahalanobis,
    V10.run argsort np_linalg_inv pd_std files inp
    = Ok (Some (closest_euclidean, closest_mahalanobis))
    /\ (Z.of_nat (length closest_euclidean) <= V10.top_n inp)%Z
    /\ (Z.of_nat (length closest_mahalanobis) <= V10.top_n inp)%Z
    /\ NoDup closest_euclidean /\ NoDup closest_mahalanobis
    /\ Forall (fun i => (i < length (rows (V10.all_combined_data files)))%nat)
              (closest_euclidean ++ closest_mahalanobis).
Proof.
  intros Hc Hload Hdims Hratings He Hm Hcols Hn.
  assert (Hdata : V10.final_combined_data app = V10.all_combined_data files).
  { unfold V10.load_and_prepare_data in Hload.
    destruct (load_median_data _) as [data rating_columns].
    apply bind_Ok in Hload as (cov & _ & Hload).
    apply bind_Ok in Hload as (inv & _ & Hload). by injection Hload as <-. }
  destruct (v10_filter_top_n_total argsort (V10.sliders inp)
              (V10.all_combined_data files) (V10.user_group_ids inp)
              (V10.top_n inp) euclidean Hc
              (distances_length _ _ _ _ He) Hcols Hn)
    as (e & Hout_e & Hle_e & Hnd_e & Hr_e).
  destruct (v10_filter_top_n_total argsort (V10.sliders inp)
              (V10.all_combined_data files) (V10.user_group_ids inp)
              (V10.top_n inp) mahalanobis Hc
              (mahalanobis_distances_length _ _ _ _ _ Hm) Hcols Hn)
    as (m & Hout_m & Hle_m & Hnd_m & Hr_m).
  exists e, m. split; [|by rewrite Forall_app].
  unfold V10.run. rewrite Hload. cbn [mbind result_bind].
  destruct (V10.selected_dimensions inp) as [|d dims] eqn:Ed; [done|].
  destruct (V10.user_ratings inp) as [|u us] eqn:Eu; [done|].
  unfold V10.display_results. rewrite Eu, Ed, Hdata. cbn [length Nat.ltb Nat.leb].
  unfold V10.euclidean_top_indices, V10.mahalanobis_top_indices.
  rewrite He, Hm. cbn [mbind result_bind].
  rewrite Hout_e, Hout_m. reflexivity.
Qed.

Lemma v10_run_returns_both_rankings_witness :
  exists closest_euclidean closest_mahalanobis,
    V10.run insertion_argsort exact_inverse std_half
      two_independent_dimensions sample_input
    = Ok (Some (closest_euclidean, closest_mahalanobis))
    /\ (Z.of_nat (length closest_euclidean) <= 3)%Z
    /\ (Z.of_nat (length closest_mahalanobis) <= 3)%Z
    /\ NoDup closest_euclidean /\ NoDup closest_mahalanobis
    /\ Forall (fun i => (i < 3)%nat)
              (closest_euclidean ++ closest_mahalanobis).
Proof.
  eapply (v10_run_returns_both_rankings insertion_argsort exact_inverse
            std_half two_independent_dimensions sample_input).
  - exact insertion_argsort_contract.
  - vm_compute. reflexivity.
  - discriminate.
  - discriminate.
  - vm_compute. reflexivity.
  - vm_compute. reflexivity.
  - intros i r Hr g Hg. apply list_elem_of_singleton in Hg as ->.
    destruct i as [|[|[|i]]]; simpl in Hr; try discriminate;
      injection Hr as <-; split; eexists; reflexivity.
  - simpl. lia.
Defined.
